(** * Classroom-availability scraper: the normalisation cascade, the cell
    pairer, the schedule-table fill and the pagination loop of [collect.py],
    embedded in Rocq.

    A Python [str] is a sequence of Unicode code points, so a string is a
    list of code points here; the source's literals are written as UTF-8
    string literals and decoded by [py]. *)

From Stdlib Require Import String Ascii NArith ZArith Lia Bool ZifyBool.
From stdpp Require Import base option list gmap.

Local Open Scope N_scope.

(** ** Strings as code-point lists *)

Abbreviation char := N (only parsing).
Abbreviation str := (list N) (only parsing).

Fixpoint utf8_decode (bs : list N) : str :=
  match bs with
  | [] => []
  | b0 :: r0 =>
    if b0 <? 128 then b0 :: utf8_decode r0
    else match r0 with
    | [] => [b0]
    | b1 :: r1 =>
      if b0 <? 224 then ((b0 - 192) * 64 + (b1 - 128)) :: utf8_decode r1
      else match r1 with
      | [] => [b0; b1]
      | b2 :: r2 =>
        if b0 <? 240
        then ((b0 - 224) * 4096 + (b1 - 128) * 64 + (b2 - 128)) :: utf8_decode r2
        else match r2 with
        | [] => [b0; b1; b2]
        | b3 :: r3 =>
          ((b0 - 240) * 262144 + (b1 - 128) * 4096 + (b2 - 128) * 64 + (b3 - 128))
            :: utf8_decode r3
        end
      end
    end
  end.

Definition py (s : string) : str :=
  utf8_decode (List.map N_of_ascii (list_ascii_of_string s)).

(** ** The Python runtime's character tables

    [str.isspace] (also the class [\s] of [re] on [str] patterns). *)

Definition is_space (c : char) : bool :=
  ((9 <=? c) && (c <=? 13)) || ((28 <=? c) && (c <=? 32))
  || (c =? 133) || (c =? 160) || (c =? 5760)
  || ((8192 <=? c) && (c <=? 8202))
  || (c =? 8232) || (c =? 8233) || (c =? 8239) || (c =? 8287) || (c =? 12288).

(** [str.isdecimal], the class [\d] of [re]: the decimal digits of Unicode
    14 come in runs of ten that start at the code points below, and in the
    fifty mathematical digits from U+1D7CE. *)

Definition digit_runs : list N :=
  [ 48; 1632; 1776; 1984; 2406; 2534; 2662; 2790; 2918; 3046; 3174; 3302;
    3430; 3558; 3664; 3792; 3872; 4160; 4240; 6112; 6160; 6470; 6608; 6784;
    6800; 6992; 7088; 7232; 7248; 42528; 43216; 43264; 43472; 43504; 43600;
    44016; 65296; 66720; 68912; 69734; 69872; 69942; 70096; 70384; 70736;
    70864; 71248; 71360; 71472; 71904; 72016; 72784; 73040; 73120; 92768;
    92864; 93008; 120782; 120792; 120802; 120812; 120822; 123200; 123632;
    125264; 130032 ].

Definition is_digit (c : char) : bool :=
  existsb (fun a => (a <=? c) && (c <? a + 10)) digit_runs.

Definition is_alpha (c : char) : bool :=     (* the class [A-Za-z] *)
  ((65 <=? c) && (c <=? 90)) || ((97 <=? c) && (c <=? 122)).

(** [str.upper] on one code point.  Lower-case ASCII letters go to upper
    case; the three code points outside ASCII whose upper-case form holds a
    letter of "TBD" are expanded as Python does; every other code point is
    left as it is, which the only use on a whole string, the test
    ["TBD" in s.upper()], cannot tell from the real table. *)

Definition upper_char (c : char) : str :=
  if (97 <=? c) && (c <=? 122) then [c - 32]
  else if (c =? 64261) || (c =? 64262) then [83; 84]
  else if c =? 7831 then [84; 776]
  else [c].

Definition upper (s : str) : str := List.concat (List.map upper_char s).

(** ** String primitives of Python *)

Definition str_eqb (a b : str) : bool := bool_decide (a = b).

Fixpoint lstrip (s : str) : str :=
  match s with
  | c :: r => if is_space c then lstrip r else s
  | [] => []
  end.

Definition rstrip (s : str) : str := rev (lstrip (rev s)).

Definition strip (s : str) : str := rstrip (lstrip s).

Fixpoint startswith (p s : str) : bool :=
  match p, s with
  | [], _ => true
  | a :: p', b :: s' => (a =? b) && startswith p' s'
  | _ :: _, [] => false
  end.

(** [sub in s] *)
Fixpoint contains (sub s : str) : bool :=
  startswith sub s ||
  match s with
  | [] => false
  | _ :: r => contains sub r
  end.

(** [s.replace(old, new)] for a non-empty [old]: occurrences are replaced
    from the left and do not overlap.  [skip] counts the characters of the
    occurrence being replaced that are still to be passed over. *)
Fixpoint replace_from (skip : nat) (old new s : str) : str :=
  match s with
  | [] => []
  | c :: r =>
    match skip with
    | S k => replace_from k old new r
    | O =>
      if startswith old s
      then new ++ replace_from (length old - 1) old new r
      else c :: replace_from 0 old new r
    end
  end.

Definition replace (old new s : str) : str := replace_from 0 old new s.

(** [s.zfill(2)] on a string without sign. *)
Definition zfill2 (s : str) : str :=
  match s with
  | [] => [48; 48]
  | [c] => [48; c]
  | _ => s
  end.

(** [s.split(sep)] for a one-character separator. *)
Fixpoint split_on (sep : char) (s : str) : list str :=
  match s with
  | [] => [[]]
  | c :: r =>
    if c =? sep then [] :: split_on sep r
    else match split_on sep r with
         | w :: ws => (c :: w) :: ws
         | [] => [[c]]
         end
  end.

(** A one-character literal of the source. *)
Definition ch (s : string) : char := hd 0 (py s).

(** ** Text normaliser ([_ZEN2HAN], [norm_text]) *)

Definition zh (full half : string) : char * char := (ch full, ch half).

Definition _ZEN2HAN : list (char * char) :=
  [ zh "０" "0"; zh "１" "1"; zh "２" "2"; zh "３" "3"; zh "４" "4";
    zh "５" "5"; zh "６" "6"; zh "７" "7"; zh "８" "8"; zh "９" "9";
    zh "－" "-"; zh "−" "-"; zh "ー" "-"; zh "―" "-"; zh "‐" "-";
    zh "　" " ";
    zh "Ａ" "A"; zh "Ｂ" "B"; zh "Ｃ" "C"; zh "Ｄ" "D"; zh "Ｅ" "E";
    zh "Ｆ" "F"; zh "Ｇ" "G"; zh "Ｈ" "H"; zh "Ｉ" "I"; zh "Ｊ" "J";
    zh "Ｋ" "K"; zh "Ｌ" "L"; zh "Ｍ" "M"; zh "Ｎ" "N"; zh "Ｏ" "O";
    zh "Ｐ" "P"; zh "Ｑ" "Q"; zh "Ｒ" "R"; zh "Ｓ" "S"; zh "Ｔ" "T";
    zh "Ｕ" "U"; zh "Ｖ" "V"; zh "Ｗ" "W"; zh "Ｘ" "X"; zh "Ｙ" "Y"; zh "Ｚ" "Z";
    zh "ａ" "a"; zh "ｂ" "b"; zh "ｃ" "c"; zh "ｄ" "d"; zh "ｅ" "e";
    zh "ｆ" "f"; zh "ｇ" "g"; zh "ｈ" "h"; zh "ｉ" "i"; zh "ｊ" "j";
    zh "ｋ" "k"; zh "ｌ" "l"; zh "ｍ" "m"; zh "ｎ" "n"; zh "ｏ" "o";
    zh "ｐ" "p"; zh "ｑ" "q"; zh "ｒ" "r"; zh "ｓ" "s"; zh "ｔ" "t";
    zh "ｕ" "u"; zh "ｖ" "v"; zh "ｗ" "w"; zh "ｘ" "x"; zh "ｙ" "y"; zh "ｚ" "z" ].

(** [table.get(c, c)]: what [str.translate] does to one character. *)
Fixpoint table_get (t : list (char * char)) (c : char) : char :=
  match t with
  | [] => c
  | (k, v) :: t' => if c =? k then v else table_get t' c
  end.

Definition translate (t : list (char * char)) (s : str) : str :=
  List.map (table_get t) s.

Definition norm_text (s : str) : str := strip (translate _ZEN2HAN s).

(** [norm_text(None)]: the source takes the empty string for [None]. *)
Definition norm_text_opt (o : option str) : str := norm_text (default [] o).

(** ** Anchored pattern pieces

    The regular expressions of the room cascade are anchored, and in each of
    them a repeated class is followed by a character outside that class, so
    the greedy repetition never has to give characters back: each piece
    below consumes what the expression's piece consumes and returns the
    rest. *)

Fixpoint span (p : char -> bool) (s : str) : str * str :=
  match s with
  | c :: r => if p c then let '(a, b) := span p r in (c :: a, b) else ([], s)
  | [] => ([], [])
  end.

(** [p+] *)
Definition many1 (p : char -> bool) (s : str) : option (str * str) :=
  let '(a, r) := span p s in
  match a with [] => None | _ => Some (a, r) end.

(** a literal *)
Fixpoint lit (l s : str) : option str :=
  match l, s with
  | [], _ => Some s
  | a :: l', b :: s' => if a =? b then lit l' s' else None
  | _ :: _, [] => None
  end.

(** [p{n}] *)
Fixpoint exactly (n : nat) (p : char -> bool) (s : str) : option (str * str) :=
  match n with
  | O => Some ([], s)
  | S k =>
    match s with
    | c :: r =>
      if p c then '(a, b) ← exactly k p r; Some (c :: a, b) else None
    | [] => None
    end
  end.

(** [p?] *)
Definition opt1 (p : char -> bool) (s : str) : option char * str :=
  match s with
  | c :: r => if p c then (Some c, r) else (None, s)
  | [] => (None, s)
  end.

(** [p{1,2}] *)
Definition one_or_two (p : char -> bool) (s : str) : option (str * str) :=
  match s with
  | c :: r =>
    if p c then
      match opt1 p r with
      | (Some d, r') => Some ([c; d], r')
      | (None, r') => Some ([c], r')
      end
    else None
  | [] => None
  end.

(** [$] without MULTILINE: the end of the string, or just before a newline
    that ends the string. *)
Definition at_end (s : str) : bool :=
  match s with
  | [] => true
  | [c] => c =? 10
  | _ => false
  end.

Definition is_colon (c : char) : bool := (c =? ch ":") || (c =? ch "：").

(** [re.sub] of [r"^\s*\d{1,2}\s*[:：]\s*"] by the empty string *)
Definition strip_key_prefix (s : str) : str :=
  match one_or_two is_digit (lstrip s) with
  | Some (_, r) =>
    match lstrip r with
    | c :: r' => if is_colon c then lstrip r' else s
    | [] => s
    end
  | None => s
  end.

(** [.*?] up to the closing character: the number of characters to the
    first [close], that one included, when no newline comes before it. *)
Fixpoint find_close (close : char) (s : str) : option nat :=
  match s with
  | [] => None
  | c :: r =>
    if c =? close then Some 1%nat
    else if c =? 10 then None
    else S <$> find_close close r
  end.

(** [re.sub] of [r"（.*?）|\(.*?\)"] by the empty string; [skip] counts the characters of the
    match being removed that are still to be passed over. *)
Fixpoint drop_parens_from (skip : nat) (s : str) : str :=
  match s with
  | [] => []
  | c :: r =>
    match skip with
    | S k => drop_parens_from k r
    | O =>
      match (if c =? ch "（" then find_close (ch "）") r
             else if c =? ch "(" then find_close (ch ")") r
             else None) with
      | Some n => drop_parens_from n r
      | None => c :: drop_parens_from 0 r
      end
    end
  end.

Definition drop_parens (s : str) : str := drop_parens_from 0 s.

Definition is_alpha_wide (c : char) : bool :=    (* [A-Za-zＡ-Ｚａ-ｚ] *)
  is_alpha c
  || ((ch "Ａ" <=? c) && (c <=? ch "Ｚ")) || ((ch "ａ" <=? c) && (c <=? ch "ｚ")).

Definition skip_opt (c : char) (s : str) : str := (opt1 (N.eqb c) s).2.

(** [re.match(r"(\d+)号館\d*階?末端室?([A-Za-zＡ-Ｚａ-ｚ])[ルー]*ム?", s)]:
    groups 1 and 2.  The tail [[ルー]*ム?] matches any continuation. *)
Definition m_pc_ja (s : str) : option (str * str) :=
  '(b, r) ← many1 is_digit s;
  r ← lit (py "号館") r;
  let r := (span is_digit r).2 in
  let r := skip_opt (ch "階") r in
  r ← lit (py "末端") r;
  let r := skip_opt (ch "室") r in
  match r with
  | l :: _ => if is_alpha_wide l then Some (b, [l]) else None
  | [] => None
  end.

(** [re.match(r"^(\d+)-\d+F-([A-Za-z])$", s)] *)
Definition m_pc_en (s : str) : option (str * str) :=
  '(b, r) ← many1 is_digit s;
  r ← lit (py "-") r;
  '(_, r) ← many1 is_digit r;
  r ← lit (py "F-") r;
  '(l, r) ← exactly 1 is_alpha r;
  if at_end r then Some (b, l) else None.

(** [\d+[A-Za-z]*-\d{2}-\d{2}], the common head of two patterns *)
Definition long_form (s : str) : option (str * str) :=
  '(b, r) ← many1 is_digit s;
  let '(l, r) := span is_alpha r in
  r ← lit (py "-") r;
  '(f, r) ← exactly 2 is_digit r;
  r ← lit (py "-") r;
  '(m, r) ← exactly 2 is_digit r;
  Some (b ++ l ++ py "-" ++ f ++ py "-" ++ m, r).

(** [re.match(r"^\d+[A-Za-z]*-\d{2}-\d{2}$", s)] *)
Definition is_long (s : str) : bool :=
  match long_form s with
  | Some (_, r) => at_end r
  | None => false
  end.

(** [re.match(r"^\d+PC-[A-Za-z]$", s)] *)
Definition is_pc (s : str) : bool :=
  match ('(_, r) ← many1 is_digit s;
         r ← lit (py "PC-") r;
         '(_, r) ← exactly 1 is_alpha r;
         Some r) with
  | Some r => at_end r
  | None => false
  end.

(** [re.match(r"^\d+-B\d{2}$", s)] *)
Definition is_basement (s : str) : bool :=
  match ('(_, r) ← many1 is_digit s;
         r ← lit (py "-B") r;
         '(_, r) ← exactly 2 is_digit r;
         Some r) with
  | Some r => at_end r
  | None => false
  end.

(** [re.match] of [^(\d+[A-Za-z]* )-(\d+)-(\d+)$] (the blank is not in the
    source) *)
Definition m_full (s : str) : option (str * str * str) :=
  '(b, r) ← many1 is_digit s;
  let '(l, r) := span is_alpha r in
  r ← lit (py "-") r;
  '(f, r) ← many1 is_digit r;
  r ← lit (py "-") r;
  '(m, r) ← many1 is_digit r;
  if at_end r then Some (b ++ l, f, m) else None.

(** [re.match(r"^(\d+[A-Za-z]*-\d{2}-\d{2})(?:-\d+)?$", s)]: group 1 *)
Definition m_base (s : str) : option str :=
  '(base, r) ← long_form s;
  match ('(_, r') ← (r' ← lit (py "-") r; many1 is_digit r'); Some r') with
  | Some r' => if at_end r' then Some base else if at_end r then Some base else None
  | None => if at_end r then Some base else None
  end.

(** [re.match(r"^(\d+)-(\d{3})([A-Za-z])?$", s)] *)
Definition m_short3 (s : str) : option (str * str * option char) :=
  '(b, r) ← many1 is_digit s;
  r ← lit (py "-") r;
  '(d, r) ← exactly 3 is_digit r;
  let '(sfx, r) := opt1 is_alpha r in
  if at_end r then Some (b, d, sfx) else None.

(** [re.match(r"^(\d+)-(\d{1,2})$", s)] *)
Definition m_short (s : str) : option (str * str) :=
  '(b, r) ← many1 is_digit s;
  r ← lit (py "-") r;
  '(n, r) ← one_or_two is_digit r;
  if at_end r then Some (b, n) else None.

(** ** Room canonicaliser ([norm_room]) *)

(** The pattern rules of [norm_room], from the alias to the fallback,
    on the cleaned text [s]. *)
Definition room_cascade (s : str) : str :=
  if str_eqb s (py "61-102") then py "61-102B"
  else
  match m_pc_en s with
  | Some (building, l) => building ++ py "PC-" ++ upper l
  | None =>
  if is_long s then s
  else if is_pc s then s
  else if is_basement s then s
  else
  match m_full s with
  | Some (building, f, m) =>
    building ++ py "-" ++ zfill2 f ++ py "-" ++ zfill2 m
  | None =>
  match m_base s with
  | Some base => base
  | None =>
  match m_short3 s with
  | Some (building, digits, suffix) =>
    if str_eqb building (py "63") then
      let floor := zfill2 (take 1 digits) in
      let room := take 2 (drop 1 digits) in
      building ++ py "-" ++ floor ++ py "-" ++ room
    else
      building ++ py "-" ++ digits
        ++ match suffix with Some l => upper [l] | None => [] end
  | None =>
  match m_short s with
  | Some (building, num) => building ++ py "-" ++ zfill2 num
  | None => s
  end end end end end.

Definition norm_room (raw : str) : str :=
  let s := norm_text raw in
  let s := strip_key_prefix s in
  let s := drop_parens s in
  if contains (py "未定") s || str_eqb s [] || contains (py "TBD") (upper s)
  then []
  else
  match m_pc_ja s with
  | Some (g1, g2) =>
    let building := norm_text g1 in
    let room_letter := upper (norm_text g2) in
    building ++ py "PC-" ++ room_letter
  | None =>
  let s := norm_text s in
  let s := replace (py "ル-ム") []
             (replace (py "ルーム") []
               (replace (py "室") [] (replace (py "教室") [] s))) in
  let s := replace (py " ") [] s in
  if str_eqb s [] then []
  else room_cascade s
  end.

(** ** Day and period parser ([parse_day_periods]) *)

Definition DAY_MAP_JA : list (char * str) :=
  [ (ch "月", py "mon"); (ch "火", py "tue"); (ch "水", py "wed");
    (ch "木", py "thu"); (ch "金", py "fri"); (ch "土", py "sat");
    (ch "日", py "sun") ].

Definition DAY_MAP_EN : list (str * str) :=
  [ (py "Mon", py "mon"); (py "Mon.", py "mon");
    (py "Tue", py "tue"); (py "Tues", py "tue");
    (py "Tue.", py "tue"); (py "Tues.", py "tue");
    (py "Wed", py "wed"); (py "Wed.", py "wed");
    (py "Thu", py "thu"); (py "Thur", py "thu");
    (py "Thu.", py "thu"); (py "Thur.", py "thu");
    (py "Fri", py "fri"); (py "Fri.", py "fri");
    (py "Sat", py "sat"); (py "Sat.", py "sat");
    (py "Sun", py "sun"); (py "Sun.", py "sun") ].

(** [d[k]] on a dictionary written as its list of items *)
Fixpoint dict_get {K V} `{EqDecision K} (d : list (K * V)) (k : K) : option V :=
  match d with
  | [] => None
  | (k', v) :: d' => if decide (k = k') then Some v else dict_get d' k
  end.

(** [re.search(r"([月火水木金土日])", s)]: the day of the first such
    character and [s[m.end():]]. *)
Fixpoint search_ja (s : str) : option (str * str) :=
  match s with
  | [] => None
  | c :: r =>
    match dict_get DAY_MAP_JA c with
    | Some day => Some (day, r)
    | None => search_ja r
    end
  end.

Definition is_period (c : char) : bool := (ch "1" <=? c) && (c <=? ch "7").

Definition is_dash (c : char) : bool :=           (* [-~〜－–] *)
  (c =? ch "-") || (c =? ch "~") || (c =? ch "〜") || (c =? ch "－")
  || (c =? ch "–").

(** [int(x)] for one ASCII digit *)
Definition int_of_digit (c : char) : Z := Z.of_N c - 48.

(** [re.search(r"([1-7])\s*[-~〜－–]\s*([1-7])", rest)]: the two groups of
    the leftmost match.  White space, the dashes and the digits are
    disjoint classes, so the greedy [\s*] gives nothing back. *)
Definition range_at (s : str) : option (char * char) :=
  match s with
  | a :: r =>
    if is_period a then
      match lstrip r with
      | d :: r' =>
        if is_dash d then
          match lstrip r' with
          | b :: _ => if is_period b then Some (a, b) else None
          | [] => None
          end
        else None
      | [] => None
      end
    else None
  | [] => None
  end.

Fixpoint search_range (s : str) : option (char * char) :=
  match range_at s with
  | Some g => Some g
  | None => match s with [] => None | _ :: r => search_range r end
  end.

(** [list(range(lo, hi))] *)
Definition py_range (lo hi : Z) : list Z := seqZ lo (hi - lo).

(** The loop that drops repeated periods, with its [seen] set. *)
Fixpoint dedup_loop (nums : list Z) (seen : gset Z) (periods : list Z) : list Z :=
  match nums with
  | [] => periods
  | n :: nums' =>
    if decide (n ∈ seen) then dedup_loop nums' seen periods
    else dedup_loop nums' ({[n]} ∪ seen) (periods ++ [n])
  end.

Section WordBoundary.

(** The class [\w] of [re] on [str] patterns is the Unicode alphanumerics
    and the underscore, a table of the runtime; the parser is defined for
    any such table. *)
Variable is_word : char -> bool.

Definition wordy (o : option char) : bool :=
  match o with Some c => is_word c | None => false end.

(** [\b] between the character before and the character after *)
Definition boundary (prev next : option char) : bool :=
  xorb (wordy prev) (wordy next).

Definition EN_DAYS : list str :=
  [ py "Mon"; py "Tue"; py "Tues"; py "Wed"; py "Thu"; py "Thur";
    py "Fri"; py "Sat"; py "Sun" ].

(** One alternative [w\.?] followed by [\b]: the dot is taken when the
    boundary holds after it, and given back otherwise. *)
Definition en_day_alt (w s : str) : option (str * str) :=
  r ← lit w s;
  match r with
  | c :: r' =>
    if (c =? ch ".") && boundary (Some c) (head r')
    then Some (w ++ [c], r')
    else if boundary (last w) (head r) then Some (w, r) else None
  | [] => if boundary (last w) None then Some (w, r) else None
  end.

Fixpoint first_alt (ws : list str) (s : str) : option (str * str) :=
  match ws with
  | [] => None
  | w :: ws' =>
    match en_day_alt w s with
    | Some g => Some g
    | None => first_alt ws' s
    end
  end.

(** [re.search] of the English day pattern: group 1 and [s[m.end():]];
    [prev] is the character before [s]. *)
Fixpoint search_en (prev : option char) (s : str) : option (str * str) :=
  match (if boundary prev (head s) then first_alt EN_DAYS s else None) with
  | Some g => Some g
  | None => match s with [] => None | c :: r => search_en (Some c) r end
  end.

(** [re.sub(r"\bto\b", "-", rest, flags=re.IGNORECASE)] *)
Fixpoint sub_to (skip : bool) (prev : option char) (s : str) : str :=
  match s with
  | [] => []
  | c :: r =>
    if skip then sub_to false (Some c) r
    else
      match r with
      | o :: r' =>
        if boundary prev (Some c)
           && ((c =? ch "t") || (c =? ch "T"))
           && ((o =? ch "o") || (o =? ch "O"))
           && boundary (Some o) (head r')
        then ch "-" :: sub_to true (Some c) r
        else c :: sub_to false (Some c) r
      | [] => c :: sub_to false (Some c) r
      end
  end.

(** [re.findall(r"\b([1-7])\b", rest)] *)
Fixpoint findall_period (prev : option char) (s : str) : list char :=
  match s with
  | [] => []
  | c :: r =>
    if is_period c && boundary prev (Some c) && boundary (Some c) (head r)
    then c :: findall_period (Some c) r
    else findall_period (Some c) r
  end.

Definition parse_day_periods (item : str) : option (str * list Z) :=
  let s := norm_text item in
  let s := strip_key_prefix s in
  if startswith (py "無") s || contains (py "On demand") s
     || contains (py "OD") s
  then None
  else
    '(day, rest) ←
      match search_ja s with
      | Some (day, rest) => Some (day, rest)
      | None =>
        '(g, rest) ← search_en None s;
        day ← dict_get DAY_MAP_EN g;
        Some (day, rest)
      end;
    let rest := replace (py "時限") (py " ") rest in
    let rest := sub_to false None rest in
    match search_range rest with
    | Some (a, b) =>
      let a := int_of_digit a in
      let b := int_of_digit b in
      let '(lo, hi) := if (a <=? b)%Z then (a, b) else (b, a) in
      Some (day, py_range lo (hi + 1))
    | None =>
      let nums := List.map int_of_digit (findall_period None rest) in
      match nums with
      | [] => None
      | _ => Some (day, dedup_loop nums ∅ [])
      end
    end.

End WordBoundary.

(** The ASCII part of [\w], enough to run the parser on the examples. *)
Definition is_word_ascii (c : char) : bool :=
  is_alpha c || ((48 <=? c) && (c <=? 57)) || (c =? 95).

(** ** Cell lines and their pairing ([keyed_lines], [pair_day_and_room]) *)

Definition entry : Type := option str * str.

(** [re.match] of [^(\d{1,2})\s*[:：]\s*(.* )$] (the blank is not in the
    source): groups 1 and 2.  The dot matches no newline, so group 2 is the
    text up to the end of the string, or up to a newline that ends it. *)
Definition m_key (s : str) : option (str * str) :=
  '(k, r) ← one_or_two is_digit s;
  match lstrip r with
  | c :: r' =>
    if is_colon c then
      let '(v, e) := span (fun x => negb (x =? 10)) (lstrip r') in
      if at_end e then Some (k, v) else None
    else None
  | [] => None
  end.

Fixpoint keyed_lines (lines : list str) : list entry :=
  match lines with
  | [] => []
  | s :: lines' =>
    let s2 := norm_text s in
    if str_eqb s2 [] then keyed_lines lines'
    else
      match m_key s2 with
      | Some (g1, g2) => (Some (zfill2 g1), strip g2) :: keyed_lines lines'
      | None => (None, s2) :: keyed_lines lines'
      end
  end.

(** [not key] for an optional string *)
Definition no_key (k : option str) : bool :=
  match k with
  | None | Some [] => true
  | Some _ => false
  end.

(** [enumerate(l)] *)
Definition enumerate {A} (l : list A) : list (nat * A) := zip (seq 0 (length l)) l.

(** The first loop: [room_by_key.setdefault(room_key, deque()).append(idx)] *)
Definition index_step (m : gmap str (list nat)) (p : nat * entry)
    : gmap str (list nat) :=
  let '(idx, (room_key, _)) := p in
  match room_key with
  | Some k =>
    if no_key room_key then m
    else <[k := default [] (m !! k) ++ [idx]]> m
  | None => m
  end.

Definition index_rooms (room_entries : list entry) : gmap str (list nat) :=
  foldl index_step ∅ (enumerate room_entries).

(** The state of the second loop. *)
Record pairing := {
  room_by_key : gmap str (list nat);
  used_day : gset nat;
  used_room : gset nat;
  pairs : list (str * str)
}.

Definition pair_step (room_entries : list entry) (st : pairing)
    (d : nat * entry) : pairing :=
  let '(day_idx, (day_key, day_value)) := d in
  match day_key with
  | Some k =>
    if no_key day_key then st
    else
      match room_by_key st !! k with
      | Some (room_idx :: queue) =>
        {| room_by_key := <[k := queue]> (room_by_key st);
           used_day := {[day_idx]} ∪ used_day st;
           used_room := {[room_idx]} ∪ used_room st;
           pairs := pairs st
                    ++ [(day_value, (room_entries !!! room_idx).2)] |}
      | _ => st
      end
  | None => st
  end.

(** [[es[i][1] for i in range(len(es)) if i not in used]] *)
Definition unused (es : list entry) (used : gset nat) : list str :=
  List.map (fun p : nat * entry => p.2.2)
    (List.filter (fun p : nat * entry => bool_decide (p.1 ∉ used)) (enumerate es)).

Definition pair_day_and_room (day_lines room_lines : list str) : list (str * str) :=
  let day_entries := keyed_lines day_lines in
  let room_entries := keyed_lines room_lines in
  let st := foldl (pair_step room_entries)
              {| room_by_key := index_rooms room_entries;
                 used_day := ∅; used_room := ∅; pairs := [] |}
              (enumerate day_entries) in
  let day_seq := unused day_entries (used_day st) in
  let room_seq := unused room_entries (used_room st) in
  pairs st ++ zip day_seq room_seq.

(** ** Schedule table ([put_cell])

    A data frame read with [dtype=str] is a list of labelled columns of
    text cells, in the order of the file. *)

Definition DataFrame : Type := list (str * list str).

Definition columns (df : DataFrame) : list str := List.map fst df.

Inductive exn := KeyError | ValueError | OverflowError.

Inductive result (A : Type) :=
  | Ok (a : A)
  | Raise (e : exn).
Arguments Ok {A} a.
Arguments Raise {A} e.

(** The value of a decimal digit of any script. *)
Definition digit_value (c : char) : option Z :=
  a ← List.find (fun a => (a <=? c) && (c <? a + 10)) digit_runs;
  Some (Z.of_N ((c - a) mod 10)).

(** The digits of [int(text)]: single underscores may separate digits. *)
Fixpoint int_digits (acc : Z) (s : str) : option Z :=
  match s with
  | [] => Some acc
  | c :: r =>
    if c =? ch "_" then
      match r with
      | d :: _ => if is_digit d then int_digits acc r else None
      | [] => None
      end
    else v ← digit_value c; int_digits (10 * acc + v) r
  end.

Definition int_unsigned (s : str) : option Z :=
  match s with
  | c :: _ => if is_digit c then int_digits 0 s else None
  | [] => None
  end.

(** [int(text)]: blanks around the number and a sign before it are
    accepted; the value is a Python integer, of any size. *)
Definition py_int (s : str) : option Z :=
  match strip s with
  | c :: r =>
    if c =? ch "-" then Z.opp <$> int_unsigned r
    else if c =? ch "+" then int_unsigned r
    else int_unsigned (c :: r)
  | [] => None
  end.

(** [astype(int)] stores 64-bit signed integers. *)
Definition int64 (z : Z) : bool := (- 2 ^ 63 <=? z)%Z && (z <? 2 ^ 63)%Z.

(** One cell of [df["period"].astype(int)]: the text is read by [int];
    a text that is no number raises [ValueError], a number that does not
    fit 64 bits raises [OverflowError]. *)
Definition astype_int_cell (s : str) : result Z :=
  match py_int s with
  | None => Raise ValueError
  | Some z => if int64 z then Ok z else Raise OverflowError
  end.

(** [df["period"].astype(int)]: the cells are converted in order, and the
    first one that fails raises. *)
Fixpoint astype_int (cells : list str) : result (list Z) :=
  match cells with
  | [] => Ok []
  | c :: cs =>
    match astype_int_cell c with
    | Raise e => Raise e
    | Ok z =>
      match astype_int cs with
      | Raise e => Raise e
      | Ok zs => Ok (z :: zs)
      end
    end
  end.

(** [df.at[idx, room] = value] *)
Fixpoint set_at (df : DataFrame) (idx : nat) (room value : str) : DataFrame :=
  match df with
  | [] => []
  | (label, cells) :: df' =>
    if decide (room = label) then (label, <[idx := value]> cells) :: df'
    else (label, cells) :: set_at df' idx room value
  end.

(** [df.at[idx, room]] *)
Definition get_at (df : DataFrame) (idx : nat) (room : str) : option str :=
  cells ← dict_get df room; cells !! idx.

(** [[x.strip() for x in cur.split(";") if x.strip()]] *)
Definition cell_values (cur : str) : list str :=
  List.filter (fun x => negb (str_eqb x []))
    (List.map strip (split_on (ch ";") cur)).

(** The frame is changed in place by the source; here the new frame is
    returned.  [Raise] is an exception that leaves [put_cell]. *)
Definition put_cell (df : DataFrame) (period : Z) (room value : str)
    : result DataFrame :=
  if negb (bool_decide (room ∈ columns df)) then Ok df
  else
    match dict_get df (py "period") with
    | None => Raise KeyError
    | Some cells =>
      match astype_int cells with
      | Raise e => Raise e
      | Ok periods =>
        if negb (bool_decide (period ∈ periods)) then Ok df
        else
          match list_find (fun p => p = period) periods with
          | None => Raise KeyError
          | Some (idx, _) =>
            match get_at df idx room with
            | None => Raise KeyError
            | Some cell =>
              let cur := strip cell in
              if str_eqb cur [] then Ok (set_at df idx room value)
              else
                let vals := cell_values cur in
                if negb (bool_decide (value ∈ vals))
                then Ok (set_at df idx room (cur ++ py ";" ++ value))
                else Ok df
            end
          end
      end
    end.

Definition mon_csv : DataFrame :=
  [ (py "period", [py "1"; py "2"; py "3"]);
    (py "53-101", [[]; py "A1:Algebra"; []]);
    (py "63PC-G", [[]; []; []]) ].



(** ** Pagination controller ([_parse_range_indicator], [go_to_next_page]) *)

(** [int(g)] for a group of decimal digits *)
Definition int_of_digits (g : str) : Z :=
  foldl (fun acc c => (10 * acc + default 0 (digit_value c))%Z) 0%Z g.

Definition is_tilde (c : char) : bool := (c =? ch "～") || (c =? ch "-").
Definition is_slash (c : char) : bool := (c =? ch "／") || (c =? ch "/").

(** One attempt of [(\d+)\s*[～\-]\s*(\d+)\s*[／/]\s*(\d+)] at the head of [s] *)
Definition range_indicator_at (s : str) : option (Z * Z * Z) :=
  '(a, r) ← many1 is_digit s;
  match lstrip r with
  | c :: r =>
    if is_tilde c then
      '(b, r) ← many1 is_digit (lstrip r);
      match lstrip r with
      | c :: r =>
        if is_slash c then
          '(t, _) ← many1 is_digit (lstrip r);
          Some (int_of_digits a, int_of_digits b, int_of_digits t)
        else None
      | [] => None
      end
    else None
  | [] => None
  end.

Fixpoint search_range_indicator (s : str) : option (Z * Z * Z) :=
  match range_indicator_at s with
  | Some g => Some g
  | None => match s with [] => None | _ :: r => search_range_indicator r end
  end.

Definition _parse_range_indicator (text : str) : option (Z * Z * Z) :=
  let s := norm_text text in
  if str_eqb s [] then None else search_range_indicator s.

(** The browser page, as far as the controller uses it.  [W] is the state of
    the browser and of the site behind it; an operation that can change it
    returns the new state.  A call that raises inside a [try] of the source
    is the [None] or [false] of the operation.  Delays
    ([wait_for_timeout], [time.sleep]) are not modelled. *)
Record Browser (W T : Type) := {
  (** [page.locator("div.c-selectall font").first.inner_text(timeout=2000)] *)
  inner_text : W -> option str;
  (** fallback 1: [page.evaluate] of the call of [page_turning] with the
      target page; [true] when the site's function was called *)
  call_page_turning : Z -> W -> bool * W;
  (** [page.wait_for_function] that the [textContent] of the indicator, as
      the document holds it, differs from [prev], within 30 s: [true] when
      it returns, [false] when it times out *)
  wait_range_change : str -> W -> bool * W;
  (** fallback 2: fill [p_page] and submit [cForm] *)
  submit_form : Z -> W -> bool * W;
  (** fallback 3: click the pager link whose handler is [page_turning] *)
  click_next : W -> bool * W;
  (** the diagnostics printed and saved when no link was clicked *)
  diagnostics : bool -> bool -> W -> W;
  (** [page.wait_for_selector(RESULT_TABLE_SELECTOR, timeout=30000)] *)
  wait_for_table : W -> W;
  (** [page.content()] parsed, and the table of class [ct-vh] in it *)
  find_table : W -> option T
}.
Arguments inner_text {W T}.
Arguments call_page_turning {W T}.
Arguments wait_range_change {W T}.
Arguments submit_form {W T}.
Arguments click_next {W T}.
Arguments diagnostics {W T}.
Arguments wait_for_table {W T}.
Arguments find_table {W T}.

Section Pagination.

Context {W T : Type} (page : Browser W T).

Definition _range_text (w : W) : str :=
  match inner_text page w with
  | Some t => norm_text t
  | None => []
  end.

(** [total_pages] of an indicator, with the page size read off it *)
Definition total_pages (info : Z * Z * Z) : Z :=
  let '(_start, _end, total) := info in
  let per_page := Z.max 1 (_end - _start + 1) in
  ((total + per_page - 1) / per_page)%Z.

Definition go_to_next_page (current_page_no : Z) (w : W) : bool * W :=
  let before := _range_text w in
  if match _parse_range_indicator before with
     | Some info => (total_pages info <=? current_page_no)%Z
     | None => false
     end
  then (false, w)
  else
    let target_page := (current_page_no + 1)%Z in
    let '(invoked, w) := call_page_turning page target_page w in
    let '(advanced, w) :=
      if invoked then wait_range_change page before w else (false, w) in
    if advanced then (true, w)
    else
      let '(submitted, w) := submit_form page target_page w in
      let '(advanced, w) :=
        if submitted then wait_range_change page before w else (false, w) in
      if advanced then (true, w)
      else
        let '(clicked, w) := click_next page w in
        if negb clicked then (false, diagnostics page invoked submitted w)
        else
          let '(changed, w) := wait_range_change page before w in
          if changed then (true, w)
          else
            let w := wait_for_table page w in
            let after := _range_text w in
            if str_eqb after before then (false, w) else (true, w).

(** *** Harvest loop ([harvest_result_pages])

    [A] is what the loop accumulates (the two sets of tables and the two
    counters) and [scan_rows] the loop over the rows of one page, which
    fills the tables.  The outcome of the [while True] loop is the page
    number it prints as [reached_last_page], the accumulated state and the
    answers of [go_to_next_page] in the order they were given (kept for
    counting the advances; nothing in the loop reads them).  [None] is a
    run cut off by the fuel. *)
Context {A : Type} (scan_rows : T -> A -> result A).

Record harvest := {
  reached_last_page : Z;
  harvested : A;
  answers : list bool;
  final : W
}.

Fixpoint harvest_loop (fuel : nat) (page_no : Z) (acc : A) (log : list bool)
    (w : W) : option (result harvest) :=
  match fuel with
  | O => None
  | S fuel' =>
    let page_no := (page_no + 1)%Z in
    match find_table page w with
    | None => Some (Ok {| reached_last_page := page_no; harvested := acc;
                          answers := log; final := w |})
    | Some table =>
      match scan_rows table acc with
      | Raise e => Some (Raise e)
      | Ok acc =>
        let '(ok, w) := go_to_next_page page_no w in
        if ok then harvest_loop fuel' page_no acc (log ++ [ok]) w
        else Some (Ok {| reached_last_page := page_no; harvested := acc;
                         answers := log ++ [ok]; final := w |})
      end
    end
  end.

Definition harvest_result_pages (fuel : nat) (acc : A) (w : W)
    : option (result harvest) :=
  harvest_loop fuel 0 acc [] w.

End Pagination.

(** ** The pairer as the specification words it

    The room lines that carry key [k] and are not used yet, oldest first. *)
Definition keyed_unused (k : str) (used : gset nat) (p : nat * entry) : bool :=
  bool_decide (p.2.1 = Some k ∧ p.1 ∉ used).

Definition keyed_with (k : str) (used : gset nat) (es : list entry) : list nat :=
  List.map fst (List.filter (keyed_unused k used) (enumerate es)).


(** First phase: each keyed day line takes the oldest unused room line of
    its key, when there is one. *)
Fixpoint key_phase (room_entries : list entry) (days : list (nat * entry))
    (ud ur : gset nat) : list (str * str) * gset nat * gset nat :=
  match days with
  | [] => ([], ud, ur)
  | (i, (Some (c :: k), dv)) :: days' =>
    match head (keyed_with (c :: k) ur room_entries) with
    | Some j =>
      let '(ps, ud', ur') :=
        key_phase room_entries days' ({[i]} ∪ ud) ({[j]} ∪ ur) in
      ((dv, (room_entries !!! j).2) :: ps, ud', ur')
    | None => key_phase room_entries days' ud ur
    end
  | _ :: days' => key_phase room_entries days' ud ur
  end.

(** Second phase: what is left on each side is paired by position. *)
Definition pair_spec (day_entries room_entries : list entry) : list (str * str) :=
  let '(ps, ud, ur) := key_phase room_entries (enumerate day_entries) ∅ ∅ in
  ps ++ zip (unused day_entries ud) (unused room_entries ur).

(** ** Characters of half width: ASCII and the half-width katakana block *)
Definition half_width (c : char) : bool :=
  (c <? 128) || ((65377 <=? c) && (c <=? 65439)).

(** ** Two sites to run the controller on

    A result list of three pages of ten rows on which the pager function
    works: the state is the number of the page shown. *)
Definition three_pages_text (w : Z) : option str :=
  if (w =? 1)%Z then Some (py "1～10／30")
  else if (w =? 2)%Z then Some (py "11～20／30")
  else if (w =? 3)%Z then Some (py "21～30／30")
  else None.

Definition three_pages : Browser Z unit := {|
  inner_text := three_pages_text;
  call_page_turning := fun target _ => (true, target);
  wait_range_change := fun prev w =>
    (negb (str_eqb (default [] (three_pages_text w)) prev), w);
  submit_form := fun _ w => (false, w);
  click_next := fun w => (false, w);
  diagnostics := fun _ _ w => w;
  wait_for_table := fun w => w;
  find_table := fun _ => Some tt
|}.

(** A site whose pager has no effect: every strategy runs, and the range
    text stays what it was. *)
Definition dead_pager : Browser unit unit := {|
  inner_text := fun _ => Some (py "1～10／30");
  call_page_turning := fun _ w => (true, w);
  wait_range_change := fun _ w => (false, w);
  submit_form := fun _ w => (true, w);
  click_next := fun w => (true, w);
  diagnostics := fun _ _ w => w;
  wait_for_table := fun w => w;
  find_table := fun _ => Some tt
|}.

(** Counting the pages scanned, for the two sites. *)
Definition count_page (_ : unit) (n : nat) : result nat := Ok (S n).

(** A string that neither begins nor ends with white space. *)
Definition trimmed (s : str) : bool :=
  match s with
  | [] => true
  | c :: _ => negb (is_space c) && negb (is_space (List.last s c))
  end.

(** The period column as integers, [df["period"].astype(int)], when the
    column is there and the conversion raises on none of its cells: every
    cell is an integer that fits 64 bits. *)
Definition period_values (df : DataFrame) : option (list Z) :=
  cells ← dict_get df (py "period");
  match astype_int cells with
  | Ok periods => Some periods
  | Raise _ => None
  end.

(** A period number that the parser can produce. *)
Definition valid_period (p : Z) : Prop := (1 <= p <= 7)%Z.

(** What ties the queues of the code to the words of the specification:
    the queue of a key holds the unused room lines of that key, oldest
    first. *)
Definition queues_agree (res : list entry) (st : pairing) : Prop :=
  ∀ k, k ≠ [] -> default [] (room_by_key st !! k) = keyed_with k (used_room st) res.

(** ** A browser that records the navigation it is asked for

    [logged page] behaves as [page] and appends every call of one of the
    three navigation strategies to a list kept beside the state. *)
Inductive call :=
  | PageTurning (target : Z)
  | SubmitForm (target : Z)
  | ClickNext.

Definition logged {W T} (page : Browser W T) : Browser (W * list call) T := {|
  inner_text := fun s => inner_text page s.1;
  call_page_turning := fun target s =>
    let '(b, w) := call_page_turning page target s.1 in
    (b, (w, s.2 ++ [PageTurning target]));
  wait_range_change := fun prev s =>
    let '(b, w) := wait_range_change page prev s.1 in (b, (w, s.2));
  submit_form := fun target s =>
    let '(b, w) := submit_form page target s.1 in
    (b, (w, s.2 ++ [SubmitForm target]));
  click_next := fun s =>
    let '(b, w) := click_next page s.1 in (b, (w, s.2 ++ [ClickNext]));
  diagnostics := fun i f s => (diagnostics page i f s.1, s.2);
  wait_for_table := fun s => (wait_for_table page s.1, s.2);
  find_table := fun s => find_table page s.1
|}.

(** A set [I] of browser states in which the pager is stuck on the range
    text [before]: no strategy and no wait leads out of [I], and in every
    state of [I] the range text reads [before] and the wait for it to change
    times out. *)
Definition stuck_on {W T} (page : Browser W T) (before : str) (I : W -> Prop)
    : Prop :=
  (forall w target, I w -> I (call_page_turning page target w).2)
  /\ (forall w target, I w -> I (submit_form page target w).2)
  /\ (forall w, I w -> I (click_next page w).2)
  /\ (forall w, I w -> I (wait_for_table page w))
  /\ (forall w, I w -> (wait_range_change page before w).1 = false
                       /\ I (wait_range_change page before w).2)
  /\ (forall w, I w -> _range_text page w = before).

(** The characters of the anchored room patterns: decimal digits, ASCII
    letters and the hyphen. *)
Definition room_char (c : char) : bool :=
  is_digit c || is_alpha c || (c =? ch "-").

(** ** Predicates of the idempotence proof of [norm_room] *)

(** A character that [_ZEN2HAN] leaves as it is. *)
Definition fixed_char (c : char) : Prop := table_get _ZEN2HAN c = c.

(** Texts of room characters that the translation table leaves alone. *)
Definition clean (s : str) : Prop :=
  Forall (fun c => room_char c = true) s /\ Forall fixed_char s.

(** Runs of digits, non-empty runs of digits, runs of ASCII letters. *)
Definition digits (s : str) : Prop := Forall (fun c => is_digit c = true) s.
Definition digits1 (s : str) : Prop := digits s /\ s <> [].
Definition alphas (s : str) : Prop := Forall (fun c => is_alpha c = true) s.

(** Texts of digits and hyphens. *)
Definition plain (s : str) : Prop :=
  Forall (fun c => is_digit c = true \/ c = 45) s.

(** The canonical identifiers: clean, not empty, without the placeholder
    token, and left as they are by the cascade. *)
Definition good (o : str) : Prop :=
  clean o /\ o <> [] /\ contains [84; 66; 68] (upper o) = false
  /\ room_cascade o = o.

(** What the Japanese PC-room pattern consumes up to the room letter:
    building [g1], floor digits [d2], the optional characters ([k], [r])
    and the letter [c]. *)
Definition pc_ja_prefix (g1 d2 : str) (k r : bool) (c : char) : str :=
  g1 ++ py "号館" ++ d2 ++ (if k then py "階" else []) ++ py "末端"
     ++ (if r then py "室" else []) ++ [c].

(** Characters the prelude of [norm_room] passes over at the head of the
    text: no blank, no colon, no opening parenthesis. *)
Definition inert (c : char) : Prop :=
  is_space c = false /\ is_colon c = false /\ c <> 65288 /\ c <> 40.

(** ** Term labels ([targets_from_term])

    [str.lower] on one code point.  Upper-case ASCII letters go to lower
    case; the two code points outside ASCII whose lower-case form holds an
    ASCII character are mapped as Python does; every other code point is
    left as it is, which the only use of the lowered text, the tests for
    ASCII words in it, cannot tell from the real table. *)
Definition lower_char (c : char) : str :=
  if (65 <=? c) && (c <=? 90) then [c + 32]
  else if c =? 304 then [105; 775]
  else if c =? 8490 then [107]
  else [c].

Definition lower (s : str) : str := List.concat (List.map lower_char s).

Definition targets_from_term (term : str) : list str :=
  let t := norm_text term in
  if contains (py "秋学期") t then [py "fall"; py "winter"]
  else if contains (py "秋クォーター") t then [py "fall"]
  else if contains (py "冬クォーター") t then [py "winter"]
  else
    let tl := lower t in
    if contains (py "fall semester") tl
       || (contains (py "fall") tl && contains (py "semester") tl)
    then [py "fall"; py "winter"]
    else if contains (py "fall quarter") tl then [py "fall"]
    else if contains (py "winter quarter") tl then [py "winter"]
    else [].

(** ** Vocabulary for the pairs of [pair_day_and_room]

    The pair made of day entry [ij.1] and room entry [ij.2]. *)
Definition pick (des res : list entry) (ij : nat * nat) : str * str :=
  ((des !!! ij.1).2, (res !!! ij.2).2).

(** [[i for i in range(n) if i not in used]] *)
Definition idx_unused (n : nat) (used : gset nat) : list nat :=
  List.filter (fun i => bool_decide (i ∉ used)) (seq 0 n).

(** What the keyed phase has done when it started from the used sets [ud]
    and [ur] and ended with the pairs [ps] and the used sets [ud'] and
    [ur']: the index pairs [l] it has made. *)
Definition phase_matching (des res : list entry) (idxs : list nat)
    (ud ur : gset nat) (ps : list (str * str)) (ud' ur' : gset nat)
    (l : list (nat * nat)) : Prop :=
  ps = pick des res <$> l
  /\ ud' = list_to_set (l.*1) ∪ ud /\ ur' = list_to_set (l.*2) ∪ ur
  /\ NoDup (l.*1) /\ NoDup (l.*2)
  /\ (forall i, i ∈ (l.*1) -> i ∈ idxs)
  /\ (forall j, j ∈ (l.*2) -> (j ∉ ur) /\ (j < length res)%nat).

(** The day names of the two day dictionaries. *)
Definition DAY_NAMES : list str :=
  [py "mon"; py "tue"; py "wed"; py "thu"; py "fri"; py "sat"; py "sun"].

(** ** Frames as [load_week_csvs] makes them

    A frame is well formed when it has a period column, every cell of that
    column reads as an integer that fits 64 bits, and every column has as
    many cells as the period column. *)
Definition well_formed (df : DataFrame) : Prop :=
  exists periods, period_values df = Some periods
    /\ Forall (fun c : str * list str => length c.2 = length periods) df.

(** The labels of a frame and the number of cells under each. *)
Definition shape (df : DataFrame) : list (str * nat) :=
  (fun c : str * list str => (c.1, length c.2)) <$> df.

(** A value that [put_cell] stores as one entry of a cell: not empty,
    without white space at either end and without semicolon. *)
Definition atomic (value : str) : Prop :=
  value <> [] /\ trimmed value = true /\ ch ";" ∉ value.

(** What [put_cell] has done when it returned the frame [df']: skipped an
    unknown room or period, found the value in the cell already, or written
    [new] at row [idx] of column [room]; [idx] is the first row of the
    period. *)
Inductive put_cell_outcome (df : DataFrame) (period : Z) (room value : str)
    (df' : DataFrame) : Prop :=
  | put_skip :
      room ∉ columns df
      \/ (exists periods, period_values df = Some periods /\ period ∉ periods) ->
      df' = df ->
      put_cell_outcome df period room value df'
  | put_present (periods : list Z) (idx : nat) (cell : str) :
      period_values df = Some periods ->
      periods !! idx = Some period ->
      (forall j, (j < idx)%nat -> periods !! j <> Some period) ->
      get_at df idx room = Some cell ->
      strip cell <> [] ->
      value ∈ cell_values (strip cell) ->
      df' = df ->
      put_cell_outcome df period room value df'
  | put_write (periods : list Z) (idx : nat) (cell new : str) :
      period_values df = Some periods ->
      periods !! idx = Some period ->
      (forall j, (j < idx)%nat -> periods !! j <> Some period) ->
      get_at df idx room = Some cell ->
      (strip cell = [] /\ new = value
       \/ strip cell <> [] /\ (value ∉ cell_values (strip cell))
          /\ new = strip cell ++ py ";" ++ value) ->
      df' = set_at df idx room new ->
      put_cell_outcome df period room value df'.

(** ** Decimal numerals

    [str(n)] for a natural number: its decimal digits, most significant
    first.  [fuel] bounds the number of digits. *)
Fixpoint dec_digits (fuel : nat) (n : N) : str :=
  match fuel with
  | O => []
  | S fuel' =>
    if n <? 10 then [48 + n]
    else dec_digits fuel' (n / 10) ++ [48 + n mod 10]
  end.

Definition dec (n : N) : str := dec_digits (S (N.to_nat n)) n.

(** The range indicator as the site prints it: [f"{a}～{b}／{t}"]. *)
Definition range_indicator (a b t : N) : str :=
  dec a ++ [ch "～"] ++ dec b ++ [ch "／"] ++ dec t.

(** ** Row scan (the loop over the rows of a page in [harvest_result_pages])

    An exception leaves the loops, so the steps are chained in the error
    monad of [result]. *)
#[global] Instance result_bind : MBind result := fun A B f r =>
  match r with
  | Ok a => f a
  | Raise e => Raise e
  end.

(** The texts read from the cells of one result row: [get_text] of the
    code, name and term cells, [split_td_lines] of the day and room
    cells. *)
Record row := {
  code_text : str;
  name_text : str;
  term_text : str;
  row_day_lines : list str;
  row_room_lines : list str
}.

(** What the loops change: the two dictionaries of tables, which are two
    objects with tables of their own, and the two counters. *)
Record store := {
  fall_tables : gmap str DataFrame;
  winter_tables : gmap str DataFrame;
  total_rows : nat;
  filled : nat
}.

Definition WEEKDAYS : list str :=
  [py "mon"; py "tue"; py "wed"; py "thu"; py "fri"].

(** [put_cell(tables[day], period, room, value)]; the table is changed in
    place, here the dictionary with the new table is returned. *)
Definition fill (tables : gmap str DataFrame) (day : str) (period : Z)
    (room value : str) : result (gmap str DataFrame) :=
  match tables !! day with
  | None => Raise KeyError
  | Some df => df' ← put_cell df period room value; Ok (<[day := df']> tables)
  end.

Definition fill_fall (day : str) (period : Z) (room value : str) (st : store)
    : result store :=
  tables ← fill (fall_tables st) day period room value;
  Ok {| fall_tables := tables; winter_tables := winter_tables st;
        total_rows := total_rows st; filled := S (filled st) |}.

Definition fill_winter (day : str) (period : Z) (room value : str) (st : store)
    : result store :=
  tables ← fill (winter_tables st) day period room value;
  Ok {| fall_tables := fall_tables st; winter_tables := tables;
        total_rows := total_rows st; filled := S (filled st) |}.

(** [for period in periods: ...] *)
Fixpoint scan_periods (targets : list str) (day room value : str)
    (periods : list Z) (st : store) : result store :=
  match periods with
  | [] => Ok st
  | period :: periods' =>
    if negb ((1 <=? period)%Z && (period <=? 6)%Z)
    then scan_periods targets day room value periods' st
    else
      st ← (if bool_decide (py "fall" ∈ targets)
            then fill_fall day period room value st else Ok st);
      st ← (if bool_decide (py "winter" ∈ targets)
            then fill_winter day period room value st else Ok st);
      scan_periods targets day room value periods' st
  end.

Section RowScan.

Variable is_word : char -> bool.
Variable room_set : gset str.

(** [for day_str, room_str in pairs: ...] *)
Fixpoint scan_pairs (targets : list str) (course_code course_name : str)
    (pairs : list (str * str)) (st : store) : result store :=
  match pairs with
  | [] => Ok st
  | (day_str, room_str) :: pairs' =>
    let dp := parse_day_periods is_word day_str in
    let room := norm_room room_str in
    match dp with
    | None => scan_pairs targets course_code course_name pairs' st
    | Some (day, periods) =>
      if str_eqb room [] then scan_pairs targets course_code course_name pairs' st
      else if negb (bool_decide (day ∈ WEEKDAYS))
      then scan_pairs targets course_code course_name pairs' st
      else if negb (bool_decide (room ∈ room_set))
      then scan_pairs targets course_code course_name pairs' st
      else
        let value := course_code ++ py ":" ++ course_name in
        st ← scan_periods targets day room value periods st;
        scan_pairs targets course_code course_name pairs' st
    end
  end.

(** The body of [for tr in rows[1:]] for a row with enough cells. *)
Definition scan_row (st : store) (r : row) : result store :=
  let course_code := norm_text (code_text r) in
  let course_name := norm_text (name_text r) in
  let term := norm_text (term_text r) in
  let targets := targets_from_term term in
  match targets with
  | [] => Ok st
  | _ =>
    let pairs := pair_day_and_room (row_day_lines r) (row_room_lines r) in
    st ← scan_pairs targets course_code course_name pairs st;
    Ok {| fall_tables := fall_tables st; winter_tables := winter_tables st;
          total_rows := S (total_rows st); filled := filled st |}
  end.

(** The rows of one page, in order. *)
Fixpoint scan_rows (rows : list row) (st : store) : result store :=
  match rows with
  | [] => Ok st
  | r :: rows' => st ← scan_row st r; scan_rows rows' st
  end.

End RowScan.

(** Tables as the harvest needs them: a well-formed table for every
    weekday. *)
Definition tables_ok (tables : gmap str DataFrame) : Prop :=
  forall day, day ∈ WEEKDAYS -> exists df, tables !! day = Some df /\ well_formed df.

Definition store_ok (st : store) : Prop :=
  tables_ok (fall_tables st) /\ tables_ok (winter_tables st).

(** A small store to run the scan on. *)
Definition week_of (df : DataFrame) : gmap str DataFrame :=
  list_to_map ((fun day => (day, df)) <$> WEEKDAYS).

Definition small_store : store :=
  {| fall_tables := week_of mon_csv; winter_tables := week_of mon_csv;
     total_rows := 0; filled := 0 |}.

Definition algebra_row : row :=
  {| code_text := py "A2"; name_text := py "Sets";
     term_text := py "秋学期";
     row_day_lines := [py "01:月1時限"; py "02:木２-３"];
     row_room_lines := [py "01:53-101"; py "02:６３-３F-G"] |}.

(** ** The calls of [put_cell] that the scan of a row makes

    Which calls are made does not depend on the tables: they are listed
    here in the order of the loops, and the scan is proved to run them. *)
Record fill_call := {
  to_fall : bool;
  call_day : str;
  call_period : Z;
  call_room : str
}.

Definition period_calls (targets : list str) (day room : str) (periods : list Z)
    : list fill_call :=
  flat_map (fun period =>
    if negb ((1 <=? period)%Z && (period <=? 6)%Z) then []
    else
      (if bool_decide (py "fall" ∈ targets)
       then [ {| to_fall := true; call_day := day; call_period := period;
                 call_room := room |} ] else [])
      ++ (if bool_decide (py "winter" ∈ targets)
          then [ {| to_fall := false; call_day := day; call_period := period;
                    call_room := room |} ] else [])) periods.

Definition pair_calls (is_word : char -> bool) (room_set : gset str)
    (targets : list str) (pairs : list (str * str)) : list fill_call :=
  flat_map (fun p : str * str =>
    match parse_day_periods is_word p.1 with
    | None => []
    | Some (day, periods) =>
      let room := norm_room p.2 in
      if str_eqb room [] then []
      else if negb (bool_decide (day ∈ WEEKDAYS)) then []
      else if negb (bool_decide (room ∈ room_set)) then []
      else period_calls targets day room periods
    end) pairs.

Definition run_call (value : str) (c : fill_call) (st : store) : result store :=
  if to_fall c then fill_fall (call_day c) (call_period c) (call_room c) value st
  else fill_winter (call_day c) (call_period c) (call_room c) value st.

Fixpoint run_calls (value : str) (cs : list fill_call) (st : store) : result store :=
  match cs with
  | [] => Ok st
  | c :: cs' => st ← run_call value c st; run_calls value cs' st
  end.

(** The table a call writes to. *)
Definition call_table (c : fill_call) (st : store) : option DataFrame :=
  (if to_fall c then fall_tables st else winter_tables st) !! call_day c.

(** A call that finds nothing to do: the room or the period is unknown to
    the table, or the cell lists the value already. *)
Definition listed (df : DataFrame) (period : Z) (room value : str) : Prop :=
  room ∉ columns df
  \/ exists periods, period_values df = Some periods
     /\ (period ∉ periods
         \/ exists idx cell,
              periods !! idx = Some period
              /\ (forall j, (j < idx)%nat -> periods !! j <> Some period)
              /\ get_at df idx room = Some cell
              /\ strip cell <> []
              /\ value ∈ cell_values (strip cell)).

(** The three-page site with one result row on every page. *)
Definition row_pages : Browser Z (list row) := {|
  inner_text := three_pages_text;
  call_page_turning := fun target _ => (true, target);
  wait_range_change := fun prev w =>
    (negb (str_eqb (default [] (three_pages_text w)) prev), w);
  submit_form := fun _ w => (false, w);
  click_next := fun w => (false, w);
  diagnostics := fun _ _ w => w;
  wait_for_table := fun w => w;
  find_table := fun _ => Some [algebra_row]
|}.

(** The cell at row [i] of column [room] of the table of [day]. *)
Definition cell_at (tables : gmap str DataFrame) (day : str) (i : nat)
    (room : str) : option str :=
  df ← tables !! day; get_at df i room.

(** A call that the store has nothing left to do for. *)
Definition call_listed (value : str) (st : store) (c : fill_call) : Prop :=
  exists df, call_table c st = Some df
             /\ listed df (call_period c) (call_room c) value.

(** An ASCII digit, [0-9]. *)
Definition ascii_digit (c : char) : bool := (48 <=? c) && (c <=? 57).

(** ** The steps of [norm_room] before the cascade *)

(** The text after the key prefix and the parentheses are removed. *)
Definition stripped (raw : str) : str :=
  drop_parens (strip_key_prefix (norm_text raw)).

(** The test for a room that is not determined. *)
Definition undetermined (s : str) : bool :=
  contains (py "未定") s || str_eqb s [] || contains (py "TBD") (upper s).

(** The text that the cascade receives: normalised once more, without the
    room words and without blanks. *)
Definition cleaned (s : str) : str :=
  replace (py " ") []
    (replace (py "ル-ム") []
       (replace (py "ルーム") []
          (replace (py "室") [] (replace (py "教室") [] (norm_text s))))).

(** The shapes of the rules of the cascade other than the fallback. *)
Definition shaped (s : str) : Prop :=
  s = py "61-102" \/ is_Some (m_pc_en s)
  \/ is_long s = true \/ is_pc s = true \/ is_basement s = true
  \/ is_Some (m_full s) \/ is_Some (m_base s)
  \/ is_Some (m_short3 s) \/ is_Some (m_short s).

(** The inputs that a rule other than the fallback resolves: the stripped
    text is undetermined, or it has the Japanese PC-room pattern, or
    nothing is left of it, or what is left has one of the shapes. *)
Definition resolved (x : str) : Prop :=
  let s := stripped x in
  undetermined s = true \/ is_Some (m_pc_ja s) \/ cleaned s = []
  \/ shaped (cleaned s).

(** The same, when the text that has one of the shapes does not end with
    white space (the patterns accept a final newline) and does not hold
    the placeholder TBD in any letter case. *)
Definition resolved_plainly (x : str) : Prop :=
  let s := stripped x in
  undetermined s = true \/ is_Some (m_pc_ja s) \/ cleaned s = []
  \/ (shaped (cleaned s) /\ trimmed (cleaned s) = true
      /\ contains (py "TBD") (upper (cleaned s)) = false).

(** A site on which nothing moves, with the range text [raw]: the pager
    function is there and is called, the form is submitted and the link is
    clicked, and the page stays as it is.  On such a page the predicate
    that the source hands to [wait_for_function],
    [(document.querySelector(...)?.textContent || '') !== prev], holds at
    once when [raw] is not [prev], and never otherwise. *)
Definition frozen_pager (raw : str) : Browser unit unit := {|
  inner_text := fun _ => Some raw;
  call_page_turning := fun _ w => (true, w);
  wait_range_change := fun prev w => (negb (str_eqb raw prev), w);
  submit_form := fun _ w => (true, w);
  click_next := fun w => (true, w);
  diagnostics := fun _ _ w => w;
  wait_for_table := fun w => w;
  find_table := fun _ => Some tt
|}.

(** * Properties *)

(** ** Worked examples of the source's docstrings and of the specification *)

Example py_ascii : py "52-201" = [53; 50; 45; 50; 48; 49].
Proof. reflexivity. Qed.

Example py_kanji : py "月５" = [26376; 65301].
Proof. reflexivity. Qed.

Example replace_ex : replace (py "室") [] (py "53-103教室") = py "53-103教".
Proof. reflexivity. Qed.

Example split_ex : split_on 59 (py "a;b;;c") = [py "a"; py "b"; []; py "c"].
Proof. reflexivity. Qed.

Example norm_room_pc_en : norm_room (py "63-3F-G") = py "63PC-G".
Proof. vm_compute. reflexivity. Qed.

Example norm_room_basement : norm_room (py "53-B04") = py "53-B04".
Proof. vm_compute. reflexivity. Qed.

Example norm_room_55S : norm_room (py "55S-03-09") = py "55S-03-09".
Proof. vm_compute. reflexivity. Qed.

Example norm_room_55_2 : norm_room (py "55-2") = py "55-02".
Proof. vm_compute. reflexivity. Qed.

Example norm_room_ja : norm_room (py "５３-１０３教室") = py "53-103".
Proof. vm_compute. reflexivity. Qed.

Example norm_room_pc_ja : norm_room (py "63号館3階末端室Fルーム") = py "63PC-F".
Proof. vm_compute. reflexivity. Qed.

Example norm_room_alias : norm_room (py "61-102") = py "61-102B".
Proof. vm_compute. reflexivity. Qed.

Example norm_room_empty : norm_room [] = [] /\ norm_room (py "未定") = [].
Proof. vm_compute. split; reflexivity. Qed.

Example norm_room_63 : norm_room (py "63-201") = py "63-02-01".
Proof. vm_compute. reflexivity. Qed.

Example norm_room_suffix : norm_room (py "55S-02-01-1") = py "55S-02-01".
Proof. vm_compute. reflexivity. Qed.

Example norm_room_52 : norm_room (py "52-201") = py "52-201".
Proof. vm_compute. reflexivity. Qed.

Example parse_ja : parse_day_periods is_word_ascii (py "月5時限") = Some (py "mon", [5%Z]).
Proof. vm_compute. reflexivity. Qed.

Example parse_en_range :
  parse_day_periods is_word_ascii (py "Mon.4-5") = Some (py "mon", [4%Z; 5%Z]).
Proof. vm_compute. reflexivity. Qed.

Example parse_none : parse_day_periods is_word_ascii (py "無その他") = None.
Proof. vm_compute. reflexivity. Qed.

Example parse_en_space :
  parse_day_periods is_word_ascii (py "Tues. 3, 5 3") = Some (py "tue", [3%Z; 5%Z]).
Proof. vm_compute. reflexivity. Qed.

Example parse_to :
  parse_day_periods is_word_ascii (py "Wed 5 to 3") = Some (py "wed", [3%Z; 4%Z; 5%Z]).
Proof. vm_compute. reflexivity. Qed.

Example pair_swapped :
  pair_day_and_room [py "01:月5時限"; py "02:火3時限"] [py "02:53-101"; py "01:53-102"]
  = [(py "月5時限", py "53-102"); (py "火3時限", py "53-101")].
Proof. vm_compute. reflexivity. Qed.

Example pair_mixed :
  pair_day_and_room [py "月1時限"; py "2:火2時限"; py "水3時限"]
                    [py "A"; py "B"; py "02:C"]
  = [(py "火2時限", py "C"); (py "月1時限", py "A"); (py "水3時限", py "B")].
Proof. vm_compute. reflexivity. Qed.

Example put_cell_empty :
  put_cell mon_csv 1 (py "53-101") (py "B2:Logic")
  = Ok [ (py "period", [py "1"; py "2"; py "3"]);
         (py "53-101", [py "B2:Logic"; py "A1:Algebra"; []]);
         (py "63PC-G", [[]; []; []]) ].
Proof. vm_compute. reflexivity. Qed.

Example put_cell_append :
  put_cell mon_csv 2 (py "53-101") (py "B2:Logic")
  = Ok [ (py "period", [py "1"; py "2"; py "3"]);
         (py "53-101", [[]; py "A1:Algebra;B2:Logic"; []]);
         (py "63PC-G", [[]; []; []]) ].
Proof. vm_compute. reflexivity. Qed.

Example put_cell_present :
  put_cell mon_csv 2 (py "53-101") (py "A1:Algebra") = Ok mon_csv.
Proof. vm_compute. reflexivity. Qed.

Example drop_parens_ex :
  drop_parens (py "（a(b)x）y(c)(d") = py "y(d".
Proof. vm_compute. reflexivity. Qed.

Example sub_to_ex : sub_to is_word_ascii false None (py "to 3to to.TO") = py "- 3to -.-".
Proof. vm_compute. reflexivity. Qed.

Example parse_range_indicator_ex :
  _parse_range_indicator (py "8201～8300／16687") = Some (8201, 8300, 16687)%Z.
Proof. vm_compute. reflexivity. Qed.

Example harvest_three_pages :
  harvest_result_pages three_pages count_page 5 0%nat 1%Z
  = Some (Ok {| reached_last_page := 3; harvested := 3%nat;
                answers := [true; true; false]; final := 3%Z |}).
Proof. vm_compute. reflexivity. Qed.

Example harvest_dead_pager :
  harvest_result_pages dead_pager count_page 5 0%nat tt
  = Some (Ok {| reached_last_page := 1; harvested := 1%nat;
                answers := [false]; final := tt |}).
Proof. vm_compute. reflexivity. Qed.

(** ** Literals

    [lits] computes the character and string literals of the goal. *)
Ltac lits :=
  repeat match goal with
  | |- context [ch ?s] =>
    let v := eval vm_compute in (ch s) in change (ch s) with v
  | |- context [py ?s] =>
    let v := eval vm_compute in (py s) in change (py s) with v
  | H : context [ch ?s] |- _ =>
    let v := eval vm_compute in (ch s) in change (ch s) with v in H
  | H : context [py ?s] |- _ =>
    let v := eval vm_compute in (py s) in change (py s) with v in H
  end.

(** ** Room canonicaliser on the three-digit short form *)

(** C1, as the specification states it, fails: the canonicaliser does not
    send the short form 52-201 to the long form 52-02-01. *)
Lemma norm_room_52_201_not_long : norm_room (py "52-201") <> py "52-02-01".
Proof. vm_compute. discriminate. Qed.

(** C2 at a failing input: for a building other than 63 the trailing letter
    of a three-digit short form is not dropped; it is kept, in upper case. *)
Theorem norm_room_keeps_letter :
  norm_room (py "53-104A") = py "53-104A"
  /\ norm_room (py "53-104a") = py "53-104A"
  /\ norm_room (py "53-104A") <> py "53-104".
Proof. repeat split; vm_compute; (reflexivity || discriminate). Qed.

(** ** Text normaliser *)

Lemma table_get_other t c :
  forallb (fun kv : char * char => negb (c =? kv.1)) t = true ->
  table_get t c = c.
Proof.
  induction t as [|[k v] t IH]; simpl; [done|].
  intros [Hk Ht]%andb_true_iff.
  destruct (c =? k); [done | auto].
Qed.

Lemma zen2han_keys_full_width :
  forallb (fun kv : char * char => negb (half_width kv.1)) _ZEN2HAN = true.
Proof. vm_compute. reflexivity. Qed.

Lemma table_get_half_width c :
  half_width c = true -> table_get _ZEN2HAN c = c.
Proof.
  intros Hc. apply table_get_other.
  pose proof zen2han_keys_full_width as HK.
  induction _ZEN2HAN as [|[k v] t IH]; simpl in *; [done|].
  apply andb_true_iff in HK as [Hk Ht].
  rewrite IH by done. rewrite andb_true_r.
  destruct (N.eqb_spec c k) as [->|]; [|done].
  rewrite Hc in Hk. done.
Qed.

Lemma translate_half_width s :
  Forall (fun c => half_width c = true) s -> translate _ZEN2HAN s = s.
Proof.
  unfold translate. induction 1 as [|c s Hc _ IH]; [done|].
  cbn [List.map]. by rewrite IH, table_get_half_width.
Qed.

Lemma lstrip_trimmed c s : is_space c = false -> lstrip (c :: s) = c :: s.
Proof. simpl. by intros ->. Qed.

Lemma last_rev_head (s : str) c d : List.last (c :: s) d = hd d (rev (c :: s)).
Proof.
  revert c. induction s as [|x s IH]; intros c; [done|].
  change (List.last (c :: x :: s) d) with (List.last (x :: s) d).
  rewrite IH. simpl. destruct (rev s ++ [x]) eqn:E; [|done].
  by destruct (rev s).
Qed.

Lemma strip_trimmed s : trimmed s = true -> strip s = s.
Proof.
  destruct s as [|c s]; [done|].
  unfold trimmed. intros [Hc Hl]%andb_true_iff.
  apply negb_true_iff in Hc, Hl.
  unfold strip, rstrip. rewrite lstrip_trimmed by done.
  rewrite last_rev_head in Hl.
  destruct (rev (c :: s)) as [|x r] eqn:E.
  - apply (f_equal (@length _)) in E. rewrite length_rev in E. done.
  - simpl in Hl. rewrite lstrip_trimmed by done.
    by rewrite <- E, rev_involutive.
Qed.

(** C9, as the specification states it, fails: a string of half-width
    characters that begins with a blank is not returned unchanged. *)
Lemma norm_text_not_identity :
  Forall (fun c => half_width c = true) (py " a") /\ norm_text (py " a") <> py " a".
Proof.
  split.
  - vm_compute. repeat constructor.
  - vm_compute. discriminate.
Qed.

(** C9, amended: on a string of half-width characters the normaliser only
    trims the surrounding white space, so it returns the string itself when
    the string neither begins nor ends with white space. *)
Theorem norm_text_half_width (s : str) :
  Forall (fun c => half_width c = true) s ->
  norm_text s = strip s /\ (trimmed s = true -> norm_text s = s).
Proof.
  intros Hs. unfold norm_text. rewrite translate_half_width by done.
  split; [done|]. apply strip_trimmed.
Qed.

Lemma norm_text_half_width_witness :
  Forall (fun c => half_width c = true) (py "53-101 A")
  /\ norm_text (py "53-101 A") = py "53-101 A".
Proof.
  assert (H : Forall (fun c => half_width c = true) (py "53-101 A"))
    by (vm_compute; repeat constructor).
  split; [exact H|].
  apply (norm_text_half_width (py "53-101 A") H). vm_compute. reflexivity.
Defined.

(** ** Schedule table *)




(** C5 at a failing input: a value that holds a semicolon is written, and
    the same call once more appends it again, so the cell after the second
    call is not the cell after the first. *)
Theorem put_cell_twice_semicolon :
  exists df1 df2,
    put_cell mon_csv 1 (py "53-101") (py "A2:Sets;Maps") = Ok df1
    /\ put_cell df1 1 (py "53-101") (py "A2:Sets;Maps") = Ok df2
    /\ get_at df1 0 (py "53-101") = Some (py "A2:Sets;Maps")
    /\ get_at df2 0 (py "53-101") = Some (py "A2:Sets;Maps;A2:Sets;Maps").
Proof.
  eexists _, _. repeat split; vm_compute; reflexivity.
Qed.

(** ** Day and period parser *)

Lemma int_of_digit_period c : is_period c = true -> valid_period (int_of_digit c).
Proof.
  unfold is_period, int_of_digit, valid_period. lits.
  intros [H1 H2]%andb_true_iff.
  apply N.leb_le in H1, H2. lia.
Qed.

Lemma range_at_periods s a b :
  range_at s = Some (a, b) -> is_period a = true /\ is_period b = true.
Proof.
  unfold range_at. intros H.
  destruct s as [|x r]; [done|].
  destruct (is_period x) eqn:Hx; [|done].
  destruct (lstrip r) as [|d r']; [done|].
  destruct (is_dash d); [|done].
  destruct (lstrip r') as [|y r'']; [done|].
  destruct (is_period y) eqn:Hy; [|done].
  by simplify_eq.
Qed.

Lemma search_range_periods s a b :
  search_range s = Some (a, b) -> is_period a = true /\ is_period b = true.
Proof.
  induction s as [|x r IH]; cbn [search_range].
  - done.
  - destruct (range_at (x :: r)) as [[a' b']|] eqn:E.
    + intros ?; simplify_eq. by eapply range_at_periods.
    + exact IH.
Qed.

Lemma findall_period_all is_word prev s :
  Forall (fun c => is_period c = true) (findall_period is_word prev s).
Proof.
  revert prev. induction s as [|c r IH]; intros prev; simpl; [constructor|].
  destruct (is_period c) eqn:Hc; simpl; [|apply IH].
  destruct (boundary is_word prev (Some c) && boundary is_word (Some c) (head r));
    [constructor; [done|]|]; apply IH.
Qed.

Lemma py_range_valid lo hi :
  valid_period lo -> valid_period hi -> (lo <= hi)%Z ->
  py_range lo (hi + 1) <> [] /\ Forall valid_period (py_range lo (hi + 1)).
Proof.
  unfold valid_period, py_range. intros Hlo Hhi Hle. split.
  - intros E. apply (f_equal (@length _)) in E.
    rewrite length_seqZ in E. simpl in E. lia.
  - apply Forall_forall. intros x Hx%elem_of_seqZ. lia.
Qed.

Lemma dedup_loop_grows nums seen periods :
  (length periods <= length (dedup_loop nums seen periods))%nat.
Proof.
  revert seen periods. induction nums as [|n nums IH]; intros seen periods; simpl.
  - done.
  - destruct (decide (n ∈ seen)); [apply IH|].
    etrans; [|apply IH]. rewrite length_app. simpl. lia.
Qed.

Lemma dedup_loop_Forall (P : Z -> Prop) nums seen periods :
  Forall P nums -> Forall P periods -> Forall P (dedup_loop nums seen periods).
Proof.
  intros Hn. revert seen periods.
  induction Hn as [|n nums Hp _ IH]; intros seen periods Hps; simpl; [done|].
  destruct (decide (n ∈ seen)); [by apply IH|].
  apply IH. apply Forall_app. split; [done | by constructor].
Qed.

Lemma dedup_loop_first n nums : dedup_loop (n :: nums) ∅ [] <> [].
Proof.
  simpl. destruct (decide (n ∈ (∅ : gset Z))) as [Hin|_]; [set_solver|].
  intros E. pose proof (dedup_loop_grows nums ({[n]} ∪ ∅) [n]) as Hl.
  rewrite E in Hl. simpl in Hl. lia.
Qed.

(** C10: whatever the input and the word-character table, a result of
    [parse_day_periods] other than [None] carries a period list that is not
    empty and whose elements all lie between 1 and 7. *)
Theorem parse_day_periods_periods (is_word : char -> bool) (item : str)
    (day : str) (periods : list Z) :
  parse_day_periods is_word item = Some (day, periods) ->
  periods <> [] /\ Forall (fun p => (1 <= p <= 7)%Z) periods.
Proof.
  unfold parse_day_periods.
  destruct (_ || _ || _); [done|].
  set (found := match search_ja _ with Some _ => _ | None => _ end).
  destruct found as [[d rest]|]; [|done]. simpl.
  set (rest' := sub_to is_word false None _).
  destruct (search_range rest') as [[a b]|] eqn:Hr.
  - apply search_range_periods in Hr as [Ha Hb].
    apply int_of_digit_period in Ha, Hb.
    destruct (Z.leb_spec (int_of_digit a) (int_of_digit b));
      intros ?; simplify_eq; apply py_range_valid; (done || lia).
  - pose proof (findall_period_all is_word None rest') as Hall.
    destruct (findall_period is_word None rest') as [|c cs]; [done|].
    cbn [List.map]. intros ?; simplify_eq. split.
    + apply dedup_loop_first.
    + apply dedup_loop_Forall; [|constructor].
      change (Forall valid_period (List.map int_of_digit (c :: cs))).
      apply Forall_fmap. eapply Forall_impl; [exact Hall|].
      intros x. apply int_of_digit_period.
Qed.

Lemma parse_day_periods_periods_witness :
  parse_day_periods is_word_ascii (py "Thu 2, 3 2") = Some (py "thu", [2; 3]%Z)
  /\ [2; 3]%Z <> [] /\ Forall (fun p => (1 <= p <= 7)%Z) [2; 3]%Z.
Proof.
  assert (H : parse_day_periods is_word_ascii (py "Thu 2, 3 2")
              = Some (py "thu", [2; 3]%Z)) by (vm_compute; reflexivity).
  split; [exact H|].
  exact (parse_day_periods_periods is_word_ascii _ _ _ H).
Defined.

(** The dictionary lookup of the English day never fails on what the day
    pattern matched. *)
Lemma first_alt_in_day_map is_word ws s g rest :
  Forall (fun w => is_Some (dict_get DAY_MAP_EN w)
                   /\ is_Some (dict_get DAY_MAP_EN (w ++ [ch "."]))) ws ->
  first_alt is_word ws s = Some (g, rest) -> is_Some (dict_get DAY_MAP_EN g).
Proof.
  induction 1 as [|w ws [Hw Hd] _ IH]; cbn [first_alt]; [done|].
  destruct (en_day_alt is_word w s) as [[g' rest']|] eqn:E; [|exact IH].
  intros ?; simplify_eq. unfold en_day_alt in E.
  destruct (lit w s) as [r|]; [|done]. simpl in E.
  destruct r as [|c r'].
  - destruct (boundary _ _ _); by simplify_eq.
  - destruct (N.eqb_spec c (ch ".")) as [->|]; simpl in E.
    + repeat (destruct (boundary _ _ _); simplify_eq; try done).
    + destruct (boundary _ _ _); by simplify_eq.
Qed.

Lemma search_en_in_day_map is_word prev s g rest :
  search_en is_word prev s = Some (g, rest) -> is_Some (dict_get DAY_MAP_EN g).
Proof.
  assert (HD : Forall (fun w => is_Some (dict_get DAY_MAP_EN w)
                   /\ is_Some (dict_get DAY_MAP_EN (w ++ [ch "."]))) EN_DAYS).
  { unfold EN_DAYS. repeat constructor; vm_compute; eauto. }
  revert prev. induction s as [|c r IH]; intros prev; cbn [search_en head].
  - destruct (boundary _ _ _); [|done].
    destruct (first_alt is_word EN_DAYS []) as [[g' r']|] eqn:E; [|done].
    intros ?; simplify_eq.
  - destruct (if boundary is_word prev (Some c)
              then first_alt is_word EN_DAYS (c :: r) else None)
      as [[g' r']|] eqn:E.
    + intros ?; simplify_eq. destruct (boundary _ _ _); [|done].
      eapply first_alt_in_day_map; eauto.
    + apply IH.
Qed.

(** ** Cell pairer: the queues of the code against the words of the
    specification *)

Lemma fst_enumerate {A} (l : list A) : List.map fst (enumerate l) = seq 0 (length l).
Proof.
  unfold enumerate. change (List.map fst ?x) with (fst <$> x).
  apply fst_zip. by rewrite length_seq.
Qed.

Lemma NoDup_fst_enumerate {A} (l : list A) : NoDup (List.map fst (enumerate l)).
Proof. rewrite fst_enumerate. apply NoDup_seq. Qed.

Lemma filter_pop (l : list (nat * entry)) k ur j q :
  NoDup (List.map fst l) ->
  List.map fst (List.filter (keyed_unused k ur) l) = j :: q ->
  List.map fst (List.filter (keyed_unused k ({[j]} ∪ ur)) l) = q.
Proof.
  induction l as [|[i e] l IH]; intros Hnd; cbn [List.filter List.map]; [done|].
  apply NoDup_cons in Hnd as [Hi Hnd]. simpl in Hi.
  destruct (keyed_unused k ur (i, e)) eqn:E1.
  - apply bool_decide_eq_true in E1 as [He Hu]. cbn [List.map fst snd] in *.
    intros [= -> <-].
    assert (keyed_unused k ({[j]} ∪ ur) (j, e) = false) as ->
      by (apply bool_decide_eq_false; set_solver).
    f_equal. apply List.filter_ext_in.
    intros [i' e'] Hin. unfold keyed_unused. cbn [fst snd].
    apply bool_decide_ext.
    assert (i' ≠ j); [|set_solver].
    intros ->. apply Hi. apply list_elem_of_In.
    apply (List.in_map fst) in Hin. done.
  - assert (keyed_unused k ({[j]} ∪ ur) (i, e) = false) as ->.
    { apply bool_decide_eq_false. apply bool_decide_eq_false in E1. set_solver. }
    auto.
Qed.

Lemma NoDup_fst_fun {A B} (l : list (A * B)) x y1 y2 :
  NoDup (List.map fst l) -> (x, y1) ∈ l -> (x, y2) ∈ l -> y1 = y2.
Proof.
  induction l as [|[a b] l IH]; intros Hnd H1 H2.
  - by apply elem_of_nil in H1.
  - apply NoDup_cons in Hnd as [Ha Hnd]. simpl in Ha.
    assert (Hfst : ∀ y, (a, y) ∈ l -> False).
    { intros y Hy. apply Ha. apply list_elem_of_In.
      apply list_elem_of_In, (List.in_map fst) in Hy. done. }
    apply elem_of_cons in H1 as [E1|H1], H2 as [E2|H2]; simplify_eq; try done.
    + by destruct (Hfst y2).
    + by destruct (Hfst y1).
    + by apply IH.
Qed.

Lemma filter_other (l : list (nat * entry)) k k' ur j q :
  NoDup (List.map fst l) -> k' ≠ k ->
  List.map fst (List.filter (keyed_unused k ur) l) = j :: q ->
  List.filter (keyed_unused k' ({[j]} ∪ ur)) l = List.filter (keyed_unused k' ur) l.
Proof.
  intros Hnd Hk Hj.
  assert (Hje : ∃ e, (j, e) ∈ l ∧ e.1 = Some k).
  { assert (Hin : In j (List.map fst (List.filter (keyed_unused k ur) l)))
      by (rewrite Hj; by left).
    apply List.in_map_iff in Hin as ([j' e] & Hfst & Hin). simpl in Hfst. subst j'.
    apply List.filter_In in Hin as [Hin Hp].
    exists e. split; [by apply list_elem_of_In|].
    unfold keyed_unused in Hp. apply bool_decide_eq_true in Hp. tauto. }
  destruct Hje as (e & Hin & He).
  apply List.filter_ext_in. intros [i' e'] Hin'.
  unfold keyed_unused. cbn [fst snd]. apply bool_decide_ext.
  destruct (decide (i' = j)) as [->|]; [|set_solver].
  assert (e' = e).
  { apply list_elem_of_In in Hin'. by eapply NoDup_fst_fun. }
  subst e'. split; intros [E _]; congruence.
Qed.

Lemma index_fold (l : list (nat * entry)) (m : gmap (list N) (list nat)) k :
  k ≠ [] ->
  default [] (foldl index_step m l !! k)
  = default [] (m !! k) ++ List.map fst (List.filter (keyed_unused k ∅) l).
Proof.
  intros Hk. revert m.
  induction l as [|[i [key v]] l IH]; intros m; cbn [foldl List.filter List.map].
  - by rewrite app_nil_r.
  - rewrite IH. unfold index_step, keyed_unused at 2. cbn [fst snd].
    destruct key as [[|c k0]|]; cbn [no_key].
    + rewrite bool_decide_eq_false_2; [done|]. intros [[= <-] _]. done.
    + destruct (decide (c :: k0 = k)) as [<-|Hne].
      * rewrite lookup_insert_eq. cbn [from_option id].
        rewrite bool_decide_eq_true_2 by set_solver.
        cbn [List.map fst]. by rewrite <- app_assoc.
      * rewrite lookup_insert_ne by done.
        rewrite bool_decide_eq_false_2; [done|]. intros [[= <-] _]. done.
    + rewrite bool_decide_eq_false_2; [done|]. by intros [? _].
Qed.

Lemma index_rooms_agree res :
  queues_agree res {| room_by_key := index_rooms res; used_day := ∅;
                      used_room := ∅; pairs := [] |}.
Proof.
  intros k Hk. cbn [room_by_key used_room]. unfold index_rooms.
  rewrite index_fold by done. by rewrite lookup_empty.
Qed.

Lemma pair_loop_sim res days : ∀ st ps ud ur,
  queues_agree res st ->
  key_phase res days (used_day st) (used_room st) = (ps, ud, ur) ->
  pairs (foldl (pair_step res) st days) = pairs st ++ ps
  /\ used_day (foldl (pair_step res) st days) = ud
  /\ used_room (foldl (pair_step res) st days) = ur.
Proof.
  induction days as [|[i [key dv]] days IH]; intros st ps ud ur Hq;
    cbn [foldl key_phase].
  - intros [= <- <- <-]. by rewrite app_nil_r.
  - destruct key as [[|c k]|]; cbn [pair_step no_key]; try by apply IH.
    pose proof (Hq (c :: k) ltac:(done)) as Hk.
    destruct (room_by_key st !! (c :: k)) as [[|j q]|] eqn:E;
      cbn [from_option id] in Hk; rewrite <- Hk; cbn [head]; try by apply IH.
    destruct (key_phase res days ({[i]} ∪ used_day st) ({[j]} ∪ used_room st))
      as [[ps' ud'] ur'] eqn:Ek.
    intros [= <- <- <-].
    set (st1 := {| room_by_key := <[c :: k := q]> (room_by_key st);
                   used_day := {[i]} ∪ used_day st;
                   used_room := {[j]} ∪ used_room st;
                   pairs := pairs st ++ [(dv, (res !!! j).2)] |}).
    destruct (IH st1 ps' ud' ur') as (Hp & Hd & Hr).
    + intros k' Hk'. cbn [st1 room_by_key used_room]. unfold keyed_with.
      destruct (decide (k' = c :: k)) as [->|Hne].
      * rewrite lookup_insert_eq. cbn [from_option id]. symmetry.
        apply filter_pop; [apply NoDup_fst_enumerate | by symmetry].
      * rewrite lookup_insert_ne by done. rewrite (Hq k' Hk'). unfold keyed_with.
        f_equal. symmetry.
        eapply filter_other; [apply NoDup_fst_enumerate | done | by symmetry].
    + exact Ek.
    + rewrite Hp. cbn [st1 pairs]. by rewrite <- app_assoc.
Qed.

Lemma pair_day_and_room_spec (day_lines room_lines : list str) :
  pair_day_and_room day_lines room_lines
  = pair_spec (keyed_lines day_lines) (keyed_lines room_lines).
Proof.
  unfold pair_day_and_room, pair_spec.
  set (res := keyed_lines room_lines). set (des := keyed_lines day_lines).
  destruct (key_phase res (enumerate des) ∅ ∅) as [[ps ud] ur] eqn:Ek.
  destruct (pair_loop_sim res (enumerate des) _ ps ud ur (index_rooms_agree res) Ek)
    as (Hp & Hd & Hr).
  by rewrite Hp, Hd, Hr.
Qed.

(** C7: [pair_day_and_room] is the two-phase pairing of the specification:
    first each keyed day line, in order, takes the oldest room line not used
    yet that carries the same zero-padded key, wherever it stands; then the
    lines left over on both sides are paired by position.  On the day lines
    01:月5時限, 02:火3時限 and the room lines 02:53-101, 01:53-102 it yields
    (月5時限, 53-102), (火3時限, 53-101); a key written 1: meets a key
    written 01:. *)
Theorem pair_day_and_room_by_key :
  (forall day_lines room_lines : list str,
     pair_day_and_room day_lines room_lines
     = pair_spec (keyed_lines day_lines) (keyed_lines room_lines))
  /\ pair_day_and_room [py "01:月5時限"; py "02:火3時限"]
                       [py "02:53-101"; py "01:53-102"]
     = [(py "月5時限", py "53-102"); (py "火3時限", py "53-101")]
  /\ pair_day_and_room [py "1:月5時限"; py "水2時限"]
                       [py "53-101"; py "01:53-102"]
     = [(py "月5時限", py "53-102"); (py "水2時限", py "53-101")].
Proof.
  split; [exact pair_day_and_room_spec|].
  split; vm_compute; reflexivity.
Qed.
(** ** Pagination controller *)



Lemma range_text_logged {W T} (page : Browser W T) (s : W * list call) :
  _range_text (logged page) s = _range_text page s.1.
Proof. reflexivity. Qed.

Section Stuck.

Context {W T A : Type} (page : Browser W T) (scan_rows : T -> A -> result A).

(** When every wait for the range text to change times out and the range
    text read again is the one read before, [go_to_next_page] answers
    [False], and the harvest loop, having scanned that page, returns with it
    as the last page: one more unit of fuel is all it needs. *)
Lemma go_to_next_page_timed_out (I : W -> Prop) (k : Z) (w : W) :
  stuck_on page (_range_text page w) I -> I w ->
  (go_to_next_page page k w).1 = false
  /\ (forall fuel acc log t acc1,
        find_table page w = Some t -> scan_rows t acc = Ok acc1 ->
        harvest_loop page scan_rows (S fuel) (k - 1) acc log w
        = Some (Ok {| reached_last_page := k; harvested := acc1;
                      answers := log ++ [false];
                      final := (go_to_next_page page k w).2 |})).
Proof.
  intros (Hcall & Hsub & Hclick & Htab & Hwait & Htext) HI.
  assert (Hgo : (go_to_next_page page k w).1 = false).
  { unfold go_to_next_page.
    destruct (match _parse_range_indicator _ with Some _ => _ | None => _ end);
      [done|].
    set (before := _range_text page w) in *.
    pose proof (Hcall w (k + 1)%Z HI) as HI1.
    destruct (call_page_turning page (k + 1) w) as [invoked w1]. simpl in HI1.
    assert (exists w2, I w2 /\
              (if invoked then wait_range_change page before w1 else (false, w1))
              = (false, w2)) as (w2 & HI2 & ->).
    { destruct invoked; [|by exists w1].
      destruct (Hwait w1 HI1) as [Hf Hi].
      destruct (wait_range_change page before w1) as [b w2]. simpl in *.
      subst b. by exists w2. }
    pose proof (Hsub w2 (k + 1)%Z HI2) as HI3.
    destruct (submit_form page (k + 1) w2) as [submitted w3]. simpl in HI3.
    assert (exists w4, I w4 /\
              (if submitted then wait_range_change page before w3 else (false, w3))
              = (false, w4)) as (w4 & HI4 & ->).
    { destruct submitted; [|by exists w3].
      destruct (Hwait w3 HI3) as [Hf Hi].
      destruct (wait_range_change page before w3) as [b w4]. simpl in *.
      subst b. by exists w4. }
    pose proof (Hclick w4 HI4) as HI5.
    destruct (click_next page w4) as [clicked w5]. simpl in HI5.
    destruct clicked; [|done]. cbn [negb].
    destruct (Hwait w5 HI5) as [Hf HI6].
    destruct (wait_range_change page before w5) as [b w6]. simpl in Hf, HI6.
    subst b.
    rewrite (Htext _ (Htab w6 HI6)).
    unfold str_eqb. by rewrite bool_decide_eq_true_2. }
  split; [exact Hgo|].
  intros fuel acc log t acc1 Ht Hscan. cbn [harvest_loop].
  replace (k - 1 + 1)%Z with k by lia. rewrite Ht, Hscan.
  destruct (go_to_next_page page k w) as [ok w']. simpl in Hgo. by subst ok.
Qed.

End Stuck.

Lemma go_to_next_page_timed_out_dead :
  (go_to_next_page dead_pager 1 tt).1 = false
  /\ harvest_loop dead_pager count_page 1 0 0%nat [] tt
      = Some (Ok {| reached_last_page := 1; harvested := 1%nat;
                    answers := [false]; final := tt |}).
Proof.
  assert (Hs : stuck_on dead_pager (_range_text dead_pager tt) (fun _ => True)).
  { repeat split. }
  destruct (go_to_next_page_timed_out dead_pager count_page (fun _ => True) 1 tt Hs I)
    as [Hgo Hh].
  split; [exact Hgo|].
  exact (Hh 0%nat 0%nat [] tt 1%nat eq_refl eq_refl).
Defined.

(** * Idempotence of the room canonicaliser *)

(** ** Room canonicaliser: character classes *)

Lemma digit_runs_low : Forall (fun a => a = 48 \/ 1632 <= a) digit_runs.
Proof.
  unfold digit_runs.
  repeat (apply Forall_cons; split; [lia|]). apply Forall_nil. done.
Qed.

Lemma is_digit_cases c :
  is_digit c = true -> (48 <= c <= 57) \/ 1632 <= c.
Proof.
  unfold is_digit. intros (a & Hin & Ha)%existsb_exists.
  apply list_elem_of_In in Hin.
  pose proof (proj1 (Forall_forall _ _) digit_runs_low a Hin) as Hlow.
  cbv beta in *. lia.
Qed.

Lemma is_alpha_cases c :
  is_alpha c = true -> (65 <= c <= 90) \/ (97 <= c <= 122).
Proof. unfold is_alpha. lia. Qed.

Lemma alpha_not_digit c : is_alpha c = true -> is_digit c = false.
Proof.
  intros Ha%is_alpha_cases. destruct (is_digit c) eqn:Hd; [|done].
  apply is_digit_cases in Hd. lia.
Qed.

Lemma digit_not_alpha c : is_digit c = true -> is_alpha c = false.
Proof.
  intros Hd. destruct (is_alpha c) eqn:Ha; [|done].
  apply alpha_not_digit in Ha. congruence.
Qed.

Lemma room_char_cases c :
  room_char c = true -> is_digit c = true \/ is_alpha c = true \/ c = 45.
Proof. unfold room_char. lits. lia. Qed.

Lemma digit_room_char c : is_digit c = true -> room_char c = true.
Proof. unfold room_char. by intros ->. Qed.

Lemma alpha_room_char c : is_alpha c = true -> room_char c = true.
Proof. unfold room_char. intros ->. by rewrite orb_true_r. Qed.

(** A character that is no room character differs from every room
    character; the side condition is computed. *)
Lemma room_char_neq k c : room_char k = false -> room_char c = true -> c <> k.
Proof. intros Hk Hc ->. congruence. Qed.

Lemma digit_neq k c : is_digit k = false -> is_digit c = true -> c <> k.
Proof. intros Hk Hc ->. congruence. Qed.

Lemma alpha_neq k c : is_alpha k = false -> is_alpha c = true -> c <> k.
Proof. intros Hk Hc ->. congruence. Qed.

Lemma space_not_room c : is_space c = true -> room_char c = false.
Proof.
  unfold is_space. intros H.
  assert (Hc : c ∈ [9; 10; 11; 12; 13; 28; 29; 30; 31; 32; 133; 160; 5760;
                     8192; 8193; 8194; 8195; 8196; 8197; 8198; 8199; 8200;
                     8201; 8202; 8232; 8233; 8239; 8287; 12288]).
  { apply list_elem_of_In. simpl. lia. }
  clear H. revert c Hc. apply Forall_forall.
  repeat (apply Forall_cons; split; [vm_compute; reflexivity|]).
  apply Forall_nil. done.
Qed.

Lemma room_not_space c : room_char c = true -> is_space c = false.
Proof.
  intros Hc. destruct (is_space c) eqn:Hs; [|done].
  apply space_not_room in Hs. congruence.
Qed.

(** ** Room canonicaliser: the pattern pieces *)

Lemma span_spec p s a r :
  span p s = (a, r) ->
  s = a ++ r /\ Forall (fun c => p c = true) a
  /\ match r with [] => True | c :: _ => p c = false end.
Proof.
  revert a r. induction s as [|c s IH]; intros a r; cbn [span].
  - intros [= <- <-]. by repeat split.
  - destruct (p c) eqn:Hc.
    + destruct (span p s) as [a' r'] eqn:E. intros [= <- <-].
      destruct (IH a' r' eq_refl) as (-> & Ha & Hr).
      repeat split; [by constructor | done].
    + intros [= <- <-]. by repeat split.
Qed.

Lemma span_app p a r :
  Forall (fun c => p c = true) a ->
  match r with [] => True | c :: _ => p c = false end ->
  span p (a ++ r) = (a, r).
Proof.
  intros Ha Hr. induction Ha as [|c a Hc _ IH]; cbn [app span].
  - destruct r as [|c r]; [done|]. cbn [span]. by rewrite Hr.
  - by rewrite Hc, IH.
Qed.

Lemma many1_spec p s a r :
  many1 p s = Some (a, r) ->
  s = a ++ r /\ Forall (fun c => p c = true) a /\ a <> []
  /\ match r with [] => True | c :: _ => p c = false end.
Proof.
  unfold many1. destruct (span p s) as [a' r'] eqn:E.
  apply span_spec in E as (-> & Ha & Hr).
  destruct a' as [|c a']; [done|]. intros [= <- <-]. by repeat split.
Qed.

Lemma many1_app p a r :
  Forall (fun c => p c = true) a -> a <> [] ->
  match r with [] => True | c :: _ => p c = false end ->
  many1 p (a ++ r) = Some (a, r).
Proof.
  intros Ha Hn Hr. unfold many1. rewrite span_app by done.
  by destruct a.
Qed.

Lemma lit_spec l s r : lit l s = Some r -> s = l ++ r.
Proof.
  revert s. induction l as [|a l IH]; intros s; cbn [lit].
  - by intros [= ->].
  - destruct s as [|b s]; [done|].
    destruct (N.eqb_spec a b) as [->|]; [|done].
    intros H%IH. by subst.
Qed.

Lemma lit_app l r : lit l (l ++ r) = Some r.
Proof. induction l as [|a l IH]; cbn [lit app]; [done|]. by rewrite N.eqb_refl. Qed.

Lemma exactly_spec n p s a r :
  exactly n p s = Some (a, r) ->
  s = a ++ r /\ Forall (fun c => p c = true) a /\ length a = n.
Proof.
  revert s a r. induction n as [|n IH]; intros s a r; cbn [exactly].
  - intros [= <- <-]. by repeat split.
  - destruct s as [|c s]; [done|].
    destruct (p c) eqn:Hc; [|done].
    destruct (exactly n p s) as [[a' r']|] eqn:E; [|done].
    cbn. intros [= <- <-].
    destruct (IH _ _ _ E) as (-> & Ha & Hl).
    repeat split; [by constructor | cbn; by rewrite Hl].
Qed.

Lemma exactly_app p a r :
  Forall (fun c => p c = true) a -> exactly (length a) p (a ++ r) = Some (a, r).
Proof.
  induction 1 as [|c a Hc _ IH]; cbn [length exactly app]; [done|].
  by rewrite Hc, IH.
Qed.

Lemma at_end_clean r :
  at_end r = true -> Forall (fun c => room_char c = true) r -> r = [].
Proof.
  destruct r as [|c [|d r]]; cbn [at_end]; [done| |done].
  intros ->%N.eqb_eq Hc. apply Forall_cons in Hc as [Hc _].
  by vm_compute in Hc.
Qed.

Lemma one_or_two_spec p s a r :
  one_or_two p s = Some (a, r) ->
  s = a ++ r /\ Forall (fun c => p c = true) a
  /\ (length a = 1%nat \/ length a = 2%nat)
  /\ (length a = 1%nat -> match r with [] => True | c :: _ => p c = false end).
Proof.
  unfold one_or_two, opt1. destruct s as [|c s]; [done|].
  destruct (p c) eqn:Hc; [|done].
  destruct s as [|d s].
  - intros [= <- <-]. repeat split; auto.
  - destruct (p d) eqn:Hd; intros [= <- <-]; repeat split; auto.
    cbn. lia.
Qed.

(** ** Room canonicaliser: the steps before the cascade leave a string of
    room characters as it is *)

Lemma clean_app a b : clean (a ++ b) <-> clean a /\ clean b.
Proof. unfold clean. rewrite !Forall_app. tauto. Qed.

Lemma clean_nil : clean [].
Proof. split; constructor. Qed.

Lemma clean_room s : clean s -> Forall (fun c => room_char c = true) s.
Proof. by intros [? _]. Qed.

Lemma room_absent k s :
  room_char k = false -> Forall (fun c => room_char c = true) s ->
  Forall (fun c => c <> k) s.
Proof.
  intros Hk Hs. eapply Forall_impl; [exact Hs|].
  intros c Hc. by apply room_char_neq.
Qed.

Lemma lstrip_room s : Forall (fun c => room_char c = true) s -> lstrip s = s.
Proof.
  destruct 1 as [|c s Hc _]; [done|].
  cbn [lstrip]. by rewrite room_not_space.
Qed.

Lemma Forall_last {A} (P : A -> Prop) (s : list A) d :
  Forall P s -> s <> [] -> P (List.last s d).
Proof.
  induction 1 as [|c s Hc Hs IH]; [done|]. intros _.
  destruct s as [|c' s]; [done|].
  change (P (List.last (c' :: s) d)). by apply IH.
Qed.

Lemma trimmed_room s : Forall (fun c => room_char c = true) s -> trimmed s = true.
Proof.
  intros Hs. destruct s as [|c s]; [done|]. unfold trimmed.
  rewrite (room_not_space c) by (by apply Forall_cons in Hs as [? _]).
  rewrite room_not_space; [done|].
  by apply (Forall_last (fun c => room_char c = true)).
Qed.

Lemma translate_fixed s : Forall fixed_char s -> translate _ZEN2HAN s = s.
Proof.
  unfold translate. induction 1 as [|c s Hc _ IH]; [done|].
  cbn [List.map]. by rewrite IH, Hc.
Qed.

Lemma norm_text_clean s : clean s -> norm_text s = s.
Proof.
  intros [Hr Hf]. unfold norm_text. rewrite translate_fixed by done.
  by apply strip_trimmed, trimmed_room.
Qed.

Lemma strip_key_prefix_room s :
  Forall (fun c => room_char c = true) s -> strip_key_prefix s = s.
Proof.
  intros Hs. unfold strip_key_prefix. rewrite lstrip_room by done.
  destruct (one_or_two is_digit s) as [[a r]|] eqn:E; [|done].
  apply one_or_two_spec in E as (-> & _ & _).
  apply Forall_app in Hs as [_ Hr]. rewrite lstrip_room by done.
  destruct Hr as [|c r Hc _]; [done|].
  assert (is_colon c = false) as ->; [|done].
  unfold is_colon. lits.
  apply (room_char_neq 58) in Hc as H1; [|by vm_compute].
  apply (room_char_neq 65306) in Hc as H2; [|by vm_compute]. lia.
Qed.

Lemma drop_parens_room s :
  Forall (fun c => room_char c = true) s -> drop_parens s = s.
Proof.
  unfold drop_parens. induction 1 as [|c s Hc _ IH]; [done|].
  cbn [drop_parens_from]. rewrite IH. lits.
  apply (room_char_neq 65288) in Hc as H1; [|by vm_compute].
  apply (room_char_neq 40) in Hc as H2; [|by vm_compute].
  rewrite (proj2 (N.eqb_neq _ _) H1), (proj2 (N.eqb_neq _ _) H2). done.
Qed.

Lemma contains_absent k sub s :
  Forall (fun c => c <> k) s -> contains (k :: sub) s = false.
Proof.
  induction 1 as [|c s Hc _ IH]; [done|].
  cbn [contains startswith]. rewrite IH.
  by rewrite (proj2 (N.eqb_neq _ _) (not_eq_sym Hc)).
Qed.

Lemma replace_absent k old new s :
  Forall (fun c => c <> k) s -> replace (k :: old) new s = s.
Proof.
  unfold replace. induction 1 as [|c s Hc _ IH]; [done|].
  cbn [replace_from startswith].
  rewrite (proj2 (N.eqb_neq _ _) (not_eq_sym Hc)). cbn [andb]. by rewrite IH.
Qed.

Lemma m_pc_ja_room s :
  Forall (fun c => room_char c = true) s -> m_pc_ja s = None.
Proof.
  intros Hs. unfold m_pc_ja.
  destruct (many1 is_digit s) as [[b r]|] eqn:E; [|done].
  apply many1_spec in E as (-> & _ & _ & _).
  apply Forall_app in Hs as [_ Hr]. cbn [mbind option_bind]. lits.
  destruct Hr as [|c r Hc _]; [done|]. cbn [lit].
  apply (room_char_neq 21495) in Hc; [|by vm_compute].
  by rewrite (proj2 (N.eqb_neq _ _) (not_eq_sym Hc)).
Qed.

Lemma norm_room_clean s :
  clean s ->
  norm_room s
  = if str_eqb s [] || contains (py "TBD") (upper s) then [] else room_cascade s.
Proof.
  intros Hc. pose proof (clean_room s Hc) as Hr. unfold norm_room.
  rewrite norm_text_clean, strip_key_prefix_room, drop_parens_room by done.
  lits.
  rewrite contains_absent by (apply room_absent; [by vm_compute | done]).
  cbn [orb].
  destruct (str_eqb s [] || contains _ (upper s)); [done|].
  rewrite m_pc_ja_room, norm_text_clean by done.
  do 5 (rewrite (replace_absent _ _ _ s)
          by (apply room_absent; [by vm_compute | done])).
  destruct (str_eqb s []) eqn:E; [|done].
  apply bool_decide_eq_true in E. subst. done.
Qed.

(** ** Room canonicaliser: what a match of each pattern says of the text *)

Ltac norm_app :=
  repeat first
    [ rewrite <- app_assoc | rewrite <- app_comm_cons | progress cbn [app] ].

Lemma at_end_suffix r s :
  at_end r = true -> r `suffix_of` s -> trimmed s = true -> r = [].
Proof.
  destruct r as [|c [|d r]]; cbn [at_end]; [done| |done].
  intros ->%N.eqb_eq [k ->] Ht. exfalso.
  unfold trimmed in Ht. destruct (k ++ [10]) as [|c0 s0] eqn:E.
  - by destruct k.
  - rewrite <- E, List.last_last in Ht.
    replace (is_space 10) with true in Ht by done.
    by rewrite andb_false_r in Ht.
Qed.

Ltac solve_suffix :=
  first [ reflexivity
        | apply suffix_app_r; solve_suffix
        | apply suffix_cons_r; solve_suffix ].

Ltac end_of Hs :=
  refine (at_end_suffix _ _ _ _ Hs); [eassumption | solve_suffix].

Lemma m_pc_en_spec s b l :
  trimmed s = true -> m_pc_en s = Some (b, l) ->
  exists f c, s = b ++ 45 :: f ++ 70 :: 45 :: [c]
              /\ digits1 b /\ digits1 f /\ l = [c] /\ is_alpha c = true.
Proof.
  intros Hs. unfold m_pc_en. lits.
  destruct (many1 is_digit s) as [[b' r1]|] eqn:E1; [|done].
  apply many1_spec in E1 as (-> & Hb & Hbn & _). cbn [mbind option_bind].
  destruct (lit [45] r1) as [r2|] eqn:E2; [|done].
  apply lit_spec in E2 as ->. cbn [mbind option_bind].
  destruct (many1 is_digit r2) as [[f r3]|] eqn:E3; [|done].
  apply many1_spec in E3 as (-> & Hf & Hfn & _). cbn [mbind option_bind].
  destruct (lit [70; 45] r3) as [r4|] eqn:E4; [|done].
  apply lit_spec in E4 as ->. cbn [mbind option_bind].
  destruct (exactly 1 is_alpha r4) as [[l' r5]|] eqn:E5; [|done].
  apply exactly_spec in E5 as (-> & Hl & Hll). cbn [mbind option_bind].
  destruct (at_end r5) eqn:E6; [|done]. intros [= <- <-].
  destruct l' as [|c [|? ?]]; try done.
  assert (r5 = []) as -> by end_of Hs.
  exists f, c. apply Forall_cons in Hl as [Hc _].
  repeat split; done.
Qed.

Lemma m_full_spec s b f m :
  trimmed s = true -> m_full s = Some (b, f, m) ->
  exists d l, b = d ++ l /\ s = d ++ l ++ 45 :: f ++ 45 :: m
              /\ digits1 d /\ alphas l /\ digits1 f /\ digits1 m.
Proof.
  intros Hs. unfold m_full. lits.
  destruct (many1 is_digit s) as [[d r1]|] eqn:E1; [|done].
  apply many1_spec in E1 as (-> & Hd & Hdn & _). cbn [mbind option_bind].
  destruct (span is_alpha r1) as [l r2] eqn:E2.
  apply span_spec in E2 as (-> & Hl & _).
  destruct (lit [45] r2) as [r3|] eqn:E3; [|done].
  apply lit_spec in E3 as ->. cbn [mbind option_bind].
  destruct (many1 is_digit r3) as [[f' r4]|] eqn:E4; [|done].
  apply many1_spec in E4 as (-> & Hf & Hfn & _). cbn [mbind option_bind].
  destruct (lit [45] r4) as [r5|] eqn:E5; [|done].
  apply lit_spec in E5 as ->. cbn [mbind option_bind].
  destruct (many1 is_digit r5) as [[m' r6]|] eqn:E6; [|done].
  apply many1_spec in E6 as (-> & Hm & Hmn & _). cbn [mbind option_bind].
  destruct (at_end r6) eqn:E7; [|done]. intros [= <- <- <-].
  assert (r6 = []) as -> by end_of Hs.
  exists d, l. rewrite app_nil_r. repeat split; done.
Qed.

Lemma long_form_spec s base r :
  long_form s = Some (base, r) ->
  exists d l f m, base = d ++ l ++ 45 :: f ++ 45 :: m /\ s = base ++ r
                  /\ digits1 d /\ alphas l
                  /\ digits f /\ length f = 2%nat
                  /\ digits m /\ length m = 2%nat.
Proof.
  unfold long_form. lits.
  destruct (many1 is_digit s) as [[d r1]|] eqn:E1; [|done].
  apply many1_spec in E1 as (-> & Hd & Hdn & _). cbn [mbind option_bind].
  destruct (span is_alpha r1) as [l r2] eqn:E2.
  apply span_spec in E2 as (-> & Hl & _).
  destruct (lit [45] r2) as [r3|] eqn:E3; [|done].
  apply lit_spec in E3 as ->. cbn [mbind option_bind].
  destruct (exactly 2 is_digit r3) as [[f r4]|] eqn:E4; [|done].
  apply exactly_spec in E4 as (-> & Hf & Hfl). cbn [mbind option_bind].
  destruct (lit [45] r4) as [r5|] eqn:E5; [|done].
  apply lit_spec in E5 as ->. cbn [mbind option_bind].
  destruct (exactly 2 is_digit r5) as [[m r6]|] eqn:E6; [|done].
  apply exactly_spec in E6 as (-> & Hm & Hml). cbn [mbind option_bind].
  intros [= <- <-]. exists d, l, f, m.
  repeat split; try done. by norm_app.
Qed.

Lemma m_base_spec s base :
  m_base s = Some base ->
  exists d l f m r, base = d ++ l ++ 45 :: f ++ 45 :: m /\ s = base ++ r
                    /\ digits1 d /\ alphas l
                    /\ digits f /\ length f = 2%nat
                    /\ digits m /\ length m = 2%nat.
Proof.
  unfold m_base.
  destruct (long_form s) as [[base' r]|] eqn:E; [|done].
  apply long_form_spec in E as (d & l & f & m & -> & -> & H).
  cbn [mbind option_bind]. intros Hb.
  assert (base = d ++ l ++ 45 :: f ++ 45 :: m) as ->.
  { repeat case_match; by simplify_eq. }
  exists d, l, f, m, r. tauto.
Qed.

Lemma m_short3_spec s b ddd sfx :
  trimmed s = true -> m_short3 s = Some (b, ddd, sfx) ->
  s = b ++ 45 :: ddd ++ match sfx with Some c => [c] | None => [] end
  /\ digits1 b /\ digits ddd /\ length ddd = 3%nat
  /\ match sfx with Some c => is_alpha c = true | None => True end.
Proof.
  intros Hs. unfold m_short3. lits.
  destruct (many1 is_digit s) as [[b' r1]|] eqn:E1; [|done].
  apply many1_spec in E1 as (-> & Hb & Hbn & _). cbn [mbind option_bind].
  destruct (lit [45] r1) as [r2|] eqn:E2; [|done].
  apply lit_spec in E2 as ->. cbn [mbind option_bind].
  destruct (exactly 3 is_digit r2) as [[d r3]|] eqn:E3; [|done].
  apply exactly_spec in E3 as (-> & Hd & Hdl). cbn [mbind option_bind].
  unfold opt1. destruct r3 as [|c r4].
  - cbn [at_end]. intros [= <- <- <-]. repeat split; done.
  - destruct (is_alpha c) eqn:Hc.
    + destruct (at_end r4) eqn:E4; [|done]. intros [= <- <- <-].
      assert (r4 = []) as -> by end_of Hs.
      repeat split; done.
    + destruct (at_end (c :: r4)) eqn:E4; [|done].
      assert (c :: r4 = []) by end_of Hs. done.
Qed.

Lemma m_short_spec s b n :
  trimmed s = true -> m_short s = Some (b, n) ->
  s = b ++ 45 :: n /\ digits1 b /\ digits n
  /\ (length n = 1%nat \/ length n = 2%nat).
Proof.
  intros Hs. unfold m_short. lits.
  destruct (many1 is_digit s) as [[b' r1]|] eqn:E1; [|done].
  apply many1_spec in E1 as (-> & Hb & Hbn & _). cbn [mbind option_bind].
  destruct (lit [45] r1) as [r2|] eqn:E2; [|done].
  apply lit_spec in E2 as ->. cbn [mbind option_bind].
  destruct (one_or_two is_digit r2) as [[n' r3]|] eqn:E3; [|done].
  apply one_or_two_spec in E3 as (-> & Hn & Hnl & _). cbn [mbind option_bind].
  destruct (at_end r3) eqn:E4; [|done]. intros [= <- <-].
  assert (r3 = []) as -> by end_of Hs.
  rewrite app_nil_r. repeat split; done.
Qed.

(** ** Room canonicaliser: the patterns on the texts the cascade returns *)

Lemma digits1_many1 b r :
  digits1 b -> match r with [] => True | c :: _ => is_digit c = false end ->
  many1 is_digit (b ++ r) = Some (b, r).
Proof. intros [Hb Hn] Hr. by apply many1_app. Qed.

Lemma alpha_not_hyphen c : is_alpha c = true -> (45 =? c) = false.
Proof. intros H%is_alpha_cases. lia. Qed.

Lemma digit_not_hyphen c : is_digit c = true -> (45 =? c) = false.
Proof. intros H%is_digit_cases. lia. Qed.

Lemma is_digit_48 : is_digit 48 = true.
Proof. by vm_compute. Qed.

(** The PC-room form [b ++ "PC-" ++ [C]] *)
Lemma m_pc_en_pc b C : digits1 b -> m_pc_en (b ++ 80 :: 67 :: 45 :: [C]) = None.
Proof.
  intros Hb. unfold m_pc_en. lits.
  rewrite digits1_many1 by (done || by vm_compute). done.
Qed.

Lemma is_pc_pc b C :
  digits1 b -> is_alpha C = true -> is_pc (b ++ 80 :: 67 :: 45 :: [C]) = true.
Proof.
  intros Hb HC. unfold is_pc. lits.
  rewrite digits1_many1 by (done || by vm_compute).
  cbn [mbind option_bind lit N.eqb Pos.eqb exactly]. by rewrite HC.
Qed.

(** The long form [d ++ l ++ "-" ++ f ++ "-" ++ m] *)
Lemma head_alphas_hyphen l r :
  alphas l ->
  match l ++ 45 :: r with [] => True | c :: _ => is_digit c = false end.
Proof.
  destruct 1 as [|c l Hc _]; cbn [app]; [by vm_compute|].
  by apply alpha_not_digit.
Qed.

Lemma m_pc_en_long d l f m :
  digits1 d -> alphas l -> digits1 f ->
  m_pc_en (d ++ l ++ 45 :: f ++ 45 :: m) = None.
Proof.
  intros Hd Hl Hf. unfold m_pc_en. lits.
  rewrite digits1_many1 by (done || by apply head_alphas_hyphen).
  cbn [mbind option_bind].
  destruct Hl as [|c l Hc _]; cbn [app lit].
  - rewrite N.eqb_refl. cbn [mbind option_bind].
    rewrite digits1_many1 by (done || by vm_compute). done.
  - by rewrite alpha_not_hyphen.
Qed.

Lemma m_full_long d l f m :
  digits1 d -> alphas l -> digits1 f -> digits1 m ->
  m_full (d ++ l ++ 45 :: f ++ 45 :: m) = Some (d ++ l, f, m).
Proof.
  intros Hd Hl Hf Hm. unfold m_full. lits.
  rewrite digits1_many1 by (done || by apply head_alphas_hyphen).
  cbn [mbind option_bind].
  rewrite span_app by (done || by vm_compute).
  cbn [lit]. rewrite N.eqb_refl. cbn [mbind option_bind].
  rewrite digits1_many1 by (done || by vm_compute).
  cbn [mbind option_bind lit]. rewrite N.eqb_refl. cbn [mbind option_bind].
  rewrite <- (app_nil_r m) at 1.
  rewrite digits1_many1 by done. done.
Qed.

(** The three-digit short form with a letter, [b ++ "-" ++ ddd ++ [C]] *)
Lemma digits3 ddd :
  digits ddd -> length ddd = 3%nat ->
  exists x y z, ddd = [x; y; z] /\ is_digit x = true /\ is_digit y = true
                /\ is_digit z = true.
Proof.
  intros Hd Hl. destruct ddd as [|x [|y [|z [|? ?]]]]; try done.
  exists x, y, z. unfold digits in Hd. rewrite !Forall_cons in Hd. tauto.
Qed.

Lemma m_pc_en_short3 b ddd C :
  digits1 b -> digits ddd -> length ddd = 3%nat -> is_alpha C = true ->
  m_pc_en (b ++ 45 :: ddd ++ [C]) = None.
Proof.
  intros Hb Hd Hl HC. unfold m_pc_en. lits.
  rewrite digits1_many1 by (done || by vm_compute).
  cbn [mbind option_bind lit]. rewrite N.eqb_refl. cbn [mbind option_bind].
  rewrite many1_app; [|done|by destruct ddd|by apply alpha_not_digit].
  cbn [mbind option_bind lit]. by destruct (70 =? C).
Qed.

Lemma m_full_short3 b ddd C :
  digits1 b -> digits ddd -> length ddd = 3%nat -> is_alpha C = true ->
  m_full (b ++ 45 :: ddd ++ [C]) = None.
Proof.
  intros Hb Hd Hl HC. unfold m_full. lits.
  rewrite digits1_many1 by (done || by vm_compute).
  cbn [mbind option_bind span]. replace (is_alpha 45) with false by done.
  cbn [lit]. rewrite N.eqb_refl. cbn [mbind option_bind].
  rewrite many1_app; [|done|by destruct ddd|by apply alpha_not_digit].
  cbn [mbind option_bind lit]. by rewrite alpha_not_hyphen.
Qed.

Lemma long_form_short3 b ddd r :
  digits1 b -> digits ddd -> length ddd = 3%nat ->
  long_form (b ++ 45 :: ddd ++ r) = None.
Proof.
  intros Hb Hd Hl. unfold long_form. lits.
  destruct (digits3 ddd Hd Hl) as (x & y & z & -> & Hx & Hy & Hz).
  rewrite digits1_many1 by (done || by vm_compute).
  cbn [mbind option_bind span]. replace (is_alpha 45) with false by done.
  cbn [lit]. rewrite N.eqb_refl. cbn [mbind option_bind app exactly].
  rewrite Hx, Hy. cbn [mbind option_bind lit].
  by rewrite digit_not_hyphen.
Qed.

Lemma m_base_short3 b ddd r :
  digits1 b -> digits ddd -> length ddd = 3%nat ->
  m_base (b ++ 45 :: ddd ++ r) = None.
Proof. intros. unfold m_base. by rewrite long_form_short3. Qed.

Lemma m_short3_short3 b ddd C :
  digits1 b -> digits ddd -> length ddd = 3%nat -> is_alpha C = true ->
  m_short3 (b ++ 45 :: ddd ++ [C]) = Some (b, ddd, Some C).
Proof.
  intros Hb Hd Hl HC. unfold m_short3. lits.
  rewrite digits1_many1 by (done || by vm_compute).
  cbn [mbind option_bind lit]. rewrite N.eqb_refl. cbn [mbind option_bind].
  rewrite <- Hl, exactly_app by done. cbn [mbind option_bind opt1].
  by rewrite HC.
Qed.

Lemma many1_all p a :
  Forall (fun c => p c = true) a -> a <> [] -> many1 p a = Some (a, []).
Proof.
  intros Ha Hn. rewrite <- (app_nil_r a) at 1. by apply many1_app.
Qed.

Lemma digits_48 c : is_digit c = true -> Forall (fun c => is_digit c = true) [48; c].
Proof.
  intros Hc. apply Forall_cons. split; [apply is_digit_48|].
  apply Forall_cons. split; [done|]. by apply Forall_nil.
Qed.

(** The two-part short form padded with a zero, [b ++ "-0" ++ [c]] *)
Lemma m_pc_en_short2 b c :
  digits1 b -> is_digit c = true -> m_pc_en (b ++ 45 :: [48; c]) = None.
Proof.
  intros Hb Hc. unfold m_pc_en. lits.
  rewrite digits1_many1 by (done || by vm_compute).
  cbn [mbind option_bind lit]. rewrite N.eqb_refl. cbn [mbind option_bind].
  by rewrite (many1_all is_digit [48; c]) by (done || by apply digits_48).
Qed.

Lemma m_full_short2 b c :
  digits1 b -> is_digit c = true -> m_full (b ++ 45 :: [48; c]) = None.
Proof.
  intros Hb Hc. unfold m_full. lits.
  rewrite digits1_many1 by (done || by vm_compute).
  cbn [mbind option_bind span]. replace (is_alpha 45) with false by done.
  cbn [lit]. rewrite N.eqb_refl. cbn [mbind option_bind].
  by rewrite (many1_all is_digit [48; c]) by (done || by apply digits_48).
Qed.

Lemma m_base_short2 b c :
  digits1 b -> is_digit c = true -> m_base (b ++ 45 :: [48; c]) = None.
Proof.
  intros Hb Hc. unfold m_base, long_form. lits.
  rewrite digits1_many1 by (done || by vm_compute).
  cbn [mbind option_bind span]. replace (is_alpha 45) with false by done.
  cbn [lit]. rewrite N.eqb_refl. cbn [mbind option_bind exactly].
  rewrite is_digit_48, Hc. done.
Qed.

Lemma m_short3_short2 b c :
  digits1 b -> is_digit c = true -> m_short3 (b ++ 45 :: [48; c]) = None.
Proof.
  intros Hb Hc. unfold m_short3. lits.
  rewrite digits1_many1 by (done || by vm_compute).
  cbn [mbind option_bind lit]. rewrite N.eqb_refl. cbn [mbind option_bind exactly].
  rewrite is_digit_48, Hc. done.
Qed.

Lemma m_short_short2 b c :
  digits1 b -> is_digit c = true ->
  m_short (b ++ 45 :: [48; c]) = Some (b, [48; c]).
Proof.
  intros Hb Hc. unfold m_short. lits.
  rewrite digits1_many1 by (done || by vm_compute).
  cbn [mbind option_bind lit]. rewrite N.eqb_refl.
  cbn [mbind option_bind one_or_two opt1].
  rewrite is_digit_48, Hc. done.
Qed.

(** ** Room canonicaliser: the test for TBD *)

Lemma upper_app a b : upper (a ++ b) = upper a ++ upper b.
Proof. unfold upper. by rewrite List.map_app, List.concat_app. Qed.

Lemma upper_cons c s : upper (c :: s) = upper_char c ++ upper s.
Proof. done. Qed.

Lemma upper_char_digit c : is_digit c = true -> upper_char c = [c].
Proof.
  intros Hc. unfold upper_char.
  pose proof (is_digit_cases c Hc).
  pose proof (digit_neq 64261 c ltac:(by vm_compute) Hc).
  pose proof (digit_neq 64262 c ltac:(by vm_compute) Hc).
  pose proof (digit_neq 7831 c ltac:(by vm_compute) Hc).
  repeat case_match; (done || lia).
Qed.

Lemma upper_char_alpha c :
  is_alpha c = true ->
  exists C, upper_char c = [C] /\ is_alpha C = true /\ upper_char C = [C]
            /\ C < 128.
Proof.
  intros Hc%is_alpha_cases. unfold upper_char.
  destruct ((97 <=? c) && (c <=? 122)) eqn:E.
  - exists (c - 32). unfold is_alpha.
    repeat split; [lia| |lia]. repeat case_match; (done || lia).
  - exists c. unfold is_alpha.
    repeat split; try lia; repeat case_match; (done || lia).
Qed.

Lemma upper_plain s : plain s -> upper s = s.
Proof.
  induction 1 as [|c s Hc _ IH]; [done|].
  rewrite upper_cons, IH. destruct Hc as [Hc| ->]; [|done].
  by rewrite upper_char_digit.
Qed.

Lemma digits_plain s : digits s -> plain s.
Proof. intros Hs. eapply Forall_impl; [exact Hs|]. by left. Qed.

Lemma plain_app a b : plain a -> plain b -> plain (a ++ b).
Proof. intros. by apply Forall_app. Qed.

Lemma plain_cons_hyphen s : plain s -> plain (45 :: s).
Proof. intros. apply Forall_cons. split; [by right | done]. Qed.

Lemma plain_absent k s :
  is_digit k = false -> k <> 45 -> plain s -> Forall (fun c => c <> k) s.
Proof.
  intros Hk Hh Hs. eapply Forall_impl; [exact Hs|].
  intros c [Hc| ->]; [by apply digit_neq | done].
Qed.

Lemma contains_skip k sub a r :
  Forall (fun c => c <> k) a ->
  contains (k :: sub) (a ++ r) = contains (k :: sub) r.
Proof.
  induction 1 as [|c a Hc _ IH]; [done|].
  cbn [app contains startswith]. rewrite IH.
  by rewrite (proj2 (N.eqb_neq _ _) (not_eq_sym Hc)).
Qed.

Lemma startswith_app_avoid sub a r :
  sub <> [] -> Forall (fun c => c ∉ sub) r ->
  startswith sub (a ++ r) = startswith sub a.
Proof.
  revert a. induction sub as [|x sub IH]; intros a Hn Hr; [done|].
  destruct a as [|c a]; cbn [app startswith].
  - destruct Hr as [|y r Hy _]; [done|].
    apply not_elem_of_cons in Hy as [Hy _].
    by rewrite (proj2 (N.eqb_neq _ _) (not_eq_sym Hy)).
  - destruct sub as [|x' sub]; [done|].
    rewrite IH; [done|done|].
    eapply Forall_impl; [exact Hr|]. intros y Hy.
    by apply not_elem_of_cons in Hy as [_ ?].
Qed.

Lemma contains_app_avoid sub a r :
  sub <> [] -> Forall (fun c => c ∉ sub) r ->
  contains sub (a ++ r) = contains sub a.
Proof.
  intros Hn Hr. induction a as [|c a IH].
  - destruct sub as [|x sub]; [done|]. cbn [app].
    rewrite contains_absent; [done|].
    eapply Forall_impl; [exact Hr|]. intros y Hy.
    by apply not_elem_of_cons in Hy as [? _].
  - change ((c :: a) ++ r) with (c :: (a ++ r)).
    cbn [contains]. rewrite IH.
    change (c :: (a ++ r)) with ((c :: a) ++ r).
    by rewrite startswith_app_avoid.
Qed.

Lemma contains_app_l sub a r :
  contains sub (a ++ r) = false -> contains sub a = false.
Proof.
  assert (Hs : forall a, startswith sub a = true -> startswith sub (a ++ r) = true).
  { induction sub as [|x sub IH]; intros [|c a']; cbn [app startswith]; try done.
    intros [-> ?]%andb_true_iff. by rewrite IH. }
  induction a as [|c a IH]; cbn [app contains].
  - intros H. destruct sub as [|x sub]; [|done].
    by destruct r.
  - intros [H1 H2]%orb_false_iff. rewrite IH by done.
    destruct (startswith sub (c :: a)) eqn:E; [|done].
    apply (Hs (c :: a)) in E. cbn [app] in E. congruence.
Qed.

Lemma plain_avoid_tbd t : plain t -> Forall (fun c => c ∉ [84; 66; 68]) t.
Proof.
  intros Ht. eapply Forall_impl; [exact Ht|]. intros c Hc Hin.
  assert (c = 84 \/ c = 66 \/ c = 68) as Hv by set_solver.
  destruct Hc as [Hc| ->]; [|lia].
  apply is_digit_cases in Hc. lia.
Qed.

Lemma tbd_plain s : plain s -> contains [84; 66; 68] (upper s) = false.
Proof.
  intros Hs. rewrite upper_plain by done.
  apply contains_absent. apply plain_absent; [by vm_compute | done | done].
Qed.

Lemma tbd_shape d l t :
  digits d -> plain t ->
  contains [84; 66; 68] (upper (d ++ l ++ 45 :: t))
  = contains [84; 66; 68] (upper l).
Proof.
  intros Hd Ht.
  rewrite !upper_app, (upper_plain d), (upper_plain (45 :: t))
    by first [by apply plain_cons_hyphen | by apply digits_plain].
  rewrite contains_skip
    by (apply plain_absent; [by vm_compute | done | by apply digits_plain]).
  apply contains_app_avoid; [done|].
  by apply plain_avoid_tbd, plain_cons_hyphen.
Qed.

(** ** Room canonicaliser: the texts the cascade returns are its fixed
    points *)

Lemma not_alias {A} (M : str -> A) o :
  M o <> M (py "61-102") -> str_eqb o (py "61-102") = false.
Proof. intros H. apply bool_decide_eq_false. by intros ->. Qed.

Lemma clean_ascii c : c < 128 -> room_char c = true -> clean [c].
Proof.
  intros Hc Hr. split; apply Forall_cons; split; try done; try by apply Forall_nil.
  apply table_get_half_width. unfold half_width. lia.
Qed.

Lemma clean_hyphen s : clean s -> clean (45 :: s).
Proof.
  intros Hs. change (clean ([45] ++ s)). apply clean_app. split; [|done].
  by apply clean_ascii.
Qed.

Lemma zfill2_long f : (2 <= length f)%nat -> zfill2 f = f.
Proof. destruct f as [|? [|? ?]]; cbn; (done || lia). Qed.

Lemma zfill2_digits f :
  digits1 f -> digits (zfill2 f) /\ (2 <= length (zfill2 f))%nat.
Proof.
  intros [Hf Hn]. destruct f as [|x [|y f]]; [done| |].
  - cbn. split; [|lia]. apply digits_48. by apply Forall_cons in Hf as [? _].
  - cbn. split; [done|lia].
Qed.

Lemma zfill2_clean f : clean f -> f <> [] -> clean (zfill2 f).
Proof.
  intros Hf Hn. destruct f as [|x [|y f]]; [done| |done].
  change (clean ([48] ++ [x])). apply clean_app. split; [|done].
  apply clean_ascii; [lia | by vm_compute].
Qed.

Lemma good_alias : good (py "61-102B").
Proof.
  assert (Hc : clean (py "61-102B")).
  { change (py "61-102B") with ([54] ++ [49] ++ [45] ++ [49] ++ [48] ++ [50] ++ [66]).
    rewrite !clean_app.
    repeat split; (apply clean_ascii; [lia | by vm_compute]). }
  repeat split; try apply Hc; by vm_compute.
Qed.

Lemma Forall_one {A} (P : A -> Prop) c : P c -> Forall P [c].
Proof. intros. apply Forall_cons. split; [done | by apply Forall_nil]. Qed.

Lemma fixed_ascii c : c < 128 -> fixed_char c.
Proof. intros. apply table_get_half_width. unfold half_width. lia. Qed.

Lemma good_pc b C :
  digits1 b -> clean b -> is_alpha C = true -> upper_char C = [C] -> C < 128 ->
  good (b ++ 80 :: 67 :: 45 :: [C]).
Proof.
  intros Hb Hcb HC HU H128.
  assert (Hc : clean (b ++ [80] ++ [67] ++ [45] ++ [C])).
  { rewrite !clean_app. repeat split; try apply Hcb;
      apply Forall_one;
      first [by apply alpha_room_char | by apply fixed_ascii
            | vm_compute; reflexivity]. }
  split; [exact Hc|]. split; [destruct Hb as [_ Hn]; by destruct b|]. split.
  - rewrite upper_app, (upper_plain b) by (by apply digits_plain; apply Hb).
    rewrite contains_skip
      by (apply plain_absent; [by vm_compute | done | apply digits_plain, Hb]).
    rewrite !upper_cons, HU.
    change (upper_char 80) with [80]. change (upper_char 67) with [67].
    change (upper_char 45) with [45]. cbn.
    by rewrite andb_false_r.
  - unfold room_cascade. lits.
    rewrite (not_alias is_pc) by (rewrite is_pc_pc by done; by vm_compute).
    rewrite m_pc_en_pc by done.
    destruct (is_long _); [done|]. by rewrite is_pc_pc.
Qed.

Lemma good_long d l f m :
  digits1 d -> alphas l -> digits f -> (2 <= length f)%nat ->
  digits m -> (2 <= length m)%nat ->
  clean d -> clean l -> clean f -> clean m ->
  contains [84; 66; 68] (upper l) = false ->
  good (d ++ l ++ 45 :: f ++ 45 :: m).
Proof.
  intros Hd Hl Hf Hf2 Hm Hm2 Hcd Hcl Hcf Hcm Ht.
  assert (Hf1 : digits1 f) by (split; [done | intros ->; cbn in *; lia]).
  assert (Hm1 : digits1 m) by (split; [done | intros ->; cbn in *; lia]).
  split; [|split; [|split]].
  - apply clean_app; split; [done|]. apply clean_app; split; [done|].
    apply clean_hyphen, clean_app; split; [done|]. by apply clean_hyphen.
  - destruct Hd as [_ Hn]. by destruct d.
  - rewrite tbd_shape; [done | apply Hd |].
    apply plain_app; [by apply digits_plain|].
    by apply plain_cons_hyphen, digits_plain.
  - unfold room_cascade. lits.
    rewrite (not_alias m_full) by (rewrite m_full_long by done; by vm_compute).
    rewrite m_pc_en_long by done.
    destruct (is_long _); [done|]. destruct (is_pc _); [done|].
    destruct (is_basement _); [done|].
    rewrite m_full_long by done.
    rewrite !zfill2_long by done. by norm_app.
Qed.

Lemma good_short3 b ddd C :
  digits1 b -> clean b -> digits ddd -> length ddd = 3%nat -> clean ddd ->
  is_alpha C = true -> upper_char C = [C] -> C < 128 ->
  b <> py "63" ->
  good (b ++ 45 :: ddd ++ [C]).
Proof.
  intros Hb Hcb Hd Hl Hcd HC HU H128 H63.
  assert (HcC : clean [C]) by (by apply clean_ascii, alpha_room_char).
  split; [|split; [|split]].
  - apply clean_app. split; [done|]. apply clean_hyphen, clean_app. done.
  - destruct Hb as [_ Hn]. by destruct b.
  - replace (b ++ 45 :: ddd ++ [C]) with ((b ++ 45 :: ddd) ++ [C]) by (by norm_app).
    assert (Hp : plain (b ++ 45 :: ddd)).
    { apply plain_app; [apply digits_plain, Hb|].
      by apply plain_cons_hyphen, digits_plain. }
    rewrite upper_app, (upper_plain _ Hp).
    rewrite contains_skip by (apply plain_absent; [by vm_compute | done | done]).
    rewrite upper_cons, HU. cbn. by rewrite andb_false_r.
  - unfold room_cascade. lits.
    rewrite (not_alias m_short3)
      by (rewrite m_short3_short3 by done; by vm_compute).
    rewrite m_pc_en_short3 by done.
    destruct (is_long _); [done|]. destruct (is_pc _); [done|].
    destruct (is_basement _); [done|].
    rewrite m_full_short3, m_base_short3, m_short3_short3 by done.
    assert (str_eqb b [54; 51] = false) as ->
      by (by apply bool_decide_eq_false).
    rewrite upper_cons, HU. by norm_app.
Qed.

Lemma good_short2 b c :
  digits1 b -> clean b -> is_digit c = true -> clean [c] ->
  good (b ++ 45 :: [48; c]).
Proof.
  intros Hb Hcb Hc Hcc.
  split; [|split; [|split]].
  - apply clean_app. split; [done|]. apply clean_hyphen.
    change (clean ([48] ++ [c])). apply clean_app. split.
    + apply clean_ascii; [lia | by vm_compute].
    + done.
  - destruct Hb as [_ Hn]. by destruct b.
  - apply tbd_plain. apply plain_app; [apply digits_plain, Hb|].
    apply plain_cons_hyphen, digits_plain. by apply digits_48.
  - unfold room_cascade. lits.
    rewrite (not_alias m_short)
      by (rewrite m_short_short2 by done; by vm_compute).
    rewrite m_pc_en_short2 by done.
    destruct (is_long _); [done|]. destruct (is_pc _); [done|].
    destruct (is_basement _); [done|].
    rewrite m_full_short2, m_base_short2, m_short3_short2, m_short_short2 by done.
    done.
Qed.

Lemma clean_hyphen_iff s : clean (45 :: s) <-> clean s.
Proof.
  split; [|apply clean_hyphen].
  change (45 :: s) with ([45] ++ s). rewrite clean_app. tauto.
Qed.

Lemma digits_room s : digits s -> Forall (fun c => room_char c = true) s.
Proof. intros Hs. eapply Forall_impl; [exact Hs|]. apply digit_room_char. Qed.

Lemma cascade_cases s :
  clean s -> s <> [] -> contains [84; 66; 68] (upper s) = false ->
  room_cascade s = s \/ good (room_cascade s).
Proof.
  intros Hc Hn Ht. pose proof (clean_room s Hc) as Hr.
  unfold room_cascade.
  destruct (str_eqb s (py "61-102")); [right; apply good_alias|].
  destruct (m_pc_en s) as [[b l]|] eqn:E1.
  { right. apply m_pc_en_spec in E1 as (f & c & -> & Hb & Hf & -> & Hal); [|by apply trimmed_room].
    destruct (upper_char_alpha c Hal) as (C & HU & HC & HUC & H128).
    lits. rewrite upper_cons, HU. cbn [app upper List.map List.concat].
    apply good_pc; try done.
    by apply clean_app in Hc as [? _]. }
  destruct (is_long s); [by left|].
  destruct (is_pc s); [by left|].
  destruct (is_basement s); [by left|].
  destruct (m_full s) as [[[b f] m]|] eqn:E2.
  { right. apply m_full_spec in E2 as (d & l & -> & -> & Hd & Hl & Hf & Hm); [|by apply trimmed_room].
    rewrite tbd_shape in Ht;
      [|apply Hd|apply plain_app; [apply digits_plain, Hf|];
                  apply plain_cons_hyphen, digits_plain, Hm].
    rewrite !clean_app, clean_hyphen_iff, clean_app, clean_hyphen_iff in Hc.
    destruct Hc as (Hcd & Hcl & Hcf & Hcm).
    lits. replace ((d ++ l) ++ [45] ++ zfill2 f ++ [45] ++ zfill2 m)
      with (d ++ l ++ 45 :: zfill2 f ++ 45 :: zfill2 m) by (by norm_app).
    destruct (zfill2_digits f Hf) as [Hzf Hzf2].
    destruct (zfill2_digits m Hm) as [Hzm Hzm2].
    apply good_long; try done; apply zfill2_clean; (done || apply Hf || apply Hm). }
  destruct (m_base s) as [base|] eqn:E3.
  { right.
    apply m_base_spec in E3
      as (d & l & f & m & r & -> & -> & Hd & Hl & Hf & Hf2 & Hm & Hm2).
    rewrite upper_app in Ht. apply contains_app_l in Ht.
    rewrite tbd_shape in Ht;
      [|apply Hd|apply plain_app; [by apply digits_plain|];
                  by apply plain_cons_hyphen, digits_plain].
    apply clean_app in Hc as [Hc _].
    rewrite !clean_app, clean_hyphen_iff, clean_app, clean_hyphen_iff in Hc.
    destruct Hc as (Hcd & Hcl & Hcf & Hcm).
    apply good_long; try done; lia. }
  destruct (m_short3 s) as [[[b ddd] sfx]|] eqn:E4.
  { apply m_short3_spec in E4 as (Hs & Hb & Hd & Hl & Hsfx); [|by apply trimmed_room].
    rewrite Hs in Hc.
    rewrite clean_app, clean_hyphen_iff, clean_app in Hc.
    destruct Hc as (Hcb & Hcd & Hcs).
    destruct (digits3 ddd Hd Hl) as (x & y & z & -> & Hx & Hy & Hz).
    destruct (str_eqb b (py "63")) eqn:E63.
    - right. apply bool_decide_eq_true in E63 as ->.
      assert (Hcx : clean [x] /\ clean [y; z]).
      { change [x; y; z] with ([x] ++ [y; z]) in Hcd. by apply clean_app in Hcd. }
      apply (good_long [54; 51] [] [48; x] [y; z]); try done;
        try (cbn; lia); try by apply digits_48.
      + by apply Forall_nil.
      + apply Forall_cons. split; [done|]. by apply Forall_one.
      + change (clean ([48] ++ [x])). apply clean_app. split; [|apply Hcx].
        apply clean_ascii; [lia | by vm_compute].
      + apply Hcx.
    - apply bool_decide_eq_false in E63. lits.
      destruct sfx as [c|].
      + right. destruct (upper_char_alpha c Hsfx) as (C & HU & HC & HUC & H128).
        rewrite upper_cons, HU. cbn [app upper List.map List.concat].
        apply (good_short3 b [x; y; z] C); try done.
      + left. rewrite Hs. by norm_app. }
  destruct (m_short s) as [[b n]|] eqn:E5; [|by left].
  apply m_short_spec in E5 as (Hs & Hb & Hd & Hl); [|by apply trimmed_room].
  rewrite Hs in Hc. rewrite clean_app, clean_hyphen_iff in Hc.
  destruct Hc as (Hcb & Hcn). lits.
  destruct n as [|c [|c' [|? ?]]]; cbn in Hl; try lia.
  - right. apply (good_short2 b c); try done.
    by apply Forall_cons in Hd as [? _].
  - left. rewrite Hs. by norm_app.
Qed.

(** ** Room canonicaliser: idempotence *)

Lemma norm_room_nil : norm_room [] = [].
Proof. by vm_compute. Qed.

Lemma norm_room_good o : good o -> norm_room o = o.
Proof.
  intros (Hc & Hn & Ht & Hf). rewrite norm_room_clean by done. lits.
  rewrite Ht, orb_false_r. unfold str_eqb.
  by rewrite (bool_decide_eq_false_2 (o = [])).
Qed.

Lemma norm_room_clean_idem s :
  clean s -> norm_room (norm_room s) = norm_room s.
Proof.
  intros Hc. rewrite (norm_room_clean s) by done. lits.
  destruct (str_eqb s []) eqn:En; [apply norm_room_nil|].
  destruct (contains [84; 66; 68] (upper s)) eqn:Et; [apply norm_room_nil|].
  cbn [orb]. apply bool_decide_eq_false in En.
  destruct (cascade_cases s Hc En Et) as [E|Hg].
  - rewrite E, (norm_room_clean s) by done. lits.
    rewrite Et, orb_false_r. unfold str_eqb.
    by rewrite (bool_decide_eq_false_2 (s = [])).
  - by apply norm_room_good.
Qed.

Lemma table_get_in t c : table_get t c = c \/ In (c, table_get t c) t.
Proof.
  induction t as [|[k v] t IH]; cbn [table_get]; [by left|].
  destruct (N.eqb_spec c k) as [->|]; [right; by left|].
  destruct IH as [IH|IH]; [by left | right; by right].
Qed.

Lemma zen2han_values_fixed :
  forallb (fun kv : N * N => table_get _ZEN2HAN kv.2 =? kv.2) _ZEN2HAN = true.
Proof. by vm_compute. Qed.

Lemma table_get_fixed c : fixed_char (table_get _ZEN2HAN c).
Proof.
  unfold fixed_char. destruct (table_get_in _ZEN2HAN c) as [E|Hin].
  - by rewrite !E.
  - pose proof (proj1 (forallb_forall _ _) zen2han_values_fixed _ Hin) as H.
    by apply N.eqb_eq in H.
Qed.

Lemma lstrip_In c s : In c (lstrip s) -> In c s.
Proof.
  induction s as [|x s IH]; cbn [lstrip]; [done|].
  destruct (is_space x); [|done]. intros H. right. by apply IH.
Qed.

Lemma strip_In c s : In c (strip s) -> In c s.
Proof.
  unfold strip, rstrip. intros H%in_rev%lstrip_In%in_rev.
  by apply lstrip_In.
Qed.

Lemma norm_text_fixed x : Forall fixed_char (norm_text x).
Proof.
  apply List.Forall_forall. intros c Hc%strip_In.
  unfold translate in Hc. apply in_map_iff in Hc as (c' & <- & _).
  apply table_get_fixed.
Qed.

Lemma lstrip_head y :
  match lstrip y with [] => True | c :: _ => is_space c = false end.
Proof.
  induction y as [|x y IH]; cbn [lstrip]; [done|].
  by destruct (is_space x) eqn:E.
Qed.

Lemma lstrip_suffix y : exists a, y = a ++ lstrip y.
Proof.
  induction y as [|x y [a IH]]; cbn [lstrip]; [by exists []|].
  destruct (is_space x); [|by exists []].
  exists (x :: a). cbn. by rewrite <- IH.
Qed.

Lemma strip_out_trimmed y : trimmed (strip y) = true.
Proof.
  unfold strip, rstrip. set (z := lstrip y).
  destruct (lstrip_suffix (rev z)) as [a Ha].
  set (u := lstrip (rev z)) in *.
  assert (Hz : z = rev u ++ rev a).
  { rewrite <- (rev_involutive z), Ha. by rewrite rev_app_distr. }
  destruct (rev u) as [|c w] eqn:Ew; [done|].
  unfold trimmed. rewrite last_rev_head, <- Ew, rev_involutive.
  pose proof (lstrip_head y) as H1. fold z in H1. rewrite Hz in H1.
  cbn [app] in H1. rewrite H1. cbn [negb andb].
  pose proof (lstrip_head (rev z)) as H2. fold u in H2.
  destruct u as [|x u]; [done|]. cbn [hd]. by rewrite H2.
Qed.

Lemma norm_text_trimmed x : trimmed (norm_text x) = true.
Proof. apply strip_out_trimmed. Qed.

Lemma norm_room_same x y : norm_text x = norm_text y -> norm_room x = norm_room y.
Proof. unfold norm_room. by intros ->. Qed.

Lemma norm_room_room_idem x :
  Forall (fun c => room_char c = true) (norm_text x) ->
  norm_room (norm_room x) = norm_room x.
Proof.
  intros Hr.
  assert (Hc : clean (norm_text x)) by (split; [done | apply norm_text_fixed]).
  rewrite (norm_room_same x (norm_text x))
    by (by rewrite (norm_text_clean (norm_text x))).
  by apply norm_room_clean_idem.
Qed.

(** ** Room canonicaliser: the recognized shapes are made of room
    characters *)

Ltac room_solve :=
  repeat match goal with
  | |- Forall _ [] => apply Forall_nil_2
  | |- Forall _ (_ :: _) => apply Forall_cons; split
  | |- Forall _ (_ ++ _) => first [assumption | apply Forall_app; split]
  | |- Forall _ _ =>
    first [ assumption
          | by apply digits_room
          | by (eapply Forall_impl; [eassumption|]; apply alpha_room_char) ]
  | |- room_char _ = true =>
    first [ by apply alpha_room_char | by apply digit_room_char
          | vm_compute; reflexivity ]
  end.

Lemma long_base_room d l f m :
  digits1 d -> alphas l -> digits f -> digits m ->
  Forall (fun c => room_char c = true) (d ++ l ++ 45 :: f ++ 45 :: m).
Proof. intros [Hd _] Hl Hf Hm. unfold digits, alphas in *. room_solve. Qed.

Lemma m_pc_en_room s :
  trimmed s = true -> is_Some (m_pc_en s) ->
  Forall (fun c => room_char c = true) s.
Proof.
  intros Ht [[b l] E].
  apply m_pc_en_spec in E as (f & c & -> & [Hb _] & [Hf _] & _ & Hc); [|done].
  unfold digits in *. room_solve.
Qed.

Lemma is_long_room s :
  trimmed s = true -> is_long s = true -> Forall (fun c => room_char c = true) s.
Proof.
  intros Hs. unfold is_long.
  destruct (long_form s) as [[base r]|] eqn:E; [|done]. intros Hr.
  apply long_form_spec in E as (d & l & f & m & -> & -> & Hd & Hl & Hf & _ & Hm & _).
  assert (r = []) as -> by end_of Hs. rewrite app_nil_r.
  by apply long_base_room.
Qed.

Lemma is_pc_room s :
  trimmed s = true -> is_pc s = true -> Forall (fun c => room_char c = true) s.
Proof.
  intros Hs. unfold is_pc. lits.
  destruct (many1 is_digit s) as [[b r1]|] eqn:E1; [|done].
  apply many1_spec in E1 as (-> & Hb & _ & _). cbn [mbind option_bind].
  destruct (lit [80; 67; 45] r1) as [r2|] eqn:E2; [|done].
  apply lit_spec in E2 as ->. cbn [mbind option_bind].
  destruct (exactly 1 is_alpha r2) as [[l r3]|] eqn:E3; [|done].
  apply exactly_spec in E3 as (-> & Hl & _). cbn [mbind option_bind].
  intros Hr. assert (r3 = []) as -> by end_of Hs.
  room_solve.
Qed.

Lemma is_basement_room s :
  trimmed s = true -> is_basement s = true ->
  Forall (fun c => room_char c = true) s.
Proof.
  intros Hs. unfold is_basement. lits.
  destruct (many1 is_digit s) as [[b r1]|] eqn:E1; [|done].
  apply many1_spec in E1 as (-> & Hb & _ & _). cbn [mbind option_bind].
  destruct (lit [45; 66] r1) as [r2|] eqn:E2; [|done].
  apply lit_spec in E2 as ->. cbn [mbind option_bind].
  destruct (exactly 2 is_digit r2) as [[l r3]|] eqn:E3; [|done].
  apply exactly_spec in E3 as (-> & Hl & _). cbn [mbind option_bind].
  intros Hr. assert (r3 = []) as -> by end_of Hs.
  room_solve.
Qed.

Lemma m_full_room s :
  trimmed s = true -> is_Some (m_full s) ->
  Forall (fun c => room_char c = true) s.
Proof.
  intros Ht [[[b f] m] E].
  apply m_full_spec in E as (d & l & _ & -> & Hd & Hl & [Hf _] & [Hm _]); [|done].
  by apply long_base_room.
Qed.

Lemma m_base_room s :
  trimmed s = true -> is_Some (m_base s) ->
  Forall (fun c => room_char c = true) s.
Proof.
  intros Hs [base E]. unfold m_base in E.
  destruct (long_form s) as [[base' r]|] eqn:El; [|done].
  apply long_form_spec in El
    as (d & l & f & m & -> & -> & Hd & Hl & Hf & _ & Hm & _).
  cbn [mbind option_bind] in E. lits.
  pose proof (long_base_room d l f m Hd Hl Hf Hm) as Hbase.
  destruct (lit [45] r) as [r2|] eqn:E2; cbn [mbind option_bind] in E.
  - apply lit_spec in E2 as ->.
    destruct (many1 is_digit r2) as [[g r3]|] eqn:E3; cbn [mbind option_bind] in E.
    + apply many1_spec in E3 as (-> & Hg & _ & _).
      destruct (at_end r3) eqn:E4.
      * assert (r3 = []) as -> by end_of Hs. room_solve.
      * destruct (at_end ([45] ++ g ++ r3)) eqn:E5; [|done].
        assert ([45] ++ g ++ r3 = []) by end_of Hs. done.
    + destruct (at_end ([45] ++ r2)) eqn:E5; [|done].
      assert ([45] ++ r2 = []) by end_of Hs. done.
  - destruct (at_end r) eqn:E5; [|done].
    assert (r = []) as -> by end_of Hs. by rewrite app_nil_r.
Qed.

Lemma m_short3_room s :
  trimmed s = true -> is_Some (m_short3 s) ->
  Forall (fun c => room_char c = true) s.
Proof.
  intros Ht [[[b ddd] sfx] E].
  apply m_short3_spec in E as (-> & [Hb _] & Hd & _ & Hsfx); [|done].
  unfold digits in *. destruct sfx; room_solve.
Qed.

Lemma m_short_room s :
  trimmed s = true -> is_Some (m_short s) ->
  Forall (fun c => room_char c = true) s.
Proof.
  intros Ht [[b n] E].
  apply m_short_spec in E as (-> & [Hb _] & Hn & _); [|done].
  unfold digits in *. room_solve.
Qed.

(** ** Room canonicaliser: the Japanese PC-room pattern *)

Lemma wide_not_fixed :
  forallb (fun n => negb (table_get _ZEN2HAN (65313 + N.of_nat n) =? 65313 + N.of_nat n)
                    && negb (table_get _ZEN2HAN (65345 + N.of_nat n) =? 65345 + N.of_nat n))
          (seq 0 26) = true.
Proof. by vm_compute. Qed.

Lemma wide_fixed_alpha c :
  is_alpha_wide c = true -> fixed_char c -> is_alpha c = true.
Proof.
  unfold is_alpha_wide, fixed_char. lits. intros Hw Hf.
  destruct (is_alpha c) eqn:Ha; [done|]. exfalso.
  cbn [orb] in Hw.
  assert (Hn : exists n, In n (seq 0 26)
                 /\ (c = 65313 + N.of_nat n \/ c = 65345 + N.of_nat n)).
  { destruct (N.leb_spec c 65338).
    - exists (N.to_nat (c - 65313)). rewrite in_seq. lia.
    - exists (N.to_nat (c - 65345)). rewrite in_seq. lia. }
  destruct Hn as (n & Hin & Hc).
  pose proof (proj1 (forallb_forall _ _) wide_not_fixed n Hin) as H.
  cbv beta in H. apply andb_true_iff in H as [H1 H2].
  apply negb_true_iff, N.eqb_neq in H1, H2.
  destruct Hc as [-> | ->]; congruence.
Qed.

Lemma skip_opt_spec c s :
  exists k : bool, s = (if k then [c] else []) ++ skip_opt c s.
Proof.
  unfold skip_opt, opt1. destruct s as [|x s]; [by exists false|].
  destruct (N.eqb_spec c x) as [<-|]; [by exists true | by exists false].
Qed.

Lemma m_pc_ja_spec s g1 g2 :
  m_pc_ja s = Some (g1, g2) ->
  exists d2 k r c t,
    s = pc_ja_prefix g1 d2 k r c ++ t /\ g2 = [c]
    /\ digits1 g1 /\ digits d2 /\ is_alpha_wide c = true.
Proof.
  unfold m_pc_ja, pc_ja_prefix. lits.
  destruct (many1 is_digit s) as [[b r1]|] eqn:E1; [|done].
  apply many1_spec in E1 as (-> & Hb & Hbn & _). cbn [mbind option_bind].
  destruct (lit [21495; 39208] r1) as [r2|] eqn:E2; [|done].
  apply lit_spec in E2 as ->. cbn [mbind option_bind].
  destruct (span is_digit r2) as [d2 r3] eqn:E3.
  apply span_spec in E3 as (-> & Hd2 & _). cbn [snd].
  destruct (skip_opt_spec 38542 r3) as [k Hk].
  set (r4 := skip_opt 38542 r3) in *. clearbody r4. subst r3.
  destruct (lit [26411; 31471] r4) as [r5|] eqn:E5; [|done].
  apply lit_spec in E5 as ->. cbn [mbind option_bind].
  destruct (skip_opt_spec 23460 r5) as [r Hr].
  set (r6 := skip_opt 23460 r5) in *. clearbody r6. subst r5.
  destruct r6 as [|c t]; [done|].
  destruct (is_alpha_wide c) eqn:Hc; [|done]. intros [= <- <-].
  exists d2, k, r, c, t. repeat split; try done.
  by norm_app.
Qed.

Lemma skip_opt_hit c r : skip_opt c (c :: r) = r.
Proof. unfold skip_opt, opt1. by rewrite N.eqb_refl. Qed.

Lemma skip_opt_miss c x r : c <> x -> skip_opt c (x :: r) = x :: r.
Proof.
  intros H. unfold skip_opt, opt1. by rewrite (proj2 (N.eqb_neq _ _) H).
Qed.

Lemma lit_two a b r : lit [a; b] (a :: b :: r) = Some r.
Proof. apply (lit_app [a; b]). Qed.

Lemma m_pc_ja_prefix g1 d2 k r c t :
  digits1 g1 -> digits d2 -> is_alpha_wide c = true ->
  m_pc_ja (pc_ja_prefix g1 d2 k r c ++ t) = Some (g1, [c]).
Proof.
  intros [Hg Hn] Hd Hc. unfold m_pc_ja, pc_ja_prefix. lits. norm_app.
  rewrite (many1_app is_digit g1 (21495 :: _)) by done.
  cbn [mbind option_bind].
  rewrite lit_two. cbn [mbind option_bind].
  assert (Hsp : forall x u, is_digit x = false ->
                            (span is_digit (d2 ++ x :: u)).2 = x :: u).
  { intros x u Hx. by rewrite (span_app is_digit d2 (x :: u)). }
  assert (Hw : c <> 23460).
  { intros ->. by vm_compute in Hc. }
  destruct k, r; norm_app; rewrite Hsp by done;
    rewrite ?skip_opt_hit, ?(skip_opt_miss 38542 26411) by done;
    rewrite lit_two; cbn [mbind option_bind];
    rewrite ?skip_opt_hit, ?(skip_opt_miss 23460 c) by done;
    by rewrite Hc.
Qed.

Lemma room_inert c : room_char c = true -> inert c.
Proof.
  intros Hc. repeat split.
  - by apply room_not_space.
  - unfold is_colon. lits.
    apply (room_char_neq 58) in Hc as H1; [|by vm_compute].
    apply (room_char_neq 65306) in Hc as H2; [|by vm_compute].
    lia.
  - apply (room_char_neq 65288); [by vm_compute | done].
  - apply (room_char_neq 40); [by vm_compute | done].
Qed.

Lemma strip_key_prefix_inert p t :
  (3 <= length p)%nat -> Forall inert p ->
  strip_key_prefix (p ++ t) = p ++ t.
Proof.
  intros Hl Hp. destruct p as [|a [|b [|c p]]]; cbn [length] in Hl; try lia.
  apply Forall_cons in Hp as [(Ha & _) Hp].
  apply Forall_cons in Hp as [(Hb & Hbc & _) Hp].
  apply Forall_cons in Hp as [(Hc & Hcc & _) _].
  unfold strip_key_prefix. cbn [app lstrip]. rewrite Ha.
  unfold one_or_two, opt1. destruct (is_digit a); [|done].
  destruct (is_digit b).
  - cbn [lstrip]. by rewrite Hc, Hcc.
  - cbn [lstrip]. by rewrite Hb, Hbc.
Qed.

Lemma drop_parens_inert p t :
  Forall inert p -> drop_parens (p ++ t) = p ++ drop_parens t.
Proof.
  unfold drop_parens. induction 1 as [|c p (_ & _ & H1 & H2) _ IH]; [done|].
  cbn [app drop_parens_from]. lits.
  rewrite (proj2 (N.eqb_neq _ _) H1), (proj2 (N.eqb_neq _ _) H2).
  by rewrite IH.
Qed.

Lemma pc_ja_prefix_inert g1 d2 k r c :
  digits g1 -> digits d2 -> is_alpha c = true ->
  Forall inert (pc_ja_prefix g1 d2 k r c).
Proof.
  intros Hg Hd Hc. unfold pc_ja_prefix. lits.
  assert (Hdi : forall d, digits d -> Forall inert d).
  { intros d H. eapply Forall_impl; [exact H|].
    intros x Hx. by apply room_inert, digit_room_char. }
  assert (Hk : forall x, In x [21495; 39208; 38542; 26411; 31471; 23460] ->
                         inert x).
  { intros x Hx. cbn [In] in Hx. unfold inert, is_colon. lits.
    repeat split; destruct Hx as [<-|Hx]; try done;
      repeat (destruct Hx as [<-|Hx]; try done). }
  rewrite !Forall_app. repeat split.
  - by apply Hdi.
  - repeat (apply Forall_cons; split; [apply Hk; cbn [In]; tauto|]).
    by apply Forall_nil.
  - by apply Hdi.
  - destruct k; [|by apply Forall_nil].
    apply Forall_cons; split; [apply Hk; cbn [In]; tauto | by apply Forall_nil].
  - repeat (apply Forall_cons; split; [apply Hk; cbn [In]; tauto|]).
    by apply Forall_nil.
  - destruct r; [|by apply Forall_nil].
    apply Forall_cons; split; [apply Hk; cbn [In]; tauto | by apply Forall_nil].
  - apply Forall_cons; split; [|by apply Forall_nil].
    by apply room_inert, alpha_room_char.
Qed.

Lemma pc_ja_prefix_length g1 d2 k r c :
  g1 <> [] -> (3 <= length (pc_ja_prefix g1 d2 k r c))%nat.
Proof.
  intros Hn. unfold pc_ja_prefix. lits. rewrite !length_app. cbn [length].
  destruct g1; [done|]. cbn [length]. lia.
Qed.

(** The Japanese PC-room pattern: the result is empty or a canonical
    identifier that the cascade leaves alone. *)
Lemma norm_room_pc_ja_cases x :
  is_Some (m_pc_ja (norm_text x)) -> norm_room x = [] \/ good (norm_room x).
Proof.
  intros [[g1 g2] E].
  apply m_pc_ja_spec in E as (d2 & k & r & c & t & Hs & -> & Hg & Hd & Hc).
  pose proof (norm_text_fixed x) as Hf. rewrite Hs in Hf.
  unfold pc_ja_prefix in Hf. rewrite !Forall_app in Hf.
  destruct Hf as [(Hfg & _ & _ & _ & _ & _ & Hfc) _].
  apply Forall_cons in Hfc as [Hfc _].
  pose proof (wide_fixed_alpha c Hc Hfc) as Ha.
  assert (Hcg : clean g1).
  { split; [|done]. eapply Forall_impl; [exact (proj1 Hg)|].
    intros y Hy. by apply digit_room_char. }
  assert (Hcc : clean [c]).
  { split; apply Forall_cons; split; try done; try by apply Forall_nil.
    by apply alpha_room_char. }
  unfold norm_room. rewrite Hs.
  rewrite strip_key_prefix_inert, drop_parens_inert
    by first [ by apply pc_ja_prefix_length, Hg
             | by apply pc_ja_prefix_inert; [apply Hg | done | done] ].
  match goal with |- context [if ?b then _ else _] => destruct b end;
    [by left | right].
  rewrite m_pc_ja_prefix by done.
  rewrite (norm_text_clean g1), (norm_text_clean [c]) by done.
  destruct (upper_char_alpha c Ha) as (C & HU & HC & HUC & H128).
  lits. rewrite upper_cons, HU. cbn [app upper List.map List.concat].
  by apply good_pc.
Qed.

(** * Further properties of the source *)

(** ** Text normaliser: fixed points *)

Lemma zen2han_keys_move :
  forallb (fun kv : N * N => negb (table_get _ZEN2HAN kv.1 =? kv.1)) _ZEN2HAN
  = true.
Proof. by vm_compute. Qed.

Lemma norm_text_avoids_key x k v : In (k, v) _ZEN2HAN -> k ∉ norm_text x.
Proof.
  intros Hin Hk.
  pose proof (proj1 (forallb_forall _ _) zen2han_keys_move _ Hin) as Hm.
  cbn [fst] in Hm. apply negb_true_iff, N.eqb_neq in Hm.
  pose proof (norm_text_fixed x) as Hf.
  rewrite Forall_forall in Hf. by apply Hf in Hk.
Qed.

(** X1.  The text normaliser is idempotent: normalising a normalised text
    changes nothing. *)
Theorem norm_text_idempotent (x : str) : norm_text (norm_text x) = norm_text x.
Proof.
  unfold norm_text at 1. rewrite translate_fixed by apply norm_text_fixed.
  apply strip_trimmed, norm_text_trimmed.
Qed.

(** X2.  What the normaliser returns neither begins nor ends with white
    space, and holds none of the characters that [_ZEN2HAN] translates: no
    full-width digit or letter, no dash variant, no ideographic space. *)
Theorem norm_text_normal (x : str) :
  trimmed (norm_text x) = true
  /\ Forall (fun kv : char * char => kv.1 ∉ norm_text x) _ZEN2HAN.
Proof.
  split; [apply norm_text_trimmed|].
  apply List.Forall_forall. intros [k v] Hin. by eapply norm_text_avoids_key.
Qed.

(** ** Term labels *)

Lemma startswith_elem sub s c : startswith sub s = true -> c ∈ sub -> c ∈ s.
Proof.
  revert s. induction sub as [|a sub IH]; intros s H Hc; [by apply elem_of_nil in Hc|].
  destruct s as [|b s]; [done|]. cbn [startswith] in H.
  apply andb_true_iff in H as [->%N.eqb_eq H].
  apply elem_of_cons in Hc as [->|Hc]; [by left | right; by eapply IH].
Qed.

Lemma contains_elem sub s c : contains sub s = true -> c ∈ sub -> c ∈ s.
Proof.
  induction s as [|b s IH]; cbn [contains]; intros H Hc.
  - rewrite orb_false_r in H. by eapply startswith_elem.
  - apply orb_true_iff in H as [H|H]; [by eapply startswith_elem|].
    right. by apply IH.
Qed.

(** The long-vowel mark is a key of [_ZEN2HAN], so no normalised text holds
    a word written with it. *)
Lemma norm_text_no_long_vowel sub x :
  12540 ∈ sub -> contains sub (norm_text x) = false.
Proof.
  intros Hs. destruct (contains sub (norm_text x)) eqn:E; [|done].
  exfalso. apply (norm_text_avoids_key x 12540 45).
  - vm_compute. tauto.
  - by eapply contains_elem.
Qed.

(** X3.  A term is sent to one table alone only on the English quarter
    labels: when [targets_from_term] returns the single target [season],
    the lower-cased text holds [season] followed by " quarter".  The
    Japanese quarter labels never select a table by themselves, because
    the normaliser has replaced their long-vowel mark by a hyphen. *)
Theorem targets_from_term_single (term season : str) :
  targets_from_term term = [season] ->
  contains (season ++ py " quarter") (lower (norm_text term)) = true.
Proof.
  unfold targets_from_term. cbv zeta.
  rewrite (norm_text_no_long_vowel (py "秋クォーター")),
          (norm_text_no_long_vowel (py "冬クォーター"))
    by (vm_compute; set_solver).
  destruct (contains (py "秋学期") _); [done|].
  destruct (contains (py "fall semester") _ || _); [done|].
  destruct (contains (py "fall quarter") _) eqn:E1; [by intros [= <-]|].
  destruct (contains (py "winter quarter") _) eqn:E2; [by intros [= <-]|].
  done.
Qed.

Lemma targets_from_term_single_witness :
  targets_from_term (py "Fall Quarter") = [py "fall"]
  /\ contains (py "fall" ++ py " quarter") (lower (norm_text (py "Fall Quarter")))
     = true.
Proof.
  assert (H : targets_from_term (py "Fall Quarter") = [py "fall"])
    by (vm_compute; reflexivity).
  split; [exact H | exact (targets_from_term_single _ _ H)].
Defined.

Example targets_from_term_ja :
  targets_from_term (py "秋学期") = [py "fall"; py "winter"]
  /\ targets_from_term (py "秋クォーター") = []
  /\ targets_from_term (py "冬クォーター") = []
  /\ targets_from_term (py "春学期") = [].
Proof. repeat split; by vm_compute. Qed.

Example targets_from_term_en :
  targets_from_term (py "Fall Semester") = [py "fall"; py "winter"]
  /\ targets_from_term (py "fall quarter") = [py "fall"]
  /\ targets_from_term (py "Winter Quarter") = [py "winter"]
  /\ targets_from_term (py "Spring Semester") = [].
Proof. repeat split; by vm_compute. Qed.

(** ** Cell lines: keys and values *)

Lemma zfill2_key k :
  digits k -> (length k = 1 \/ length k = 2)%nat ->
  length (zfill2 k) = 2%nat /\ digits (zfill2 k).
Proof.
  intros Hk [Hl|Hl]; destruct k as [|a [|b [|c k]]]; try done.
  split; [done|]. apply Forall_cons; split; [by vm_compute | done].
Qed.

(** X4.  Every entry of [keyed_lines] has a key of exactly two digits or no
    key at all; its value neither begins nor ends with white space, and the
    value of an entry without key is not empty. *)
Theorem keyed_lines_entries (lines : list str) :
  Forall (fun e : entry =>
            match e.1 with
            | Some k => length k = 2%nat /\ digits k
            | None => e.2 <> []
            end /\ trimmed e.2 = true)
         (keyed_lines lines).
Proof.
  induction lines as [|s lines IH]; cbn [keyed_lines]; [by apply Forall_nil|].
  cbv zeta. destruct (str_eqb (norm_text s) []) eqn:En; [done|].
  apply bool_decide_eq_false in En.
  destruct (m_key (norm_text s)) as [[g1 g2]|] eqn:Em.
  - apply Forall_cons; split; [|done]. cbn [fst snd].
    split; [|apply strip_out_trimmed].
    unfold m_key in Em.
    destruct (one_or_two is_digit (norm_text s)) as [[k r]|] eqn:Eo; [|done].
    apply one_or_two_spec in Eo as (_ & Hk & Hl & _).
    cbn [mbind option_bind] in Em.
    destruct (lstrip r) as [|c r']; [done|].
    destruct (is_colon c); [|done].
    destruct (span _ (lstrip r')) as [v e].
    destruct (at_end e); [|done]. injection Em as <- <-.
    by apply zfill2_key.
  - apply Forall_cons; split; [|done]. cbn [fst snd].
    split; [done | apply norm_text_trimmed].
Qed.

(** ** Cell pairer: the pairs form a matching *)

Lemma elem_of_enumerate {A} (l : list A) i x :
  (i, x) ∈ enumerate l <-> l !! i = Some x.
Proof.
  unfold enumerate, zip. rewrite list_elem_of_lookup. split.
  - intros [m Hm]. apply lookup_zip_with_Some in Hm as (a & b & [= <- <-] & Ha & Hb).
    apply lookup_seq in Ha as [-> _]. done.
  - intros Hi. exists i. apply lookup_zip_with_Some. exists i, x.
    split; [done|]. split; [|done].
    apply lookup_seq. split; [done|]. by eapply lookup_lt_Some.
Qed.

Lemma unused_shift (used : gset nat) (l : list entry) a :
  List.map (fun p : nat * entry => p.2.2)
    (List.filter (fun p : nat * entry => bool_decide (p.1 ∉ used))
       (zip (seq a (length l)) l))
  = List.map (fun i => (l !!! (i - a)%nat).2)
      (List.filter (fun i => bool_decide (i ∉ used)) (seq a (length l))).
Proof.
  revert a. induction l as [|x l IH]; intros a; [done|].
  cbn [length seq zip zip_with List.filter fst].
  assert (Ht : List.map (fun i => ((x :: l) !!! (i - a)%nat).2)
                 (List.filter (fun i => bool_decide (i ∉ used)) (seq (S a) (length l)))
               = List.map (fun i => (l !!! (i - S a)%nat).2)
                 (List.filter (fun i => bool_decide (i ∉ used)) (seq (S a) (length l)))).
  { apply List.map_ext_in. intros i [Hi _]%List.filter_In. apply in_seq in Hi.
    replace (i - a)%nat with (S (i - S a)) by lia. done. }
  destruct (bool_decide (a ∉ used)); cbn [List.map snd];
    rewrite ?Nat.sub_diag, Ht; [f_equal|]; apply IH.
Qed.

Lemma unused_pick (es : list entry) used :
  unused es used
  = List.map (fun i => (es !!! i).2) (idx_unused (length es) used).
Proof.
  unfold unused, enumerate, idx_unused. rewrite unused_shift.
  apply List.map_ext. intros i. by rewrite Nat.sub_0_r.
Qed.

Lemma zip_pick (des res : list entry) (a b : list nat) :
  zip (List.map (fun i => (des !!! i).2) a) (List.map (fun j => (res !!! j).2) b)
  = pick des res <$> zip a b.
Proof.
  revert b. induction a as [|i a IH]; intros [|j b]; try done.
  cbn. f_equal. apply IH.
Qed.

Lemma zip_fst_elem (a b : list nat) i : i ∈ ((zip a b).*1) -> i ∈ a.
Proof.
  revert b. induction a as [|x a IH]; intros [|y b]; cbn; try done.
  - intros H. by apply elem_of_nil in H.
  - intros [->|H]%elem_of_cons; [by left | right; by eapply IH].
Qed.

Lemma zip_snd_elem (a b : list nat) j : j ∈ ((zip a b).*2) -> j ∈ b.
Proof.
  revert b. induction a as [|x a IH]; intros [|y b]; cbn; try done.
  - intros H. by apply elem_of_nil in H.
  - intros [->|H]%elem_of_cons; [by left | right; by eapply IH].
Qed.

Lemma zip_fst_NoDup (a b : list nat) : NoDup a -> NoDup ((zip a b).*1).
Proof.
  revert b. induction a as [|x a IH]; intros [|y b] Ha; cbn; try by apply NoDup_nil.
  apply NoDup_cons in Ha as [Hx Ha]. apply NoDup_cons. split; [|by apply IH].
  intros H. by apply zip_fst_elem in H.
Qed.

Lemma zip_snd_NoDup (a b : list nat) : NoDup b -> NoDup ((zip a b).*2).
Proof.
  revert b. induction a as [|x a IH]; intros [|y b] Hb; cbn; try by apply NoDup_nil.
  apply NoDup_cons in Hb as [Hy Hb]. apply NoDup_cons. split; [|by apply IH].
  intros H. by apply zip_snd_elem in H.
Qed.

Lemma idx_unused_elem n used i : i ∈ idx_unused n used <-> (i < n)%nat /\ i ∉ used.
Proof.
  unfold idx_unused. rewrite list_elem_of_In, List.filter_In, in_seq, bool_decide_eq_true.
  intuition lia.
Qed.

Lemma idx_unused_NoDup n used : NoDup (idx_unused n used).
Proof.
  unfold idx_unused. apply NoDup_ListNoDup, List.NoDup_filter, NoDup_ListNoDup, NoDup_seq.
Qed.

Lemma idx_unused_length n (L : list nat) :
  NoDup L -> (forall i, i ∈ L -> (i < n)%nat) ->
  (length (idx_unused n (list_to_set L)) + length L = n)%nat.
Proof.
  intros Hnd Hlt. unfold idx_unused.
  pose proof (List.filter_length (fun i => bool_decide (i ∉ (list_to_set L : gset nat)))
                (seq 0 n)) as H.
  rewrite length_seq in H. rewrite <- H at 2. f_equal.
  apply Permutation_length. symmetry. apply NoDup_Permutation.
  - apply NoDup_ListNoDup, List.NoDup_filter, NoDup_ListNoDup, NoDup_seq.
  - done.
  - intros i. rewrite list_elem_of_In, List.filter_In, in_seq, negb_true_iff,
      bool_decide_eq_false. split.
    + intros [_ Hi]. apply dec_stable in Hi. by apply elem_of_list_to_set in Hi.
    + intros Hi. split; [specialize (Hlt i Hi); lia|].
      intros Hn. apply Hn. by apply elem_of_list_to_set.
Qed.

Lemma keyed_with_head k ur res j :
  head (keyed_with k ur res) = Some j -> (j ∉ ur) /\ (j < length res)%nat.
Proof.
  intros H. assert (Hin : In j (keyed_with k ur res)).
  { destruct (keyed_with k ur res) as [|x q]; [done|]. injection H as ->. by left. }
  unfold keyed_with in Hin. apply List.in_map_iff in Hin as ([j' e] & Hj & Hin).
  cbn [fst] in Hj. subst j'. apply List.filter_In in Hin as [Hin Hp].
  apply bool_decide_eq_true in Hp as [_ Hp]. cbn [fst] in Hp. split; [done|].
  apply list_elem_of_In, elem_of_enumerate in Hin. by eapply lookup_lt_Some.
Qed.

Lemma phase_matching_skip des res i idxs ud ur ps ud' ur' l :
  phase_matching des res idxs ud ur ps ud' ur' l ->
  phase_matching des res (i :: idxs) ud ur ps ud' ur' l.
Proof.
  intros (? & ? & ? & ? & ? & Hl & ?). repeat split; try done; try (by apply H4).
  intros i0 Hi0. right. by apply Hl.
Qed.

(** The first phase pairs distinct day lines with distinct room lines that
    were not used before. *)
Lemma key_phase_matching des res days : forall ud ur ps ud' ur',
  key_phase res days ud ur = (ps, ud', ur') ->
  NoDup (days.*1) ->
  (forall i e, (i, e) ∈ days -> des !! i = Some e) ->
  exists l, phase_matching des res (days.*1) ud ur ps ud' ur' l.
Proof.
  induction days as [|[i [key dv]] days IH]; intros ud ur ps ud' ur' Hk Hnd Hd.
  - injection Hk as <- <- <-. exists []. unfold phase_matching. cbn.
    repeat split; try apply NoDup_nil_2; try set_solver.
  - cbn [fmap list_fmap fst] in Hnd |- *. apply NoDup_cons in Hnd as [Hi Hnd].
    assert (Hd' : forall i' e, (i', e) ∈ days -> des !! i' = Some e)
      by (intros i' e' H; apply Hd; by right).
    assert (Hskip : key_phase res days ud ur = (ps, ud', ur') ->
      exists l, phase_matching des res (i :: days.*1) ud ur ps ud' ur' l).
    { intros Hk'. destruct (IH _ _ _ _ _ Hk' Hnd Hd') as [l Hl].
      exists l. by apply phase_matching_skip. }
    cbn [key_phase] in Hk.
    destruct key as [[|c k]|]; try (apply Hskip, Hk).
    destruct (head (keyed_with (c :: k) ur res)) as [j|] eqn:Eh;
      [|apply Hskip, Hk].
    destruct (key_phase res days ({[i]} ∪ ud) ({[j]} ∪ ur)) as [[ps1 ud1] ur1] eqn:E1.
    injection Hk as <- <- <-.
    destruct (IH _ _ _ _ _ E1 Hnd Hd') as (l & -> & -> & -> & Hn1 & Hn2 & Hl1 & Hl2).
    apply keyed_with_head in Eh as [Hj Hjl].
    exists ((i, j) :: l). unfold phase_matching.
    cbn [fmap list_fmap fst snd list_to_set].
    split; [|split; [|split; [|split; [|split; [|split]]]]].
    + unfold pick. cbn [fst snd].
      rewrite (list_lookup_total_correct des i (Some (c :: k), dv)); [done|].
      apply Hd. by left.
    + set_solver.
    + set_solver.
    + apply NoDup_cons. split; [|done]. intros H. by apply Hl1 in H.
    + apply NoDup_cons. split; [|done]. intros H. apply Hl2 in H as [H _]. set_solver.
    + intros i0 [->|H]%elem_of_cons; [by left | right; by apply Hl1].
    + intros j0 [->|H]%elem_of_cons; [done|]. apply Hl2 in H as [H ?].
      split; [set_solver | done].
Qed.

Lemma pair_indices (day_lines room_lines : list str) :
  let des := keyed_lines day_lines in
  let res := keyed_lines room_lines in
  exists l : list (nat * nat),
    pair_day_and_room day_lines room_lines = pick des res <$> l
    /\ NoDup (l.*1) /\ NoDup (l.*2)
    /\ Forall (fun ij : nat * nat =>
                 (ij.1 < length des)%nat /\ (ij.2 < length res)%nat) l
    /\ length l = Nat.min (length des) (length res).
Proof.
  intros des res. rewrite pair_day_and_room_spec. fold des res. unfold pair_spec.
  destruct (key_phase res (enumerate des) ∅ ∅) as [[ps ud] ur] eqn:Ek.
  destruct (key_phase_matching des res (enumerate des) _ _ _ _ _ Ek)
    as (l & -> & -> & -> & Hn1 & Hn2 & Hl1 & Hl2).
  { apply (NoDup_fst_enumerate des). }
  { intros i e. apply elem_of_enumerate. }
  rewrite !union_empty_r_L, !unused_pick, zip_pick, <- fmap_app.
  set (a := idx_unused (length des) (list_to_set (l.*1))).
  set (b := idx_unused (length res) (list_to_set (l.*2))).
  assert (Hlt1 : forall i, i ∈ (l.*1) -> (i < length des)%nat).
  { intros i Hi%Hl1. change (i ∈ List.map fst (enumerate des)) in Hi.
    rewrite fst_enumerate in Hi. apply list_elem_of_In, in_seq in Hi. lia. }
  assert (Hlt2 : forall j, j ∈ (l.*2) -> (j < length res)%nat)
    by (intros j Hj; by apply Hl2).
  exists (l ++ zip a b). split; [done|]. rewrite !fmap_app. repeat split.
  - apply NoDup_app. split; [done|]. split; [|apply zip_fst_NoDup, idx_unused_NoDup].
    intros i Hi Hz%zip_fst_elem%idx_unused_elem. destruct Hz as [_ Hz].
    apply Hz. by apply elem_of_list_to_set.
  - apply NoDup_app. split; [done|]. split; [|apply zip_snd_NoDup, idx_unused_NoDup].
    intros j Hj Hz%zip_snd_elem%idx_unused_elem. destruct Hz as [_ Hz].
    apply Hz. by apply elem_of_list_to_set.
  - apply Forall_app. split; apply Forall_forall; intros [i j] Hij; cbn [fst snd].
    + split; [apply Hlt1 | apply Hlt2].
      * by apply (list_elem_of_fmap_2 fst) in Hij.
      * by apply (list_elem_of_fmap_2 snd) in Hij.
    + split.
      * apply (list_elem_of_fmap_2 fst) in Hij. cbn [fst] in Hij.
        by apply zip_fst_elem, idx_unused_elem in Hij as [? _].
      * apply (list_elem_of_fmap_2 snd) in Hij. cbn [snd] in Hij.
        by apply zip_snd_elem, idx_unused_elem in Hij as [? _].
  - rewrite length_app, length_zip.
    pose proof (idx_unused_length (length des) (l.*1) Hn1 Hlt1) as H1.
    pose proof (idx_unused_length (length res) (l.*2) Hn2 Hlt2) as H2.
    fold a in H1. fold b in H2. rewrite !length_fmap in H1, H2. lia.
Qed.

(** X5.  The pairs of [pair_day_and_room] form a matching: each pair is
    made of the value of one day entry and the value of one room entry of
    [keyed_lines], and no day entry and no room entry is used in two
    pairs. *)
Theorem pair_day_and_room_matching (day_lines room_lines : list str) :
  exists l : list (nat * nat),
    pair_day_and_room day_lines room_lines
    = pick (keyed_lines day_lines) (keyed_lines room_lines) <$> l
    /\ NoDup (l.*1) /\ NoDup (l.*2)
    /\ Forall (fun ij : nat * nat =>
                 (ij.1 < length (keyed_lines day_lines))%nat
                 /\ (ij.2 < length (keyed_lines room_lines))%nat) l.
Proof.
  destruct (pair_indices day_lines room_lines) as (l & ? & ? & ? & ? & _).
  by exists l.
Qed.

(** X6.  [pair_day_and_room] pairs as many lines as it can: the number of
    pairs is the smaller of the number of day entries and the number of
    room entries. *)
Theorem pair_day_and_room_length (day_lines room_lines : list str) :
  length (pair_day_and_room day_lines room_lines)
  = Nat.min (length (keyed_lines day_lines)) (length (keyed_lines room_lines)).
Proof.
  destruct (pair_indices day_lines room_lines) as (l & -> & _ & _ & _ & <-).
  apply length_fmap.
Qed.

Lemma key_phase_no_day_key res days ud ur :
  Forall (fun p : nat * entry => p.2.1 = None) days ->
  key_phase res days ud ur = ([], ud, ur).
Proof.
  induction 1 as [|[i [key dv]] days Hk _ IH]; [done|].
  cbn [fst snd] in Hk. subst key. exact IH.
Qed.

Lemma filter_none {A} (f : A -> bool) (l : list A) :
  (forall x, In x l -> f x = false) -> List.filter f l = [].
Proof.
  induction l as [|x l IH]; intros H; [done|]. cbn [List.filter].
  rewrite (H x) by (by left). apply IH. intros y Hy. apply H. by right.
Qed.

Lemma keyed_with_no_room_key k ur res :
  Forall (fun e : entry => e.1 = None) res -> keyed_with k ur res = [].
Proof.
  intros Hr. unfold keyed_with. rewrite filter_none; [done|].
  intros [j e] Hin%list_elem_of_In%elem_of_enumerate.
  apply bool_decide_eq_false. cbn [fst snd]. intros [He _].
  rewrite Forall_forall in Hr. apply list_elem_of_lookup_2, Hr in Hin. congruence.
Qed.

Lemma key_phase_no_room_key res days ud ur :
  Forall (fun e : entry => e.1 = None) res ->
  key_phase res days ud ur = ([], ud, ur).
Proof.
  intros Hr. induction days as [|[i [[[|c k]|] dv]] days IH]; cbn [key_phase]; try done.
  by rewrite keyed_with_no_room_key.
Qed.

Lemma unused_none_from (l : list entry) a :
  List.map (fun p : nat * entry => p.2.2)
    (List.filter (fun p : nat * entry => bool_decide (p.1 ∉ (∅ : gset nat)))
       (zip (seq a (length l)) l))
  = l.*2.
Proof.
  revert a. induction l as [|x l IH]; intros a; [done|].
  cbn [length seq zip zip_with List.filter fst].
  rewrite bool_decide_eq_true_2 by set_solver. cbn. f_equal. apply IH.
Qed.

(** X7.  Without keys the pairing is by position: when no day line, or no
    room line, carries a key, [pair_day_and_room] pairs the first day line
    with the first room line, the second with the second, and so on. *)
Theorem pair_day_and_room_positional (day_lines room_lines : list str) :
  Forall (fun e : entry => e.1 = None) (keyed_lines day_lines)
  \/ Forall (fun e : entry => e.1 = None) (keyed_lines room_lines) ->
  pair_day_and_room day_lines room_lines
  = zip ((keyed_lines day_lines).*2) ((keyed_lines room_lines).*2).
Proof.
  intros H. rewrite pair_day_and_room_spec. unfold pair_spec.
  assert (E : key_phase (keyed_lines room_lines) (enumerate (keyed_lines day_lines)) ∅ ∅
              = ([], ∅, ∅)).
  { destruct H as [H|H]; [|by apply key_phase_no_room_key].
    apply key_phase_no_day_key. apply Forall_forall.
    intros [i e] Hin%elem_of_enumerate. cbn [snd].
    rewrite Forall_forall in H. by apply list_elem_of_lookup_2, H in Hin. }
  rewrite E. cbn [app]. unfold unused, enumerate. by rewrite !unused_none_from.
Qed.

Lemma pair_day_and_room_positional_witness :
  Forall (fun e : entry => e.1 = None) (keyed_lines [py "月5時限"; py "水2時限"])
  /\ pair_day_and_room [py "月5時限"; py "水2時限"] [py "53-101"; py "01:53-102"]
     = zip ((keyed_lines [py "月5時限"; py "水2時限"]).*2)
           ((keyed_lines [py "53-101"; py "01:53-102"]).*2).
Proof.
  assert (H : Forall (fun e : entry => e.1 = None)
                (keyed_lines [py "月5時限"; py "水2時限"]))
    by (vm_compute; repeat constructor).
  split; [exact H|].
  apply pair_day_and_room_positional. by left.
Defined.

(** ** Day and period parser: the day and the order of the periods *)

Lemma dict_get_value {K V} `{EqDecision K} (d : list (K * V)) k v :
  dict_get d k = Some v -> v ∈ d.*2.
Proof.
  induction d as [|[k' v'] d IH]; cbn [dict_get]; [done|].
  destruct (decide (k = k')); [intros [= ->]; by left | intros H; right; by apply IH].
Qed.

Lemma search_ja_day s day rest : search_ja s = Some (day, rest) -> day ∈ DAY_NAMES.
Proof.
  induction s as [|c r IH]; cbn [search_ja]; [done|].
  destruct (dict_get DAY_MAP_JA c) as [d|] eqn:E; [|exact IH].
  intros [= <- <-]. apply dict_get_value in E. clear IH.
  revert d E. apply Forall_forall. vm_compute. repeat constructor.
Qed.

Lemma day_map_en_day g day : dict_get DAY_MAP_EN g = Some day -> day ∈ DAY_NAMES.
Proof.
  intros E%dict_get_value. revert day E. apply Forall_forall.
  vm_compute. repeat constructor.
Qed.

(** X8.  The day that [parse_day_periods] returns is one of the seven day
    names mon, tue, wed, thu, fri, sat, sun. *)
Theorem parse_day_periods_day (is_word : char -> bool) (item : str)
    (day : str) (periods : list Z) :
  parse_day_periods is_word item = Some (day, periods) -> day ∈ DAY_NAMES.
Proof.
  unfold parse_day_periods.
  destruct (_ || _ || _); [done|].
  set (s := strip_key_prefix (norm_text item)).
  assert (Hf : forall d rest,
     match search_ja s with
     | Some (day, rest) => Some (day, rest)
     | None => '(g, rest) ← search_en is_word None s;
               day ← dict_get DAY_MAP_EN g; Some (day, rest)
     end = Some (d, rest) -> d ∈ DAY_NAMES).
  { intros d rest. destruct (search_ja s) as [[d' r']|] eqn:Ej.
    - intros [= <- <-]. by eapply search_ja_day.
    - destruct (search_en is_word None s) as [[g r']|]; [|done].
      cbn [mbind option_bind]. destruct (dict_get DAY_MAP_EN g) as [d'|] eqn:Ed; [|done].
      cbn [mbind option_bind]. intros [= <- <-]. by eapply day_map_en_day. }
  destruct (match search_ja s with Some _ => _ | None => _ end) as [[d rest]|] eqn:E;
    [|done].
  specialize (Hf d rest eq_refl). cbn [mbind option_bind].
  destruct (search_range _) as [[a b]|].
  - destruct (_ <=? _)%Z; by intros [= <- _].
  - destruct (List.map _ _); [done|]. by intros [= <- _].
Qed.

Lemma parse_day_periods_day_witness :
  parse_day_periods is_word_ascii (py "01:Tues.4-5") = Some (py "tue", [4; 5]%Z)
  /\ py "tue" ∈ DAY_NAMES.
Proof.
  assert (H : parse_day_periods is_word_ascii (py "01:Tues.4-5")
              = Some (py "tue", [4; 5]%Z)) by (vm_compute; reflexivity).
  split; [exact H|].
  exact (parse_day_periods_day is_word_ascii _ _ _ H).
Defined.

Lemma dedup_loop_NoDup nums : forall seen periods,
  NoDup periods -> (forall x, x ∈ periods -> x ∈ seen) ->
  NoDup (dedup_loop nums seen periods).
Proof.
  induction nums as [|n nums IH]; intros seen periods Hnd Hs; cbn [dedup_loop]; [done|].
  destruct (decide (n ∈ seen)) as [Hin|Hin]; [by apply IH|].
  apply IH.
  - apply NoDup_app. split; [done|]. split; [|apply NoDup_singleton].
    intros x Hx ->%list_elem_of_singleton. by apply Hs in Hx.
  - intros x [Hx|Hx%list_elem_of_singleton]%elem_of_app; set_solver.
Qed.

(** X9.  No period is listed twice in a result of [parse_day_periods]. *)
Theorem parse_day_periods_distinct (is_word : char -> bool) (item : str)
    (day : str) (periods : list Z) :
  parse_day_periods is_word item = Some (day, periods) -> NoDup periods.
Proof.
  unfold parse_day_periods.
  destruct (_ || _ || _); [done|].
  destruct (match search_ja _ with Some _ => _ | None => _ end) as [[d rest]|];
    [|done].
  cbn [mbind option_bind].
  destruct (search_range _) as [[a b]|].
  - destruct (_ <=? _)%Z; intros [= _ <-]; apply NoDup_seqZ.
  - destruct (List.map _ _) as [|n nums]; [done|]. intros [= _ <-].
    apply (dedup_loop_NoDup (n :: nums) ∅ []); [apply NoDup_nil_2 | set_solver].
Qed.

Lemma parse_day_periods_distinct_witness :
  parse_day_periods is_word_ascii (py "Thu 2, 3 2") = Some (py "thu", [2; 3]%Z)
  /\ NoDup [2; 3]%Z.
Proof.
  assert (H : parse_day_periods is_word_ascii (py "Thu 2, 3 2")
              = Some (py "thu", [2; 3]%Z)) by (vm_compute; reflexivity).
  split; [exact H|].
  exact (parse_day_periods_distinct is_word_ascii _ _ _ H).
Defined.

(** ** Schedule table: what a call of [put_cell] does *)

Lemma period_values_inv df periods :
  period_values df = Some periods ->
  exists cells,
    dict_get df (py "period") = Some cells /\ astype_int cells = Ok periods.
Proof.
  unfold period_values.
  destruct (dict_get df (py "period")) as [cells|]; cbn; [|done].
  destruct (astype_int cells) as [ps|e] eqn:E; [|done].
  intros [= <-]. by exists cells.
Qed.

Lemma put_cell_inv df period room value df' :
  put_cell df period room value = Ok df' ->
  put_cell_outcome df period room value df'.
Proof.
  unfold put_cell.
  destruct (bool_decide (room ∈ columns df)) eqn:Er; cbn [negb];
    [|intros [= <-]; apply put_skip; [left; by apply bool_decide_eq_false in Er | done]].
  destruct (dict_get df (py "period")) as [cells|] eqn:Ec; [|done].
  destruct (astype_int cells) as [periods|e] eqn:Ep; [|done].
  assert (Hpv : period_values df = Some periods)
    by (unfold period_values; rewrite Ec; cbn; by rewrite Ep).
  destruct (bool_decide (period ∈ periods)) eqn:Eper; cbn [negb].
  2:{ intros [= <-]. apply put_skip; [|done]. right. exists periods.
      split; [done | by apply bool_decide_eq_false in Eper]. }
  destruct (list_find (fun p => p = period) periods) as [[idx p]|] eqn:Ef; [|done].
  apply list_find_Some in Ef as (Hi & -> & Hf).
  assert (Hfirst : forall j, (j < idx)%nat -> periods !! j <> Some period)
    by (intros j Hj E; by eapply Hf).
  destruct (get_at df idx room) as [cell|] eqn:Eg; [|done].
  destruct (str_eqb (strip cell) []) eqn:Ee.
  - apply bool_decide_eq_true in Ee. intros [= <-].
    eapply (put_write _ _ _ _ _ periods idx cell value); try done. by left.
  - apply bool_decide_eq_false in Ee.
    destruct (bool_decide (value ∈ cell_values (strip cell))) eqn:Ev; cbn [negb].
    + apply bool_decide_eq_true in Ev. intros [= <-].
      by eapply (put_present _ _ _ _ _ periods idx cell).
    + apply bool_decide_eq_false in Ev. intros [= <-].
      eapply (put_write _ _ _ _ _ periods idx cell); try done. by right.
Qed.

Lemma set_at_shape df idx room new : shape (set_at df idx room new) = shape df.
Proof.
  unfold shape. induction df as [|[label cells] df IH]; cbn [set_at]; [done|].
  destruct (decide (room = label)); cbn [fmap list_fmap fst snd].
  - by rewrite length_insert.
  - f_equal. apply IH.
Qed.

Lemma put_cell_shape_aux df df' period room value :
  put_cell df period room value = Ok df' -> shape df' = shape df.
Proof.
  intros [_ ->| ? ? ? _ _ _ _ _ _ ->| ? ? ? ? _ _ _ _ _ ->]%put_cell_inv;
    [done | done | apply set_at_shape].
Qed.

(** X10.  [put_cell] keeps the shape of the frame: the column labels, their
    order and the number of cells of every column are those of the frame it
    was given. *)
Theorem put_cell_shape (df df' : DataFrame) (period : Z) (room value : str) :
  put_cell df period room value = Ok df' -> shape df' = shape df.
Proof. apply put_cell_shape_aux. Qed.

Lemma put_cell_shape_witness :
  put_cell mon_csv 2 (py "53-101") (py "B2:Logic")
  = Ok [ (py "period", [py "1"; py "2"; py "3"]);
         (py "53-101", [[]; py "A1:Algebra;B2:Logic"; []]);
         (py "63PC-G", [[]; []; []]) ]
  /\ shape [ (py "period", [py "1"; py "2"; py "3"]);
             (py "53-101", [[]; py "A1:Algebra;B2:Logic"; []]);
             (py "63PC-G", [[]; []; []]) ] = shape mon_csv.
Proof.
  assert (H : put_cell mon_csv 2 (py "53-101") (py "B2:Logic")
    = Ok [ (py "period", [py "1"; py "2"; py "3"]);
           (py "53-101", [[]; py "A1:Algebra;B2:Logic"; []]);
           (py "63PC-G", [[]; []; []]) ]) by (vm_compute; reflexivity).
  split; [exact H | exact (put_cell_shape _ _ _ _ _ H)].
Defined.

Lemma dict_get_set_at_ne (df : DataFrame) idx room new room' :
  room' <> room -> dict_get (set_at df idx room new) room' = dict_get df room'.
Proof.
  intros Hne. induction df as [|[label cells] df IH]; cbn [set_at]; [done|].
  destruct (decide (room = label)) as [<-|Hl]; cbn [dict_get].
  - by rewrite !decide_False by done.
  - destruct (decide (room' = label)); [done | apply IH].
Qed.

Lemma dict_get_set_at_eq (df : DataFrame) idx room new cells :
  dict_get df room = Some cells ->
  dict_get (set_at df idx room new) room = Some (<[idx := new]> cells).
Proof.
  induction df as [|[label cs] df IH]; cbn [set_at dict_get]; [done|].
  destruct (decide (room = label)) as [<-|Hl]; cbn [dict_get].
  - rewrite decide_True by done. by intros [= ->].
  - rewrite decide_False by done. apply IH.
Qed.

Lemma get_at_set_at_other (df : DataFrame) idx room new i room' :
  room' <> room \/ i <> idx ->
  get_at (set_at df idx room new) i room' = get_at df i room'.
Proof.
  intros H. unfold get_at.
  destruct (decide (room' = room)) as [->|Hne];
    [|by rewrite dict_get_set_at_ne].
  destruct H as [H|H]; [done|].
  destruct (dict_get df room) as [cells|] eqn:E.
  - rewrite (dict_get_set_at_eq _ _ _ _ _ E). cbn [mbind option_bind].
    by apply list_lookup_insert_ne.
  - assert (dict_get (set_at df idx room new) room = None) as ->; [|done].
    clear H. induction df as [|[label cs] df IH]; cbn [set_at dict_get] in *; [done|].
    destruct (decide (room = label)); [done|]. cbn [dict_get].
    rewrite decide_False by done. by apply IH.
Qed.

(** X11.  [put_cell] touches one cell at most: a cell of another column, or
    of a row whose period is not the period asked for, is after the call
    what it was before. *)
Theorem put_cell_frame (df df' : DataFrame) (periods : list Z) (period : Z)
    (room value : str) (i : nat) (room' : str) :
  put_cell df period room value = Ok df' ->
  period_values df = Some periods ->
  room' <> room \/ periods !! i <> Some period ->
  get_at df' i room' = get_at df i room'.
Proof.
  intros [_ ->| ? ? ? _ _ _ _ _ _ ->| ps idx cell new Hp Hi _ _ _ ->]%put_cell_inv Hps Hn;
    [done | done |].
  apply get_at_set_at_other. destruct Hn as [Hn|Hn]; [by left | right].
  intros ->. congruence.
Qed.

Lemma put_cell_frame_witness :
  get_at [ (py "period", [py "1"; py "2"; py "3"]);
           (py "53-101", [[]; py "A1:Algebra;B2:Logic"; []]);
           (py "63PC-G", [[]; []; []]) ] 0 (py "53-101")
  = get_at mon_csv 0 (py "53-101").
Proof.
  apply (put_cell_frame mon_csv _ [1; 2; 3]%Z 2 (py "53-101") (py "B2:Logic")).
  - vm_compute. reflexivity.
  - vm_compute. reflexivity.
  - right. vm_compute. discriminate.
Defined.

(** *** The entries of a cell *)

Lemma split_on_cons sep s : exists w ws, split_on sep s = w :: ws.
Proof.
  induction s as [|c s (w & ws & IH)]; cbn [split_on]; [by eexists _, _|].
  destruct (c =? sep); [by eexists _, _|]. rewrite IH. by eexists _, _.
Qed.

Lemma split_on_app sep a b :
  split_on sep (a ++ sep :: b) = split_on sep a ++ split_on sep b.
Proof.
  induction a as [|c a IH]; cbn [app split_on].
  - by rewrite N.eqb_refl.
  - destruct (c =? sep); [by rewrite IH|]. rewrite IH.
    by destruct (split_on_cons sep a) as (w & ws & ->).
Qed.

Lemma split_on_absent sep s : sep ∉ s -> split_on sep s = [s].
Proof.
  induction s as [|c s IH]; intros Hs; cbn [split_on]; [done|].
  apply not_elem_of_cons in Hs as [Hc Hs].
  rewrite (proj2 (N.eqb_neq c sep)) by done. by rewrite IH.
Qed.

Lemma cell_values_atomic v : atomic v -> cell_values v = [v].
Proof.
  intros (Hn & Ht & Hs). unfold cell_values. rewrite split_on_absent by done.
  cbn [List.map List.filter]. rewrite strip_trimmed by done.
  unfold str_eqb. by rewrite bool_decide_eq_false_2.
Qed.

Lemma cell_values_app cur v :
  cell_values (cur ++ py ";" ++ v) = cell_values cur ++ cell_values v.
Proof.
  unfold cell_values. change (py ";" ++ v) with (ch ";" :: v).
  by rewrite split_on_app, List.map_app, List.filter_app.
Qed.

Lemma last_app_ne (a b : str) d : b <> [] -> List.last (a ++ b) d = List.last b d.
Proof.
  intros Hb. induction a as [|x a IH]; [done|].
  cbn [app]. destruct (a ++ b) eqn:E; [by destruct a, b|].
  rewrite <- IH. done.
Qed.

Lemma last_default (l : str) d d' : l <> [] -> List.last l d = List.last l d'.
Proof.
  induction l as [|x [|y l] IH]; intros Hl; [done|done|].
  change (List.last (x :: y :: l) d) with (List.last (y :: l) d).
  change (List.last (x :: y :: l) d') with (List.last (y :: l) d').
  by apply IH.
Qed.

Lemma trimmed_join a m b :
  a <> [] -> b <> [] -> trimmed a = true -> trimmed b = true ->
  trimmed (a ++ m ++ b) = true.
Proof.
  intros Ha Hb Hta Htb. destruct a as [|x a]; [done|]. destruct b as [|y b]; [done|].
  unfold trimmed in *.
  apply andb_true_iff in Hta as [Hx _]. apply andb_true_iff in Htb as [_ Hy].
  cbn [app]. rewrite Hx. cbn [andb].
  rewrite (app_assoc a m (y :: b)), app_comm_cons, last_app_ne by done.
  by rewrite (last_default (y :: b) x y).
Qed.

Lemma strip_join cur v :
  cur <> [] -> trimmed cur = true -> atomic v ->
  strip (cur ++ py ";" ++ v) = cur ++ py ";" ++ v.
Proof.
  intros Hc Ht (Hn & Hv & _). apply strip_trimmed. by apply trimmed_join.
Qed.

Lemma dict_get_columns {V} (df : list (str * V)) room :
  room ∈ List.map fst df <-> is_Some (dict_get df room).
Proof.
  induction df as [|[label cs] df IH]; cbn [List.map dict_get fst].
  - split; [intros H; by apply elem_of_nil in H | by intros [? ?]].
  - destruct (decide (room = label)) as [->|Hne].
    + split; [by eexists | intros _; by left].
    + rewrite elem_of_cons, IH. naive_solver.
Qed.

Lemma atomic_check v :
  negb (str_eqb v []) && trimmed v && forallb (fun c => negb (c =? ch ";")) v = true ->
  atomic v.
Proof.
  intros [[H1 H2]%andb_true_iff H3]%andb_true_iff.
  apply negb_true_iff, bool_decide_eq_false in H1.
  repeat split; [done | done |].
  intros Hin%list_elem_of_In. rewrite forallb_forall in H3.
  apply H3 in Hin. by rewrite N.eqb_refl in Hin.
Qed.

Lemma get_at_set_at (df : DataFrame) idx room new cell :
  get_at df idx room = Some cell -> get_at (set_at df idx room new) idx room = Some new.
Proof.
  unfold get_at. destruct (dict_get df room) as [cells|] eqn:E; [|done].
  cbn [mbind option_bind]. intros Hc.
  rewrite (dict_get_set_at_eq _ _ _ _ _ E). cbn [mbind option_bind].
  apply list_lookup_insert_eq. by eapply lookup_lt_Some.
Qed.

Lemma new_cell_lists cell new value :
  atomic value ->
  strip cell = [] /\ new = value
  \/ strip cell <> [] /\ (value ∉ cell_values (strip cell))
     /\ new = strip cell ++ py ";" ++ value ->
  strip new <> [] /\ cell_values (strip new) = cell_values (strip cell) ++ [value].
Proof.
  intros Ha [[He ->]|(Hne & _ & ->)].
  - pose proof Ha as (Hn & Ht & _). rewrite (strip_trimmed value) by done.
    rewrite He, (cell_values_atomic value) by done. done.
  - rewrite strip_join; [|done|apply strip_out_trimmed|done].
    rewrite cell_values_app, (cell_values_atomic value) by done.
    split; [|done]. by destruct (strip cell).
Qed.

(** X12.  After a call of [put_cell] with a known room, a known period and
    an atomic value, the cell of the first row of that period lists the
    value, and it lists every entry it listed before. *)
Theorem put_cell_lists (df df' : DataFrame) (periods : list Z) (period : Z)
    (room value : str) :
  put_cell df period room value = Ok df' ->
  atomic value ->
  room ∈ columns df -> period_values df = Some periods -> period ∈ periods ->
  exists idx old cell,
    periods !! idx = Some period
    /\ (forall j, (j < idx)%nat -> periods !! j <> Some period)
    /\ get_at df idx room = Some old /\ get_at df' idx room = Some cell
    /\ value ∈ cell_values (strip cell)
    /\ cell_values (strip old) ⊆ cell_values (strip cell).
Proof.
  intros [[Hr|(ps & Hps & Hp)] _
         | ps idx cell Hps Hi Hfirst Hg _ Hv ->
         | ps idx cell new Hps Hi Hfirst Hg Hnew ->]%put_cell_inv Ha Hin Hpv Hper.
  - done.
  - congruence.
  - assert (ps = periods) as -> by congruence.
    exists idx, cell, cell. split; [done|]. split; [done|]. by repeat split.
  - assert (ps = periods) as -> by congruence.
    exists idx, cell, new. split; [done|]. split; [done|]. split; [done|].
    split; [by eapply get_at_set_at|].
    destruct (new_cell_lists cell new value Ha Hnew) as [_ ->].
    split; [set_solver | set_solver].
Qed.

Lemma put_cell_lists_witness :
  exists idx old cell,
    [1; 2; 3]%Z !! idx = Some 2%Z
    /\ (forall j, (j < idx)%nat -> [1; 2; 3]%Z !! j <> Some 2%Z)
    /\ get_at mon_csv idx (py "53-101") = Some old
    /\ get_at [ (py "period", [py "1"; py "2"; py "3"]);
                (py "53-101", [[]; py "A1:Algebra;B2:Logic"; []]);
                (py "63PC-G", [[]; []; []]) ] idx (py "53-101") = Some cell
    /\ py "B2:Logic" ∈ cell_values (strip cell)
    /\ cell_values (strip old) ⊆ cell_values (strip cell).
Proof.
  apply (put_cell_lists mon_csv _ [1; 2; 3]%Z 2 (py "53-101") (py "B2:Logic")).
  - vm_compute. reflexivity.
  - apply atomic_check. vm_compute. reflexivity.
  - apply list_elem_of_In. vm_compute. tauto.
  - vm_compute. reflexivity.
  - apply list_elem_of_In. simpl. tauto.
Defined.

(** A call repeated after it has returned changes nothing. *)
Lemma put_cell_again (df df1 : DataFrame) (period : Z) (room value : str) :
  put_cell df period room value = Ok df1 ->
  atomic value -> room <> py "period" ->
  put_cell df1 period room value = Ok df1.
Proof.
  intros H Ha Hroom. pose proof H as Hinv. apply put_cell_inv in Hinv.
  destruct Hinv as [_ ->| ps idx cell _ _ _ _ _ _ ->
                   | ps idx cell new Hps Hi Hfirst Hg Hnew ->]; [done | done |].
  clear H.
  assert (Hcol : room ∈ columns (set_at df idx room new)).
  { apply dict_get_columns. unfold get_at in Hg.
    destruct (dict_get df room) as [cells|] eqn:E; [|done].
    rewrite (dict_get_set_at_eq _ _ _ _ _ E). by eexists. }
  unfold put_cell. rewrite bool_decide_eq_true_2 by done. cbn [negb].
  rewrite dict_get_set_at_ne by done.
  apply period_values_inv in Hps as (cells & -> & ->).
  rewrite bool_decide_eq_true_2 by (by eapply list_elem_of_lookup_2). cbn [negb].
  assert (list_find (fun p => p = period) ps = Some (idx, period)) as ->.
  { apply list_find_Some. split; [done|]. split; [done|].
    intros j y Hj Hlt ->. by eapply Hfirst. }
  rewrite (get_at_set_at _ _ _ _ _ Hg).
  destruct (new_cell_lists cell new value Ha Hnew) as [Hne Hvals].
  unfold str_eqb. rewrite bool_decide_eq_false_2 by done.
  rewrite Hvals, bool_decide_eq_true_2 by set_solver. done.
Qed.

(** X13.  [put_cell] is idempotent on atomic values: when a call with a
    value that is not empty, has no white space at either end and no
    semicolon has returned, the same call once more changes nothing.  The
    room is not the period column itself. *)
Theorem put_cell_idempotent (df df1 : DataFrame) (period : Z) (room value : str) :
  put_cell df period room value = Ok df1 ->
  atomic value -> room <> py "period" ->
  put_cell df1 period room value = Ok df1.
Proof. apply put_cell_again. Qed.

Lemma put_cell_idempotent_witness :
  put_cell [ (py "period", [py "1"; py "2"; py "3"]);
             (py "53-101", [[]; py "A1:Algebra;B2:Logic"; []]);
             (py "63PC-G", [[]; []; []]) ] 2 (py "53-101") (py "B2:Logic")
  = Ok [ (py "period", [py "1"; py "2"; py "3"]);
         (py "53-101", [[]; py "A1:Algebra;B2:Logic"; []]);
         (py "63PC-G", [[]; []; []]) ].
Proof.
  apply (put_cell_idempotent mon_csv).
  - vm_compute. reflexivity.
  - apply atomic_check. vm_compute. reflexivity.
  - vm_compute. discriminate.
Defined.

Lemma dict_get_elem {V} (df : list (str * V)) room cs :
  dict_get df room = Some cs -> (room, cs) ∈ df.
Proof.
  induction df as [|[label c] df IH]; cbn [dict_get]; [done|].
  destruct (decide (room = label)) as [->|]; [intros [= ->]; by left|].
  intros H. right. by apply IH.
Qed.

Lemma shape_lengths (df df' : DataFrame) n :
  shape df' = shape df ->
  Forall (fun c : str * list str => length c.2 = n) df ->
  Forall (fun c : str * list str => length c.2 = n) df'.
Proof.
  unfold shape. revert df'. induction df as [|c df IH]; intros [|c' df'] E H; try done.
  cbn [fmap list_fmap] in E. injection E as E1 E2 E3.
  apply Forall_cons in H as [Hc H]. apply Forall_cons. split; [congruence|].
  by apply IH.
Qed.

(** On a well-formed frame [put_cell] returns, and returns a well-formed
    frame unless it wrote to the period column. *)
Lemma put_cell_total_aux (df : DataFrame) (period : Z) (room value : str) :
  well_formed df ->
  exists df', put_cell df period room value = Ok df'
              /\ (room <> py "period" -> well_formed df').
Proof.
  intros (periods & Hpv & Hlen).
  assert (Hok : exists df', put_cell df period room value = Ok df').
  { unfold put_cell.
    destruct (bool_decide (room ∈ columns df)) eqn:Er; cbn [negb]; [|by eexists].
    apply bool_decide_eq_true, dict_get_columns in Er as [cs Hcs].
    apply period_values_inv in Hpv as (cells & -> & ->).
    destruct (bool_decide (period ∈ periods)) eqn:Ep; cbn [negb]; [|by eexists].
    apply bool_decide_eq_true in Ep.
    destruct (list_find (fun p => p = period) periods) as [[idx p]|] eqn:Ef.
    2:{ apply list_find_None in Ef. rewrite Forall_forall in Ef. by apply Ef in Ep. }
    apply list_find_Some in Ef as (Hi & _ & _).
    assert (Hc : is_Some (cs !! idx)).
    { apply lookup_lt_is_Some. apply dict_get_elem in Hcs.
      rewrite Forall_forall in Hlen. apply Hlen in Hcs. cbn [snd] in Hcs.
      rewrite Hcs. by eapply lookup_lt_Some. }
    destruct Hc as [cell Hc]. unfold get_at. rewrite Hcs. cbn [mbind option_bind].
    rewrite Hc. destruct (str_eqb (strip cell) []); [by eexists|].
    destruct (negb _); by eexists. }
  destruct Hok as [df' Hok]. exists df'. split; [done|]. intros Hroom.
  exists periods. split.
  - apply put_cell_inv in Hok as [_ ->| ? ? ? _ _ _ _ _ _ ->| ? ? ? ? _ _ _ _ _ ->];
      try done.
    unfold period_values. by rewrite dict_get_set_at_ne.
  - eapply shape_lengths; [|exact Hlen]. by eapply put_cell_shape_aux.
Qed.



(** ** Range indicator: parsing what the site prints *)

Lemma digit_value_ascii d : d < 10 -> digit_value (48 + d) = Some (Z.of_N d).
Proof.
  intros Hd.
  assert (H : d = 0 \/ d = 1 \/ d = 2 \/ d = 3 \/ d = 4 \/ d = 5 \/ d = 6
              \/ d = 7 \/ d = 8 \/ d = 9) by lia.
  repeat (destruct H as [->|H]; [by vm_compute|]). subst. by vm_compute.
Qed.

Lemma is_digit_ascii d : d < 10 -> is_digit (48 + d) = true.
Proof.
  intros Hd. unfold is_digit, digit_runs. cbn [existsb].
  apply orb_true_iff. left. lia.
Qed.

Lemma dec_digits_spec fuel : forall n,
  (N.to_nat n < fuel)%nat ->
  dec_digits fuel n <> []
  /\ Forall (fun c => is_digit c = true /\ c < 128) (dec_digits fuel n)
  /\ int_of_digits (dec_digits fuel n) = Z.of_N n.
Proof.
  induction fuel as [|fuel IH]; intros n Hn; [lia|]. cbn [dec_digits].
  destruct (N.ltb_spec n 10) as [Hlt|Hge].
  - split; [done|]. split.
    + apply Forall_cons. split; [|by apply Forall_nil].
      split; [by apply is_digit_ascii | lia].
    + unfold int_of_digits. cbn [foldl]. rewrite digit_value_ascii by done.
      cbn [from_option id]. lia.
  - assert (Hq : (N.to_nat (n / 10) < fuel)%nat).
    { pose proof (N.Div0.div_lt_upper_bound n 10 n). nia. }
    destruct (IH (n / 10) Hq) as (Hne & Hall & Hval).
    assert (Hm : n mod 10 < 10) by (apply N.mod_lt; lia).
    split; [by destruct (dec_digits fuel (n / 10))|]. split.
    + apply Forall_app. split; [done|].
      apply Forall_cons. split; [|by apply Forall_nil].
      split; [by apply is_digit_ascii | lia].
    + unfold int_of_digits in *. rewrite foldl_app. cbn [foldl].
      rewrite Hval, digit_value_ascii by done. cbn [from_option id].
      pose proof (N.div_mod n 10). lia.
Qed.

Lemma dec_spec n :
  dec n <> []
  /\ Forall (fun c => is_digit c = true /\ c < 128) (dec n)
  /\ int_of_digits (dec n) = Z.of_N n.
Proof. apply dec_digits_spec. lia. Qed.

Lemma dec_many1 n c r :
  is_digit c = false ->
  many1 is_digit (dec n ++ c :: r) = Some (dec n, c :: r).
Proof.
  intros Hc. destruct (dec_spec n) as (Hne & Hall & _).
  apply many1_app; [|done|done].
  eapply Forall_impl; [exact Hall|]. by intros x [? _].
Qed.

Lemma dec_many1_end n : many1 is_digit (dec n) = Some (dec n, []).
Proof.
  destruct (dec_spec n) as (Hne & Hall & _).
  rewrite <- (app_nil_r (dec n)) at 1. apply many1_app; [|done|done].
  eapply Forall_impl; [exact Hall|]. by intros x [? _].
Qed.

Lemma lstrip_dec n r : lstrip (dec n ++ r) = dec n ++ r.
Proof.
  destruct (dec_spec n) as (Hne & Hall & _).
  destruct (dec n) as [|c d]; [done|]. cbn [app lstrip].
  apply Forall_cons in Hall as [[Hc _] _].
  by rewrite (room_not_space c (digit_room_char c Hc)).
Qed.

Lemma range_indicator_fixed a b t :
  Forall fixed_char (range_indicator a b t) /\ trimmed (range_indicator a b t) = true.
Proof.
  assert (Hd : forall n, Forall fixed_char (dec n)).
  { intros n. destruct (dec_spec n) as (_ & Hall & _).
    eapply Forall_impl; [exact Hall|]. intros c [_ Hc]. by apply fixed_ascii. }
  assert (Ht : forall n, trimmed (dec n) = true).
  { intros n. destruct (dec_spec n) as (_ & Hall & _). apply trimmed_room.
    eapply Forall_impl; [exact Hall|]. intros c [Hc _]. by apply digit_room_char. }
  unfold range_indicator. split.
  - rewrite !Forall_app. repeat split; try apply Hd;
      (apply Forall_cons; split; [by vm_compute | by apply Forall_nil]).
  - destruct (dec_spec a) as (Ha & _). destruct (dec_spec t) as (Hn & _).
    rewrite (app_assoc [ch "～"]), (app_assoc ([ch "～"] ++ dec b)).
    by apply trimmed_join.
Qed.

(** X15.  Parsing inverts printing: for all natural numbers [a], [b] and
    [t], [_parse_range_indicator] reads the three numbers back from the
    indicator a～b／t printed in decimal. *)
Theorem parse_range_indicator_round_trip (a b t : N) :
  _parse_range_indicator (range_indicator a b t)
  = Some (Z.of_N a, Z.of_N b, Z.of_N t).
Proof.
  destruct (range_indicator_fixed a b t) as [Hf Ht].
  unfold _parse_range_indicator, norm_text.
  rewrite translate_fixed, strip_trimmed by done.
  assert (Hne : range_indicator a b t <> []).
  { unfold range_indicator. destruct (dec_spec a) as (Ha & _).
    by destruct (dec a). }
  unfold str_eqb. rewrite bool_decide_eq_false_2 by done.
  assert (Hr : range_indicator_at (range_indicator a b t)
               = Some (Z.of_N a, Z.of_N b, Z.of_N t)).
  { unfold range_indicator_at, range_indicator. lits. cbn [app].
    rewrite dec_many1 by (by vm_compute). cbn [mbind option_bind lstrip].
    replace (is_space 65374) with false by (by vm_compute).
    replace (is_tilde 65374) with true by (by vm_compute).
    rewrite lstrip_dec, dec_many1 by (by vm_compute).
    cbn [mbind option_bind lstrip].
    replace (is_space 65295) with false by (by vm_compute).
    replace (is_slash 65295) with true by (by vm_compute).
    rewrite <- (app_nil_r (dec t)), lstrip_dec, app_nil_r, dec_many1_end.
    cbn [mbind option_bind].
    destruct (dec_spec a) as (_ & _ & ->). destruct (dec_spec b) as (_ & _ & ->).
    by destruct (dec_spec t) as (_ & _ & ->). }
  destruct (range_indicator a b t) as [|c s]; [done|].
  cbn [search_range_indicator]. by rewrite Hr.
Qed.

Example parse_range_indicator_round_trip_ex :
  range_indicator 8201 8300 16687 = py "8201～8300／16687".
Proof. by vm_compute. Qed.

(** X16.  The page count that [go_to_next_page] reads off the indicator is
    the ceiling of the total by the page size: with the page size
    [max(1, end - start + 1)], the pages hold the total, and one page less
    would not. *)
Theorem total_pages_is_ceiling (s e total : Z) :
  let per_page := Z.max 1 (e - s + 1) in
  (total <= total_pages (s, e, total) * per_page < total + per_page)%Z.
Proof.
  cbv zeta. unfold total_pages.
  set (p := Z.max 1 (e - s + 1)). assert (Hp : (1 <= p)%Z) by lia.
  pose proof (Z.div_mod (total + p - 1) p ltac:(lia)) as Hd.
  pose proof (Z.mod_pos_bound (total + p - 1) p ltac:(lia)) as Hm.
  nia.
Qed.

(** ** Pagination controller: the order of the strategies *)

(** X17.  [go_to_next_page] tries its three navigation strategies in one
    fixed order and each of them at most once: the calls it makes are a
    prefix of the site's pager function, the form submission and the click
    on the next link, the first two with the page after the current one as
    target.  It answers False when it has tried nothing, and True when it
    has stopped after the first or the second strategy. *)
Theorem go_to_next_page_order {W T} (page : Browser W T) (k : Z) (w : W)
    (log : list call) :
  exists n : nat,
    (go_to_next_page (logged page) k (w, log)).2.2
    = log ++ take n [PageTurning (k + 1); SubmitForm (k + 1); ClickNext]
    /\ (n = 0%nat -> (go_to_next_page (logged page) k (w, log)).1 = false)
    /\ (n = 1%nat \/ n = 2%nat ->
        (go_to_next_page (logged page) k (w, log)).1 = true).
Proof.
  unfold go_to_next_page. rewrite range_text_logged. cbn [fst].
  destruct (match _parse_range_indicator _ with Some _ => _ | None => _ end).
  { exists 0%nat. cbn. rewrite app_nil_r. split; [done|]. split; [done | lia]. }
  cbn [logged call_page_turning submit_form click_next wait_range_change
       wait_for_table diagnostics fst snd].
  destruct (call_page_turning page (k + 1) w) as [invoked w1].
  assert (H1 : forall (b : bool) (w' : W) (l : list call),
            (if b then (let '(b0, w0) := wait_range_change page (_range_text page w) w' in
                        (b0, (w0, l)))
             else (false, (w', l)))
            = ((if b then (wait_range_change page (_range_text page w) w').1 else false),
               ((if b then (wait_range_change page (_range_text page w) w').2 else w'), l))).
  { intros [] w' l; [|done]. by destruct (wait_range_change _ _ _). }
  cbn [fst snd]. rewrite H1.
  destruct (if invoked then _ else false).
  { exists 1%nat. split; [done|]. split; [lia | done]. }
  destruct (submit_form page (k + 1) _) as [submitted w2]. cbn [fst snd].
  rewrite H1.
  destruct (if submitted then _ else false).
  { exists 2%nat. cbn. rewrite <- app_assoc. split; [done|]. split; [lia | done]. }
  destruct (click_next page _) as [clicked w3]. cbn [fst snd negb].
  exists 3%nat. cbn [take]. rewrite <- !app_assoc. cbn [app].
  split; [|split; lia].
  destruct clicked; cbn [negb snd]; [|done].
  destruct (wait_range_change page _ w3) as [changed w4]. cbn [fst snd].
  destruct changed; [done|].
  by destruct (str_eqb _ _).
Qed.

(** ** Harvest loop: pages and answers *)

Lemma harvest_loop_shape {W T A} (page : Browser W T) (scan_rows : T -> A -> result A)
    (fuel : nat) : forall (page_no : Z) (acc : A) (log : list bool) (w : W) h,
  harvest_loop page scan_rows fuel page_no acc log w = Some (Ok h) ->
  exists (n : nat) (last : list bool),
    (n < fuel)%nat
    /\ answers h = log ++ replicate n true ++ last
    /\ (last = [] \/ last = [false])
    /\ reached_last_page h = (page_no + Z.of_nat n + 1)%Z.
Proof.
  induction fuel as [|fuel IH]; intros page_no acc log w h; [done|].
  cbn [harvest_loop].
  destruct (find_table page w) as [table|].
  2:{ intros [= <-]. exists 0%nat, []. cbn. rewrite app_nil_r.
      repeat split; [lia | by left | lia]. }
  destruct (scan_rows table acc) as [acc'|e]; [|done].
  destruct (go_to_next_page page (page_no + 1) w) as [ok w'].
  destruct ok.
  - intros (n & last & Hn & Ha & Hl & Hp)%IH.
    exists (S n), last. rewrite Ha, <- app_assoc. cbn [replicate app].
    repeat split; [lia | done | lia].
  - intros [= <-]. exists 0%nat, [false]. cbn.
    repeat split; [lia | by right | lia].
Qed.

(** X18.  Whatever the site does, a harvest that returns has stopped at the
    first page without result table or at the first refusal of
    [go_to_next_page]: every answer but the last is True, the last is False
    unless the table was missing, and the page number reported is the number
    of advances plus one. *)
Theorem harvest_result_pages_shape {W T A} (page : Browser W T)
    (scan_rows : T -> A -> result A) (fuel : nat) (acc : A) (w : W)
    (h : harvest (W:=W) (A:=A)) :
  harvest_result_pages page scan_rows fuel acc w = Some (Ok h) ->
  exists n : nat,
    (answers h = replicate n true \/ answers h = replicate n true ++ [false])
    /\ reached_last_page h = (Z.of_nat n + 1)%Z.
Proof.
  intros (n & last & _ & Ha & [->| ->] & Hp)%harvest_loop_shape;
    exists n; cbn [app] in Ha; rewrite ?app_nil_r in Ha; (split; [auto | lia]).
Qed.

Lemma harvest_result_pages_shape_witness :
  harvest_result_pages three_pages count_page 5 0%nat 1%Z
  = Some (Ok {| reached_last_page := 3; harvested := 3%nat;
                answers := [true; true; false]; final := 3%Z |})
  /\ exists n : nat,
       ([true; true; false] = replicate n true
        \/ [true; true; false] = replicate n true ++ [false])
       /\ 3%Z = (Z.of_nat n + 1)%Z.
Proof.
  assert (H : harvest_result_pages three_pages count_page 5 0%nat 1%Z
    = Some (Ok {| reached_last_page := 3; harvested := 3%nat;
                  answers := [true; true; false]; final := 3%Z |}))
    by (vm_compute; reflexivity).
  split; [exact H | exact (harvest_result_pages_shape _ _ _ _ _ _ H)].
Defined.

(** ** Row scan *)

Example scan_row_ex :
  (st ← scan_row is_word_ascii {[py "53-101"; py "63PC-G"]} small_store algebra_row;
   Ok (fall_tables st !! py "mon", winter_tables st !! py "thu",
       total_rows st, filled st))
  = Ok (Some [ (py "period", [py "1"; py "2"; py "3"]);
               (py "53-101", [py "A2:Sets"; py "A1:Algebra"; []]);
               (py "63PC-G", [[]; []; []]) ],
        Some [ (py "period", [py "1"; py "2"; py "3"]);
               (py "53-101", [[]; py "A1:Algebra"; []]);
               (py "63PC-G", [[]; py "A2:Sets"; py "A2:Sets"]) ],
        1%nat, 6%nat).
Proof. vm_compute. reflexivity. Qed.

(** *** The scan runs the list of its calls *)

Lemma run_calls_app value cs1 cs2 st :
  run_calls value (cs1 ++ cs2) st
  = (st' ← run_calls value cs1 st; run_calls value cs2 st').
Proof.
  revert st. induction cs1 as [|c cs1 IH]; intros st; cbn [app run_calls]; [done|].
  destruct (run_call value c st) as [st1|e]; cbn [mbind result_bind]; [apply IH | done].
Qed.

Lemma scan_periods_calls targets day room value periods st :
  scan_periods targets day room value periods st
  = run_calls value (period_calls targets day room periods) st.
Proof.
  revert st. induction periods as [|period periods IH]; intros st; [done|].
  cbn [scan_periods period_calls flat_map].
  fold (period_calls targets day room periods).
  generalize dependent (period_calls targets day room periods). intros rest IH.
  destruct (negb _); [apply IH|].
  rewrite !run_calls_app.
  destruct (bool_decide (py "fall" ∈ targets)); cbn [run_calls run_call to_fall
    call_day call_period call_room mbind result_bind].
  - destruct (fill_fall day period room value st) as [st1|e];
      cbn [mbind result_bind]; [|done].
    destruct (bool_decide (py "winter" ∈ targets)); cbn [run_calls run_call to_fall
      call_day call_period call_room mbind result_bind]; [|apply IH].
    destruct (fill_winter day period room value st1) as [st2|e];
      cbn [mbind result_bind]; [apply IH | done].
  - destruct (bool_decide (py "winter" ∈ targets)); cbn [run_calls run_call to_fall
      call_day call_period call_room mbind result_bind]; [|apply IH].
    destruct (fill_winter day period room value st) as [st2|e];
      cbn [mbind result_bind]; [apply IH | done].
Qed.

Lemma scan_pairs_calls is_word room_set targets code name pairs st :
  scan_pairs is_word room_set targets code name pairs st
  = run_calls (code ++ py ":" ++ name) (pair_calls is_word room_set targets pairs) st.
Proof.
  revert st. induction pairs as [|[day_str room_str] pairs IH]; intros st; [done|].
  cbn [scan_pairs pair_calls flat_map fst snd]. cbv zeta.
  fold (pair_calls is_word room_set targets pairs).
  generalize dependent (pair_calls is_word room_set targets pairs). intros rest IH.
  destruct (parse_day_periods is_word day_str) as [[day periods]|]; [|apply IH].
  destruct (str_eqb (norm_room room_str) []); [apply IH|].
  destruct (negb (bool_decide (day ∈ WEEKDAYS))); [apply IH|].
  destruct (negb (bool_decide (norm_room room_str ∈ room_set))); [apply IH|].
  rewrite run_calls_app, scan_periods_calls.
  destruct (run_calls _ (period_calls _ _ _ _) st); cbn [mbind result_bind];
    [apply IH | done].
Qed.

Lemma period_calls_ok targets day room periods :
  Forall (fun c => call_day c = day /\ call_room c = room
                   /\ (1 <= call_period c <= 6)%Z)
         (period_calls targets day room periods).
Proof.
  induction periods as [|period periods IH]; cbn [period_calls flat_map];
    [by apply Forall_nil|].
  fold (period_calls targets day room periods).
  apply Forall_app. split; [|exact IH]. clear IH.
  destruct (negb _) eqn:E; [by apply Forall_nil|].
  apply negb_false_iff, andb_true_iff in E as [?%Z.leb_le ?%Z.leb_le].
  apply Forall_app. split; destruct (bool_decide _); try (by apply Forall_nil);
    (apply Forall_cons; split; [done | by apply Forall_nil]).
Qed.

Lemma pair_calls_ok is_word room_set targets pairs :
  Forall (fun c => call_day c ∈ WEEKDAYS /\ call_room c ∈ room_set
                   /\ (1 <= call_period c <= 6)%Z)
         (pair_calls is_word room_set targets pairs).
Proof.
  induction pairs as [|[day_str room_str] pairs IH]; cbn [pair_calls flat_map fst snd];
    [by apply Forall_nil|].
  fold (pair_calls is_word room_set targets pairs).
  apply Forall_app. split; [|exact IH]. clear IH.
  destruct (parse_day_periods is_word day_str) as [[day periods]|]; [|by apply Forall_nil].
  cbv zeta. destruct (str_eqb _ _); [by apply Forall_nil|].
  destruct (bool_decide (day ∈ WEEKDAYS)) eqn:Ed; cbn [negb]; [|by apply Forall_nil].
  destruct (bool_decide (_ ∈ room_set)) eqn:Er; cbn [negb]; [|by apply Forall_nil].
  apply bool_decide_eq_true in Ed, Er.
  eapply Forall_impl; [apply period_calls_ok|].
  intros c (-> & -> & ?). done.
Qed.

(** *** The scan raises nothing on well-formed tables *)

Lemma fill_ok tables day period room value :
  tables_ok tables -> day ∈ WEEKDAYS -> room <> py "period" ->
  exists tables', fill tables day period room value = Ok tables'
                  /\ tables_ok tables'.
Proof.
  intros Hok Hday Hroom. unfold fill.
  destruct (Hok day Hday) as (df & -> & Hwf).
  destruct (put_cell_total_aux df period room value Hwf) as (df' & -> & Hwf').
  cbn [mbind result_bind]. eexists. split; [done|].
  intros day2 Hday2. destruct (decide (day2 = day)) as [->|Hne].
  - exists df'. rewrite lookup_insert_eq. auto.
  - rewrite lookup_insert_ne by done. by apply Hok.
Qed.

Lemma run_call_ok value c st :
  store_ok st -> call_day c ∈ WEEKDAYS -> call_room c <> py "period" ->
  exists st', run_call value c st = Ok st' /\ store_ok st'
              /\ total_rows st' = total_rows st /\ filled st' = S (filled st).
Proof.
  intros [Hf Hw] Hday Hroom. unfold run_call, fill_fall, fill_winter.
  destruct (to_fall c).
  - destruct (fill_ok _ _ (call_period c) _ value Hf Hday Hroom) as (t & -> & Ht).
    cbn [mbind result_bind]. eexists. split; [done|]. by split; [split|].
  - destruct (fill_ok _ _ (call_period c) _ value Hw Hday Hroom) as (t & -> & Ht).
    cbn [mbind result_bind]. eexists. split; [done|]. by split; [split|].
Qed.

Lemma run_calls_ok value cs : forall st,
  store_ok st ->
  Forall (fun c => call_day c ∈ WEEKDAYS /\ call_room c <> py "period") cs ->
  exists st', run_calls value cs st = Ok st' /\ store_ok st'
              /\ total_rows st' = total_rows st
              /\ filled st' = (filled st + length cs)%nat.
Proof.
  induction cs as [|c cs IH]; intros st Hok Hcs; cbn [run_calls length].
  - exists st. split; [done|]. split; [done|]. split; [done | lia].
  - apply Forall_cons in Hcs as [[Hd Hr] Hcs].
    destruct (run_call_ok value c st Hok Hd Hr) as (st1 & -> & Hok1 & Ht1 & Hf1).
    cbn [mbind result_bind].
    destruct (IH st1 Hok1 Hcs) as (st2 & -> & Hok2 & Ht2 & Hf2).
    exists st2. split; [done|]. split; [done|]. split; lia.
Qed.

Section RowScanFacts.

Variable is_word : char -> bool.
Variable room_set : gset str.
Hypothesis period_no_room : py "period" ∉ room_set.

Lemma pair_calls_safe targets pairs :
  Forall (fun c => call_day c ∈ WEEKDAYS /\ call_room c <> py "period")
         (pair_calls is_word room_set targets pairs).
Proof.
  eapply Forall_impl; [apply pair_calls_ok|].
  intros c (Hd & Hr & _). split; [done|]. intros E. by rewrite E in Hr.
Qed.

Lemma scan_row_ok st r :
  store_ok st ->
  exists st', scan_row is_word room_set st r = Ok st' /\ store_ok st'.
Proof.
  intros Hok. unfold scan_row. cbv zeta.
  destruct (targets_from_term _) as [|t ts]; [by exists st|].
  rewrite scan_pairs_calls.
  match goal with
  | |- context [run_calls ?v ?cs st] =>
    destruct (run_calls_ok v cs st Hok (pair_calls_safe (t :: ts) _))
      as (st1 & -> & Hok1 & _)
  end.
  cbn [mbind result_bind]. eexists. split; [done|]. exact Hok1.
Qed.


End RowScanFacts.


Lemma small_store_ok : store_ok small_store.
Proof.
  assert (H : tables_ok (week_of mon_csv)).
  { intros day Hday. exists mon_csv. split.
    - unfold WEEKDAYS in Hday. apply list_elem_of_In in Hday. cbn [In] in Hday.
      destruct Hday as [<-|[<-|[<-|[<-|[<-|[]]]]]]; by vm_compute.
    - exists [1; 2; 3]%Z. split; [by vm_compute|].
      vm_compute. repeat constructor. }
  by split.
Qed.

Lemma period_not_small : py "period" ∉ ({[py "53-101"; py "63PC-G"]} : gset str).
Proof.
  intros [H|H]%elem_of_union; apply elem_of_singleton in H; by vm_compute in H.
Qed.





Example harvest_rows_ex :
  (match harvest_result_pages row_pages
           (scan_rows is_word_ascii {[py "53-101"; py "63PC-G"]}) 5 small_store 1%Z with
   | Some (Ok h) =>
     Some (reached_last_page h, total_rows (harvested h), filled (harvested h),
           fall_tables (harvested h) !! py "mon")
   | _ => None
   end)
  = Some (3%Z, 3%nat, 18%nat,
          Some [ (py "period", [py "1"; py "2"; py "3"]);
                 (py "53-101", [py "A2:Sets"; py "A1:Algebra"; []]);
                 (py "63PC-G", [[]; []; []]) ]).
Proof. vm_compute. reflexivity. Qed.

(** *** The scan writes only to rooms of the room set, on weekdays *)

Lemma fill_inv tables day period room value tables' :
  fill tables day period room value = Ok tables' ->
  exists df df', tables !! day = Some df
                 /\ put_cell df period room value = Ok df'
                 /\ tables' = <[day := df']> tables.
Proof.
  unfold fill. destruct (tables !! day) as [df|]; [|done].
  destruct (put_cell df period room value) as [df'|] eqn:E; [|done].
  cbn [mbind result_bind]. intros [= <-]. by exists df, df'.
Qed.

Lemma put_cell_other_cell df df' period room value i room' :
  put_cell df period room value = Ok df' -> room' <> room ->
  get_at df' i room' = get_at df i room'.
Proof.
  intros [_ ->| ? ? ? _ _ _ _ _ _ ->| ? ? ? ? _ _ _ _ _ ->]%put_cell_inv Hne;
    [done | done |].
  apply get_at_set_at_other. by left.
Qed.

Lemma fill_other_cell tables day period room value tables' day' i room' :
  fill tables day period room value = Ok tables' ->
  room' <> room \/ day' <> day ->
  cell_at tables' day' i room' = cell_at tables day' i room'.
Proof.
  intros (df & df' & Hdf & Hput & ->)%fill_inv Hne. unfold cell_at.
  destruct (decide (day' = day)) as [->|Hd]; [|by rewrite lookup_insert_ne].
  rewrite lookup_insert_eq, Hdf. cbn [mbind option_bind].
  destruct Hne as [Hne|Hne]; [|done]. by eapply put_cell_other_cell.
Qed.

Lemma run_calls_other_cell value cs day' i room' : forall st st',
  run_calls value cs st = Ok st' ->
  Forall (fun c => call_room c <> room' \/ call_day c <> day') cs ->
  cell_at (fall_tables st') day' i room' = cell_at (fall_tables st) day' i room'
  /\ cell_at (winter_tables st') day' i room'
     = cell_at (winter_tables st) day' i room'.
Proof.
  induction cs as [|c cs IH]; intros st st' Hrun Hcs; cbn [run_calls] in Hrun.
  - by injection Hrun as <-.
  - apply Forall_cons in Hcs as [Hc Hcs].
    destruct (run_call value c st) as [st1|] eqn:E1; [|done].
    cbn [mbind result_bind] in Hrun.
    destruct (IH st1 st' Hrun Hcs) as [-> ->].
    unfold run_call, fill_fall, fill_winter in E1.
    assert (Hne : room' <> call_room c \/ day' <> call_day c)
      by (destruct Hc; [left | right]; congruence).
    destruct (to_fall c).
    + destruct (fill (fall_tables st) _ _ _ _) as [t|] eqn:Ef; [|done].
      cbn [mbind result_bind] in E1. injection E1 as <-. cbn [fall_tables winter_tables].
      split; [|done]. by eapply fill_other_cell.
    + destruct (fill (winter_tables st) _ _ _ _) as [t|] eqn:Ef; [|done].
      cbn [mbind result_bind] in E1. injection E1 as <-. cbn [fall_tables winter_tables].
      split; [done|]. by eapply fill_other_cell.
Qed.

(** X21.  The scan of a row writes only to columns of the room set and to
    the tables of the five weekdays: every cell of a column that is no room
    of the room set, and every cell of a table of another day, is after the
    scan what it was before, in the fall tables and in the winter tables. *)
Theorem scan_row_frame (is_word : char -> bool) (room_set : gset str)
    (st st' : store) (r : row) (day : str) (i : nat) (room : str) :
  scan_row is_word room_set st r = Ok st' ->
  room ∉ room_set \/ day ∉ WEEKDAYS ->
  cell_at (fall_tables st') day i room = cell_at (fall_tables st) day i room
  /\ cell_at (winter_tables st') day i room = cell_at (winter_tables st) day i room.
Proof.
  unfold scan_row. cbv zeta. intros Hscan Hout.
  destruct (targets_from_term _) as [|t ts]; [by injection Hscan as <-|].
  rewrite scan_pairs_calls in Hscan.
  destruct (run_calls _ _ st) as [st1|] eqn:E; [|done].
  cbn [mbind result_bind] in Hscan. injection Hscan as <-.
  cbn [fall_tables winter_tables].
  eapply run_calls_other_cell; [exact E|].
  eapply Forall_impl; [apply pair_calls_ok|].
  intros c (Hd & Hr & _).
  destruct Hout as [Ho|Ho]; [left | right]; intros Heq; by rewrite Heq in *.
Qed.

Lemma period_not_one : py "period" ∉ ({[py "53-101"]} : gset str).
Proof. intros E%elem_of_singleton. by vm_compute in E. Qed.

Lemma scan_row_frame_witness :
  exists st',
    scan_row is_word_ascii {[py "53-101"]} small_store algebra_row = Ok st'
    /\ cell_at (fall_tables st') (py "thu") 1 (py "63PC-G")
       = cell_at (fall_tables small_store) (py "thu") 1 (py "63PC-G")
    /\ cell_at (winter_tables st') (py "thu") 1 (py "63PC-G")
       = cell_at (winter_tables small_store) (py "thu") 1 (py "63PC-G").
Proof.
  destruct (scan_row_ok is_word_ascii {[py "53-101"]} period_not_one
              small_store algebra_row small_store_ok) as (st' & H & _).
  exists st'. split; [exact H|].
  apply (scan_row_frame is_word_ascii {[py "53-101"]} small_store st' algebra_row);
    [exact H|].
  left. intros E%elem_of_singleton. by vm_compute in E.
Defined.

(** *** Scanning a row again changes no table *)

Lemma listed_put df period room value :
  listed df period room value -> put_cell df period room value = Ok df.
Proof.
  intros H. unfold put_cell.
  destruct (bool_decide (room ∈ columns df)) eqn:Er; cbn [negb]; [|done].
  apply bool_decide_eq_true in Er.
  destruct H as [H|(periods & Hpv & H)]; [done|].
  apply period_values_inv in Hpv as (cells & -> & ->).
  destruct (bool_decide (period ∈ periods)) eqn:Ep; cbn [negb]; [|done].
  apply bool_decide_eq_true in Ep.
  destruct H as [H|(idx & cell & Hi & Hfirst & Hg & Hne & Hv)]; [done|].
  assert (list_find (fun p => p = period) periods = Some (idx, period)) as ->.
  { apply list_find_Some. split; [done|]. split; [done|].
    intros j y Hj Hlt ->. by eapply Hfirst. }
  rewrite Hg. unfold str_eqb. rewrite bool_decide_eq_false_2 by done.
  by rewrite bool_decide_eq_true_2.
Qed.

Lemma columns_shape df : columns df = (shape df).*1.
Proof.
  unfold columns, shape. induction df as [|c df IH]; [done|].
  cbn. by rewrite IH.
Qed.

Lemma period_values_set_at df idx room new :
  room <> py "period" ->
  period_values (set_at df idx room new) = period_values df.
Proof. intros H. unfold period_values. by rewrite dict_get_set_at_ne. Qed.

Lemma put_listed df period room value df' :
  put_cell df period room value = Ok df' ->
  atomic value -> room <> py "period" ->
  listed df' period room value.
Proof.
  intros [[Hr|(ps & Hps & Hp)] ->
         | ps idx cell Hps Hi Hfirst Hg Hne Hv ->
         | ps idx cell new Hps Hi Hfirst Hg Hnew ->]%put_cell_inv Ha Hroom.
  - by left.
  - right. exists ps. split; [done | by left].
  - right. exists ps. split; [done|]. right. by exists idx, cell.
  - right. exists ps. split; [by rewrite period_values_set_at|]. right.
    destruct (new_cell_lists cell new value Ha Hnew) as [Hn Hvals].
    exists idx, new. split; [done|]. split; [done|].
    split; [by eapply get_at_set_at|]. split; [done|].
    rewrite Hvals. set_solver.
Qed.

Lemma listed_preserved df p0 r0 v0 period room value df' :
  listed df p0 r0 v0 ->
  put_cell df period room value = Ok df' ->
  atomic value -> room <> py "period" ->
  listed df' p0 r0 v0.
Proof.
  intros Hl [_ ->| ? ? ? _ _ _ _ _ _ ->
            | ps idx cell new Hps Hi Hfirst Hg Hnew ->]%put_cell_inv Ha Hroom;
    [done | done |].
  destruct Hl as [Hl|(ps0 & Hps0 & Hl)].
  - left. by rewrite columns_shape, set_at_shape, <- columns_shape.
  - right. exists ps0. split; [by rewrite period_values_set_at|].
    destruct Hl as [Hl|(idx0 & cell0 & Hi0 & Hf0 & Hg0 & Hne0 & Hv0)]; [by left|].
    right. destruct (decide (r0 = room /\ idx0 = idx)) as [[-> ->]|Hd].
    + destruct (new_cell_lists cell new value Ha Hnew) as [Hn Hvals].
      assert (cell0 = cell) as -> by congruence.
      exists idx, new. split; [done|]. split; [done|].
      split; [by eapply get_at_set_at|]. split; [done|].
      rewrite Hvals. set_solver.
    + exists idx0, cell0. split; [done|]. split; [done|]. split; [|done].
      rewrite get_at_set_at_other; [done|].
      destruct (decide (r0 = room)) as [->|]; [right | by left].
      intros ->. by apply Hd.
Qed.

Lemma run_call_inv value c st st' :
  run_call value c st = Ok st' ->
  exists df df',
    call_table c st = Some df
    /\ put_cell df (call_period c) (call_room c) value = Ok df'
    /\ call_table c st' = Some df'
    /\ (forall c0, (to_fall c0 = to_fall c /\ call_day c0 = call_day c)
                   \/ call_table c0 st' = call_table c0 st)
    /\ total_rows st' = total_rows st /\ filled st' = S (filled st).
Proof.
  unfold run_call, fill_fall, fill_winter, call_table.
  destruct (to_fall c) eqn:Ec.
  - destruct (fill (fall_tables st) _ _ _ _) as [t|] eqn:Ef; [|done].
    cbn [mbind result_bind]. intros [= <-]. cbn [fall_tables winter_tables total_rows filled].
    apply fill_inv in Ef as (df & df' & Hdf & Hput & ->).
    exists df, df'. rewrite lookup_insert_eq. repeat split; try done.
    intros c0. destruct (to_fall c0); [|by right].
    destruct (decide (call_day c0 = call_day c)) as [E|Hne]; [by left | right].
    by rewrite lookup_insert_ne.
  - destruct (fill (winter_tables st) _ _ _ _) as [t|] eqn:Ef; [|done].
    cbn [mbind result_bind]. intros [= <-]. cbn [fall_tables winter_tables total_rows filled].
    apply fill_inv in Ef as (df & df' & Hdf & Hput & ->).
    exists df, df'. rewrite lookup_insert_eq. repeat split; try done.
    intros c0. destruct (to_fall c0); [by right|].
    destruct (decide (call_day c0 = call_day c)) as [E|Hne]; [by left | right].
    by rewrite lookup_insert_ne.
Qed.

Lemma call_table_same c0 c st :
  to_fall c0 = to_fall c -> call_day c0 = call_day c ->
  call_table c0 st = call_table c st.
Proof. unfold call_table. by intros -> ->. Qed.

Lemma run_call_listed value c st st' :
  run_call value c st = Ok st' ->
  atomic value -> call_room c <> py "period" ->
  call_listed value st' c
  /\ (forall c0, call_listed value st c0 -> call_listed value st' c0).
Proof.
  intros (df & df' & Hdf & Hput & Hdf' & Hothers & _)%run_call_inv Ha Hroom. split.
  - exists df'. split; [done|]. by eapply put_listed.
  - intros c0 (df0 & Hdf0 & Hl0).
    destruct (Hothers c0) as [[E1 E2]|E].
    + rewrite (call_table_same c0 c st E1 E2), Hdf in Hdf0. injection Hdf0 as <-.
      exists df'. split; [by rewrite (call_table_same c0 c st' E1 E2)|].
      by eapply listed_preserved.
    + exists df0. split; [congruence | done].
Qed.

Lemma run_calls_listed value cs : forall st st',
  run_calls value cs st = Ok st' ->
  atomic value -> Forall (fun c => call_room c <> py "period") cs ->
  Forall (call_listed value st') cs
  /\ (forall c0, call_listed value st c0 -> call_listed value st' c0)
  /\ total_rows st' = total_rows st
  /\ filled st' = (filled st + length cs)%nat.
Proof.
  induction cs as [|c cs IH]; intros st st' Hrun Ha Hcs; cbn [run_calls length] in *.
  - injection Hrun as <-. split; [by apply Forall_nil|]. split; [done|]. split; lia.
  - apply Forall_cons in Hcs as [Hc Hcs].
    destruct (run_call value c st) as [st1|] eqn:E1; [|done].
    cbn [mbind result_bind] in Hrun.
    destruct (run_call_listed value c st st1 E1 Ha Hc) as [Hl1 Hp1].
    apply run_call_inv in E1 as (_ & _ & _ & _ & _ & _ & Ht1 & Hf1).
    destruct (IH st1 st' Hrun Ha Hcs) as (Hall & Hp & Ht & Hf).
    split; [apply Forall_cons; split; [by apply Hp | done]|].
    split; [intros c0 H0; by apply Hp, Hp1|]. split; lia.
Qed.

Lemma run_call_settled value c st :
  call_listed value st c ->
  exists st', run_call value c st = Ok st'
    /\ fall_tables st' = fall_tables st /\ winter_tables st' = winter_tables st
    /\ total_rows st' = total_rows st /\ filled st' = S (filled st).
Proof.
  intros (df & Hdf & Hl%listed_put). unfold call_table in Hdf.
  unfold run_call, fill_fall, fill_winter, fill.
  destruct (to_fall c); rewrite Hdf, Hl; cbn [mbind result_bind];
    eexists; (split; [done|]); cbn [fall_tables winter_tables total_rows filled];
    rewrite insert_id by done; done.
Qed.

Lemma run_calls_settled value cs : forall st,
  Forall (call_listed value st) cs ->
  exists st', run_calls value cs st = Ok st'
    /\ fall_tables st' = fall_tables st /\ winter_tables st' = winter_tables st
    /\ total_rows st' = total_rows st
    /\ filled st' = (filled st + length cs)%nat.
Proof.
  induction cs as [|c cs IH]; intros st Hcs; cbn [run_calls length].
  - exists st. repeat split; (done || lia).
  - apply Forall_cons in Hcs as [Hc Hcs].
    destruct (run_call_settled value c st Hc) as (st1 & -> & Hf1 & Hw1 & Ht1 & Hn1).
    cbn [mbind result_bind].
    destruct (IH st1) as (st2 & -> & Hf2 & Hw2 & Ht2 & Hn2).
    { eapply Forall_impl; [exact Hcs|]. intros c0 (df & Hdf & Hl).
      exists df. split; [|done]. unfold call_table in *. by rewrite Hf1, Hw1. }
    exists st2. repeat split; (congruence || lia).
Qed.

Lemma trimmed_mid (a : str) c (b : str) :
  is_space c = false -> trimmed a = true -> trimmed b = true ->
  trimmed (a ++ c :: b) = true.
Proof.
  intros Hc Ha Hb. destruct a as [|x a], b as [|y b].
  - unfold trimmed. cbn. by rewrite Hc.
  - unfold trimmed in *. apply andb_true_iff in Hb as [_ Hy].
    cbn [app]. rewrite Hc. cbn [negb andb].
    change (List.last (c :: y :: b) c) with (List.last (y :: b) c).
    by rewrite (last_default (y :: b) c y).
  - unfold trimmed in *. apply andb_true_iff in Ha as [Hx _].
    cbn [app]. rewrite Hx. cbn [andb].
    rewrite app_comm_cons, List.last_last. by rewrite Hc.
  - change (c :: y :: b) with ([c] ++ y :: b). by apply trimmed_join.
Qed.

Lemma value_atomic code name :
  trimmed code = true -> trimmed name = true ->
  ch ";" ∉ code -> ch ";" ∉ name ->
  atomic (code ++ py ":" ++ name).
Proof.
  intros Hc Hn Hsc Hsn. lits. cbn [app]. split; [by destruct code|]. split.
  - by apply trimmed_mid.
  - intros [H|H]%elem_of_app; [done|].
    apply elem_of_cons in H as [H|H]; [by vm_compute in H | done].
Qed.

Lemma scan_row_rescan (is_word : char -> bool) (room_set : gset str)
    (st st1 : store) (r : row) :
  py "period" ∉ room_set ->
  ch ";" ∉ norm_text (code_text r) -> ch ";" ∉ norm_text (name_text r) ->
  scan_row is_word room_set st r = Ok st1 ->
  exists st2,
    scan_row is_word room_set st1 r = Ok st2
    /\ fall_tables st2 = fall_tables st1
    /\ winter_tables st2 = winter_tables st1
    /\ (total_rows st2 + total_rows st = 2 * total_rows st1)%nat
    /\ (filled st2 + filled st = 2 * filled st1)%nat.
Proof.
  intros Hp Hc Hn. unfold scan_row. cbv zeta.
  destruct (targets_from_term _) as [|t ts].
  { intros [= <-]. exists st. split; [done|]. split; [done|]. split; [done|]. split; lia. }
  rewrite !scan_pairs_calls.
  set (value := norm_text (code_text r) ++ py ":" ++ norm_text (name_text r)).
  set (cs := pair_calls is_word room_set (t :: ts) _).
  assert (Ha : atomic value)
    by (apply value_atomic; (apply norm_text_trimmed || done)).
  assert (Hcs : Forall (fun c => call_room c <> py "period") cs).
  { eapply Forall_impl; [apply pair_calls_ok|].
    intros c (_ & Hr & _) E. by rewrite E in Hr. }
  destruct (run_calls value cs st) as [st0|] eqn:E0; [|done].
  cbn [mbind result_bind]. intros [= <-].
  destruct (run_calls_listed value cs st st0 E0 Ha Hcs) as (Hall & _ & Ht0 & Hf0).
  set (st1 := {| fall_tables := fall_tables st0; winter_tables := winter_tables st0;
                 total_rows := S (total_rows st0); filled := filled st0 |}).
  destruct (run_calls_settled value cs st1) as (st2 & -> & Hf2 & Hw2 & Ht2 & Hn2).
  { eapply Forall_impl; [exact Hall|]. intros c (df & Hdf & Hl). by exists df. }
  cbn [mbind result_bind]. eexists. split; [done|].
  subst st1. cbn [fall_tables winter_tables total_rows filled] in *.
  split; [done|]. split; [done|]. split; lia.
Qed.

(** X22.  Scanning a row once more changes no table: when neither the
    course code nor the course name holds a semicolon and no room of the
    room set is called period, a second scan of a row that was scanned
    leaves every cell of the fall and winter tables as it is.  The counters
    do not see this: the second scan adds to [total_rows] and to [filled]
    what the first scan added. *)
Theorem scan_row_again (is_word : char -> bool) (room_set : gset str)
    (st st1 : store) (r : row) :
  py "period" ∉ room_set ->
  ch ";" ∉ norm_text (code_text r) -> ch ";" ∉ norm_text (name_text r) ->
  scan_row is_word room_set st r = Ok st1 ->
  exists st2,
    scan_row is_word room_set st1 r = Ok st2
    /\ fall_tables st2 = fall_tables st1
    /\ winter_tables st2 = winter_tables st1
    /\ (total_rows st2 + total_rows st = 2 * total_rows st1)%nat
    /\ (filled st2 + filled st = 2 * filled st1)%nat.
Proof. apply scan_row_rescan. Qed.


Lemma no_semicolon_code : ch ";" ∉ norm_text (code_text algebra_row).
Proof.
  intros Hin%list_elem_of_In. vm_compute in Hin. intuition discriminate.
Qed.

Lemma no_semicolon_name : ch ";" ∉ norm_text (name_text algebra_row).
Proof.
  intros Hin%list_elem_of_In. vm_compute in Hin. intuition discriminate.
Qed.

Lemma scan_row_again_witness :
  exists st1 st2,
    scan_row is_word_ascii {[py "53-101"; py "63PC-G"]} small_store algebra_row
    = Ok st1
    /\ scan_row is_word_ascii {[py "53-101"; py "63PC-G"]} st1 algebra_row = Ok st2
    /\ fall_tables st2 = fall_tables st1
    /\ winter_tables st2 = winter_tables st1
    /\ (total_rows st2 + total_rows small_store = 2 * total_rows st1)%nat
    /\ (filled st2 + filled small_store = 2 * filled st1)%nat.
Proof.
  destruct (scan_row_ok is_word_ascii _ period_not_small
              small_store algebra_row small_store_ok) as (st1 & H & _).
  destruct (scan_row_again is_word_ascii _ small_store st1 algebra_row
              period_not_small no_semicolon_code no_semicolon_name H) as (st2 & H2).
  exists st1, st2. split; [exact H | exact H2].
Defined.

(** ** Day and period parser: reading back the Japanese forms *)

Lemma dict_get_key {K V} `{EqDecision K} (d : list (K * V)) k v :
  dict_get d k = Some v -> k ∈ d.*1.
Proof.
  induction d as [|[k' v'] d IH]; cbn [dict_get]; [done|].
  destruct (decide (k = k')) as [->|]; [intros _; by left | intros H; right; by apply IH].
Qed.

Lemma day_char_facts d day :
  dict_get DAY_MAP_JA d = Some day ->
  fixed_char d /\ is_space d = false /\ is_digit d = false
  /\ d <> ch "無" /\ d <> ch "O".
Proof.
  intros H%dict_get_key. revert d H. apply Forall_forall.
  change (DAY_MAP_JA.*1) with (List.map fst DAY_MAP_JA). unfold DAY_MAP_JA.
  cbn [List.map fst]. lits.
  repeat (apply Forall_cons; split;
          [unfold fixed_char; repeat split; by vm_compute|]).
  by apply Forall_nil.
Qed.

Lemma is_period_cases a :
  is_period a = true ->
  a = 49 \/ a = 50 \/ a = 51 \/ a = 52 \/ a = 53 \/ a = 54 \/ a = 55.
Proof. unfold is_period. lits. lia. Qed.

Lemma sub_to_plain is_word s : forall prev,
  Forall (fun c => c <> ch "t" /\ c <> ch "T") s ->
  sub_to is_word false prev s = s.
Proof.
  induction s as [|c s IH]; intros prev Hs; [done|].
  apply Forall_cons in Hs as [[H1 H2] Hs]. cbn [sub_to].
  rewrite (proj2 (N.eqb_neq c (ch "t")) H1), (proj2 (N.eqb_neq c (ch "T")) H2).
  cbn [orb]. rewrite andb_false_r. cbn [andb].
  destruct s; by rewrite IH.
Qed.

(** What the parser does with a text that begins with a day character
    and whose normalised form is the text itself. *)
Lemma parse_day_periods_ja is_word d day rest :
  dict_get DAY_MAP_JA d = Some day ->
  Forall fixed_char rest -> trimmed (d :: rest) = true ->
  Forall (fun c => c <> ch "O") rest ->
  parse_day_periods is_word (d :: rest)
  = (let rest := sub_to is_word false None (replace (py "時限") (py " ") rest) in
     match search_range rest with
     | Some (a, b) =>
       let a := int_of_digit a in
       let b := int_of_digit b in
       let '(lo, hi) := if (a <=? b)%Z then (a, b) else (b, a) in
       Some (day, py_range lo (hi + 1))
     | None =>
       let nums := List.map int_of_digit (findall_period is_word None rest) in
       match nums with
       | [] => None
       | _ => Some (day, dedup_loop nums ∅ [])
       end
     end).
Proof.
  intros Hd Hf Ht Ho. destruct (day_char_facts d day Hd) as (Hfd & Hsp & Hdig & Hmu & HO).
  unfold parse_day_periods, norm_text.
  rewrite translate_fixed by (by apply Forall_cons).
  rewrite strip_trimmed by done.
  assert (strip_key_prefix (d :: rest) = d :: rest) as ->.
  { unfold strip_key_prefix. cbn [lstrip]. rewrite Hsp.
    unfold one_or_two. by rewrite Hdig. }
  lits. cbn [startswith]. rewrite (proj2 (N.eqb_neq _ _) (not_eq_sym Hmu)).
  cbn [andb orb]. rewrite !contains_absent by (apply Forall_cons; split; done).
  cbn [orb search_ja]. rewrite Hd. cbn [mbind option_bind]. done.
Qed.

Ltac period_cases H :=
  apply is_period_cases in H;
  destruct H as [->|[->|[->|[->|[->|[->| ->]]]]]].

Ltac ja_side d Hsp :=
  first
    [ repeat (apply Forall_cons; split; [by vm_compute|]); by apply Forall_nil
    | unfold trimmed; cbn [List.last]; rewrite Hsp; by vm_compute ].

Lemma parse_day_periods_range_aux is_word d day a b :
  dict_get DAY_MAP_JA d = Some day ->
  is_period a = true -> is_period b = true ->
  parse_day_periods is_word ([d; a; ch "-"; b] ++ py "時限")
  = Some (day, py_range (Z.min (int_of_digit a) (int_of_digit b))
                        (Z.max (int_of_digit a) (int_of_digit b) + 1)).
Proof.
  intros Hd Ha Hb. destruct (day_char_facts d day Hd) as (_ & Hsp & _).
  lits. cbn [app].
  period_cases Ha; period_cases Hb;
    (rewrite (parse_day_periods_ja is_word d day _ Hd) by ja_side d Hsp);
    lits;
    match goal with
    | |- context [replace ?o ?n ?s] =>
      let v := eval vm_compute in (replace o n s) in
      change (replace o n s) with v
    end;
    (rewrite sub_to_plain
       by (repeat (apply Forall_cons; split; [by vm_compute|]); by apply Forall_nil));
    cbv zeta;
    match goal with
    | |- context [search_range ?s] =>
      let v := eval vm_compute in (search_range s) in
      change (search_range s) with v
    end;
    cbv iota beta; f_equal; f_equal; vm_compute; reflexivity.
Qed.

Lemma period_char_facts a :
  is_period a = true ->
  a < 128 /\ a <> 79 /\ (a <> 116 /\ a <> 84) /\ (26178 =? a) = false.
Proof. intros Ha%is_period_cases. lia. Qed.

Lemma parse_day_periods_single_aux is_word d day a :
  dict_get DAY_MAP_JA d = Some day -> is_period a = true ->
  is_word a = true -> is_word (ch " ") = false ->
  parse_day_periods is_word ([d; a] ++ py "時限") = Some (day, [int_of_digit a]).
Proof.
  intros Hd Ha Hwa Hws. destruct (day_char_facts d day Hd) as (_ & Hsp & _).
  destruct (period_char_facts a Ha) as (H128 & HO & Ht & Hji).
  lits. cbn [app].
  rewrite (parse_day_periods_ja is_word d day _ Hd).
  2:{ apply Forall_cons. split; [by apply fixed_ascii|].
      repeat (apply Forall_cons; split; [by vm_compute|]). by apply Forall_nil. }
  2:{ unfold trimmed. cbn [List.last]. rewrite Hsp. by vm_compute. }
  2:{ apply Forall_cons. split; [done|].
      repeat (apply Forall_cons; split; [by vm_compute|]). by apply Forall_nil. }
  lits.
  assert (replace [26178; 38480] [32] [a; 26178; 38480] = [a; 32]) as ->.
  { unfold replace. cbn [replace_from startswith]. rewrite Hji.
    cbn [andb]. rewrite !N.eqb_refl. done. }
  rewrite sub_to_plain.
  2:{ apply Forall_cons. split; [done|].
      apply Forall_cons. split; [by vm_compute | by apply Forall_nil]. }
  cbv zeta.
  assert (search_range [a; 32] = None) as ->.
  { cbn [search_range range_at lstrip]. rewrite Ha.
    replace (is_space 32) with true by (by vm_compute).
    replace (is_period 32) with false by (by vm_compute). done. }
  cbn [findall_period head]. rewrite Ha.
  unfold boundary, wordy. rewrite Hwa, Hws. cbn [xorb andb].
  replace (is_period 32) with false by (by vm_compute).
  cbn [andb List.map dedup_loop].
  rewrite decide_False by set_solver. done.
Qed.

(** X24.  The day parser reads back the Japanese range form: for every day
    character and all periods [a] and [b] between 1 and 7, the text made of
    the day character, [a], a hyphen, [b] and 時限 gives the day and the
    periods from the smaller to the larger of [a] and [b]. *)
Theorem parse_day_periods_reads_range (is_word : char -> bool) (d : char)
    (day : str) (a b : char) :
  dict_get DAY_MAP_JA d = Some day ->
  is_period a = true -> is_period b = true ->
  parse_day_periods is_word ([d; a; ch "-"; b] ++ py "時限")
  = Some (day, py_range (Z.min (int_of_digit a) (int_of_digit b))
                        (Z.max (int_of_digit a) (int_of_digit b) + 1)).
Proof. apply parse_day_periods_range_aux. Qed.

Lemma parse_day_periods_reads_range_witness :
  parse_day_periods is_word_ascii ([ch "月"; ch "5"; ch "-"; ch "4"] ++ py "時限")
  = Some (py "mon", py_range (Z.min (int_of_digit (ch "5")) (int_of_digit (ch "4")))
                             (Z.max (int_of_digit (ch "5")) (int_of_digit (ch "4")) + 1)).
Proof.
  apply parse_day_periods_reads_range; by vm_compute.
Defined.

(** X25.  The day parser reads back the Japanese single form: for every
    day character and every period [a] between 1 and 7, the text made of
    the day character, [a] and 時限 gives the day and the one period [a].
    The table of word characters counts the digit as one and the blank as
    none, as the table of the runtime does. *)
Theorem parse_day_periods_reads_single (is_word : char -> bool) (d : char)
    (day : str) (a : char) :
  dict_get DAY_MAP_JA d = Some day -> is_period a = true ->
  is_word a = true -> is_word (ch " ") = false ->
  parse_day_periods is_word ([d; a] ++ py "時限") = Some (day, [int_of_digit a]).
Proof. apply parse_day_periods_single_aux. Qed.

Lemma parse_day_periods_reads_single_witness :
  parse_day_periods is_word_ascii ([ch "木"; ch "3"] ++ py "時限")
  = Some (py "thu", [int_of_digit (ch "3")]).
Proof.
  apply parse_day_periods_reads_single; by vm_compute.
Defined.

(** * The three-digit short form *)

Lemma ascii_digit_digit c : ascii_digit c = true -> is_digit c = true.
Proof.
  unfold ascii_digit. intros H.
  assert (Hc : c = 48 \/ c = 49 \/ c = 50 \/ c = 51 \/ c = 52 \/ c = 53
               \/ c = 54 \/ c = 55 \/ c = 56 \/ c = 57) by lia.
  destruct Hc as [->|[->|[->|[->|[->|[->|[->|[->|[->| ->]]]]]]]]];
    by vm_compute.
Qed.

Lemma ascii_digits_clean s :
  Forall (fun c => ascii_digit c = true) s -> clean s /\ digits s.
Proof.
  induction 1 as [|c s Hc _ [IHc IHd]]; [split; [apply clean_nil | by apply Forall_nil]|].
  pose proof (ascii_digit_digit c Hc) as Hd. split.
  - change (clean ([c] ++ s)). apply clean_app. split; [|done].
    apply clean_ascii; [unfold ascii_digit in Hc; lia | by apply digit_room_char].
  - by apply Forall_cons.
Qed.

Section Short3.
Variables (b : str) (x y z : char).
Hypothesis Hb : digits1 b.
Hypothesis Hx : is_digit x = true.
Hypothesis Hy : is_digit y = true.
Hypothesis Hz : is_digit z = true.

Let s := b ++ 45 :: [x; y; z].

Lemma short3_digits : digits [x; y; z].
Proof. repeat (apply Forall_cons; split; [done|]). by apply Forall_nil. Qed.

Lemma short3_m_pc_en : m_pc_en s = None.
Proof.
  unfold m_pc_en, s. lits.
  rewrite digits1_many1 by (done || by vm_compute).
  cbn [mbind option_bind lit]. rewrite N.eqb_refl. cbn [mbind option_bind].
  rewrite many1_all by (apply short3_digits || done). done.
Qed.

Lemma short3_is_long : is_long s = false.
Proof.
  unfold is_long, s.
  by rewrite <- (app_nil_r [x; y; z]), long_form_short3 by (done || apply short3_digits).
Qed.

Lemma short3_is_pc : is_pc s = false.
Proof.
  unfold is_pc, s. lits.
  rewrite digits1_many1 by (done || by vm_compute). done.
Qed.

Lemma short3_is_basement : is_basement s = false.
Proof.
  unfold is_basement, s. lits.
  rewrite digits1_many1 by (done || by vm_compute).
  cbn [mbind option_bind lit]. rewrite N.eqb_refl.
  destruct (66 =? x) eqn:E; [|done].
  apply N.eqb_eq in E. subst x. by vm_compute in Hx.
Qed.

Lemma short3_m_full : m_full s = None.
Proof.
  unfold m_full, s. lits.
  rewrite digits1_many1 by (done || by vm_compute).
  cbn [mbind option_bind span]. replace (is_alpha 45) with false by done.
  cbn [lit]. rewrite N.eqb_refl. cbn [mbind option_bind].
  rewrite many1_all by (apply short3_digits || done). done.
Qed.

Lemma short3_m_base : m_base s = None.
Proof.
  unfold s.
  by rewrite <- (app_nil_r [x; y; z]), m_base_short3 by (done || apply short3_digits).
Qed.

Lemma short3_m_short3 : m_short3 s = Some (b, [x; y; z], None).
Proof.
  unfold m_short3, s. lits.
  rewrite digits1_many1 by (done || by vm_compute).
  cbn [mbind option_bind lit]. rewrite N.eqb_refl.
  cbn [mbind option_bind exactly]. rewrite Hx, Hy, Hz. done.
Qed.

Lemma short3_cascade :
  room_cascade s
  = if str_eqb s (py "61-102") then py "61-102B"
    else if str_eqb b (py "63") then b ++ py "-0" ++ [x] ++ py "-" ++ [y; z]
    else s.
Proof.
  unfold room_cascade.
  destruct (str_eqb s (py "61-102")); [done|].
  rewrite short3_m_pc_en, short3_is_long, short3_is_pc, short3_is_basement,
    short3_m_full, short3_m_base, short3_m_short3.
  destruct (str_eqb b (py "63")); [|by unfold s; norm_app].
  by vm_compute.
Qed.
End Short3.

(** C1, amended: 52-201 is kept in its short form.  For every building [b]
    and every three ASCII digits, the short form [b-xyz] is returned as it
    is, except that building 63 is expanded to the long form [63-0x-yz] and
    that the alias 61-102 becomes 61-102B. *)
Theorem norm_room_short3 :
  norm_room (py "52-201") = py "52-201"
  /\ forall (b : str) (x y z : char),
       b <> [] -> Forall (fun c => ascii_digit c = true) (b ++ [x; y; z]) ->
       norm_room (b ++ py "-" ++ [x; y; z])
       = if str_eqb b (py "63") then py "63-0" ++ [x] ++ py "-" ++ [y; z]
         else if str_eqb (b ++ py "-" ++ [x; y; z]) (py "61-102")
              then py "61-102B"
              else b ++ py "-" ++ [x; y; z].
Proof.
  split; [by vm_compute|].
  intros b x y z Hn Hall.
  apply Forall_app in Hall as [Hb Hd].
  destruct (ascii_digits_clean _ Hb) as [Hcb Hdb].
  destruct (ascii_digits_clean _ Hd) as [Hcd Hdd].
  pose proof Hdd as Hdd'. unfold digits in Hdd'. rewrite !Forall_cons in Hdd'.
  destruct Hdd' as (Hx & Hy & Hz & _).
  assert (Hb1 : digits1 b) by done.
  lits. cbn [app].
  assert (Hc : clean (b ++ 45 :: [x; y; z]))
    by (apply clean_app; split; [done | by apply clean_hyphen]).
  rewrite norm_room_clean by done. lits.
  unfold str_eqb at 1.
  rewrite (bool_decide_eq_false_2 (_ = [])) by (by destruct b).
  rewrite tbd_plain
    by (apply plain_app; [by apply digits_plain | by apply plain_cons_hyphen, digits_plain]).
  cbn [orb]. rewrite short3_cascade by done. lits. cbn [app].
  unfold str_eqb.
  destruct (decide (b = [54; 51])) as [->|H63].
  - rewrite (bool_decide_eq_true_2 ([54; 51] = _)) by done.
    rewrite bool_decide_eq_false_2; [done|]. cbn. congruence.
  - rewrite (bool_decide_eq_false_2 (b = _)) by done.
    by destruct (bool_decide (b ++ 45 :: [x; y; z] = [54; 49; 45; 49; 48; 50])).
Qed.

Lemma norm_room_short3_witness :
  norm_room (py "63-201") = py "63-02-01"
  /\ norm_room (py "53-104") = py "53-104".
Proof.
  split.
  - apply (proj2 norm_room_short3 (py "63") (ch "2") (ch "0") (ch "1"));
      [discriminate | vm_compute; repeat constructor].
  - apply (proj2 norm_room_short3 (py "53") (ch "1") (ch "0") (ch "4"));
      [discriminate | vm_compute; repeat constructor].
Defined.

(** * Idempotence of the room canonicaliser behind the first rules *)

Lemma norm_room_steps raw :
  norm_room raw
  = let s := stripped raw in
    if undetermined s then []
    else match m_pc_ja s with
         | Some (g1, g2) => norm_text g1 ++ py "PC-" ++ upper (norm_text g2)
         | None => if str_eqb (cleaned s) [] then [] else room_cascade (cleaned s)
         end.
Proof. reflexivity. Qed.

Lemma replace_from_In c skip old s :
  In c (replace_from skip old [] s) -> In c s.
Proof.
  revert skip. induction s as [|x s IH]; intros skip; cbn [replace_from]; [done|].
  destruct skip as [|k].
  - destruct (startswith old (x :: s)); cbn [app].
    + intros H. right. by eapply IH.
    + intros [->|H]; [by left | right; by eapply IH].
  - intros H. right. by eapply IH.
Qed.

Lemma replace_In c old s : In c (replace old [] s) -> In c s.
Proof. apply replace_from_In. Qed.

Lemma drop_parens_from_In c skip s : In c (drop_parens_from skip s) -> In c s.
Proof.
  revert skip. induction s as [|x s IH]; intros skip; cbn [drop_parens_from]; [done|].
  destruct skip as [|k]; [|intros H; right; by eapply IH].
  destruct (if x =? ch "（" then _ else _).
  - intros H. right. by eapply IH.
  - intros [->|H]; [by left | right; by eapply IH].
Qed.

Lemma one_or_two_In p s a r c : one_or_two p s = Some (a, r) -> In c r -> In c s.
Proof.
  intros (-> & _)%one_or_two_spec H. apply in_or_app. by right.
Qed.

Lemma strip_key_prefix_In c s : In c (strip_key_prefix s) -> In c s.
Proof.
  unfold strip_key_prefix.
  destruct (one_or_two is_digit (lstrip s)) as [[a r]|] eqn:E; [|done].
  destruct (lstrip r) as [|k r'] eqn:Er; [done|].
  destruct (is_colon k); [|done].
  intros H%lstrip_In. apply lstrip_In. eapply one_or_two_In; [exact E|].
  apply lstrip_In. rewrite Er. by right.
Qed.

Lemma stripped_fixed x : Forall fixed_char (stripped x).
Proof.
  apply List.Forall_forall. intros c Hc.
  apply drop_parens_from_In, strip_key_prefix_In in Hc.
  by apply (proj1 (List.Forall_forall _ _) (norm_text_fixed x)).
Qed.

Lemma cleaned_fixed s : Forall fixed_char (cleaned s).
Proof.
  apply List.Forall_forall. intros c Hc. unfold cleaned in Hc.
  do 5 apply replace_In in Hc.
  by apply (proj1 (List.Forall_forall _ _) (norm_text_fixed s)).
Qed.

(** The Japanese PC-room pattern on the stripped text gives a canonical
    identifier. *)
Lemma norm_room_pc_ja_good x g1 g2 :
  m_pc_ja (stripped x) = Some (g1, g2) ->
  good (norm_text g1 ++ py "PC-" ++ upper (norm_text g2)).
Proof.
  intros E.
  apply m_pc_ja_spec in E as (d2 & k & r & c & t & Hs & -> & Hg & Hd & Hc).
  pose proof (stripped_fixed x) as Hf. rewrite Hs in Hf.
  unfold pc_ja_prefix in Hf. rewrite !Forall_app in Hf.
  destruct Hf as [(Hfg & _ & _ & _ & _ & _ & Hfc) _].
  apply Forall_cons in Hfc as [Hfc _].
  pose proof (wide_fixed_alpha c Hc Hfc) as Ha.
  assert (Hcg : clean g1).
  { split; [|done]. eapply Forall_impl; [exact (proj1 Hg)|].
    intros y Hy. by apply digit_room_char. }
  assert (Hcc : clean [c]).
  { split; apply Forall_cons; split; try done; try by apply Forall_nil.
    by apply alpha_room_char. }
  rewrite (norm_text_clean g1), (norm_text_clean [c]) by done.
  destruct (upper_char_alpha c Ha) as (C & HU & HC & HUC & H128).
  lits. rewrite upper_cons, HU. cbn [app upper List.map List.concat].
  by apply good_pc.
Qed.

Lemma shaped_room s :
  shaped s -> trimmed s = true -> Forall (fun c => room_char c = true) s.
Proof.
  intros H Ht.
  destruct H as [H|[H|[H|[H|[H|[H|[H|[H|H]]]]]]]].
  - rewrite H. lits.
    repeat (apply Forall_cons; split; [by vm_compute|]). by apply Forall_nil.
  - by apply m_pc_en_room.
  - by apply is_long_room.
  - by apply is_pc_room.
  - by apply is_basement_room.
  - by apply m_full_room.
  - by apply m_base_room.
  - by apply m_short3_room.
  - by apply m_short_room.
Qed.

(** What the canonicaliser returns on the inputs of [resolved_plainly]: the
    empty text, a canonical identifier, or a clean text without placeholder
    that the cascade returns as it is. *)
Lemma norm_room_resolved x :
  resolved_plainly x ->
  norm_room x = [] \/ good (norm_room x).
Proof.
  unfold resolved_plainly. cbv zeta. intros H. rewrite norm_room_steps. cbv zeta.
  destruct (undetermined (stripped x)); [by left|].
  destruct (m_pc_ja (stripped x)) as [[g1 g2]|] eqn:Ej;
    [right; by eapply norm_room_pc_ja_good|].
  destruct H as [H|[H|[H|(Hs & Ht & Hb)]]]; [done | by destruct H | by rewrite H; left|].
  set (s := cleaned (stripped x)) in *.
  unfold str_eqb. destruct (decide (s = [])) as [E|Hn].
  - rewrite bool_decide_eq_true_2 by done. by left.
  - rewrite bool_decide_eq_false_2 by done. right.
    assert (Hc : clean s)
      by (split; [by apply shaped_room | apply cleaned_fixed]).
    lits.
    destruct (cascade_cases s Hc Hn Hb) as [E|Hg]; [|done].
    rewrite E. split; [done|]. split; [done|]. split; [exact Hb | exact E].
Qed.

(** C8, as stated, fails.  The text 5T BD-1-2 is resolved by the rule of the
    full three-part form once its blank is removed, and the result holds
    the placeholder TBD, so that a second pass returns the empty text; the
    text of the second input is resolved by the rule of the long form, which
    returns it with the newline that a second pass trims. *)
Lemma norm_room_not_idempotent :
  (resolved (py "5T BD-1-2")
   /\ norm_room (py "5T BD-1-2") = py "5TBD-01-02"
   /\ norm_room (norm_room (py "5T BD-1-2")) = []
   /\ norm_room (norm_room (py "5T BD-1-2")) <> norm_room (py "5T BD-1-2"))
  /\ (resolved (55 :: 53 :: 45 :: 48 :: 51 :: 45 :: 48 :: 57 :: 10 :: py "室")
      /\ norm_room (norm_room (55 :: 53 :: 45 :: 48 :: 51 :: 45 :: 48 :: 57 :: 10 :: py "室"))
         <> norm_room (55 :: 53 :: 45 :: 48 :: 51 :: 45 :: 48 :: 57 :: 10 :: py "室")).
Proof.
  split.
  - split; [|split; [by vm_compute|split; [by vm_compute|]]].
    + unfold resolved. cbv zeta. do 3 right. do 5 right. left.
      eexists. vm_compute. reflexivity.
    + vm_compute. discriminate.
  - split.
    + unfold resolved. cbv zeta. do 3 right. do 2 right. left.
      vm_compute. reflexivity.
    + vm_compute. discriminate.
Qed.

(** C8, amended.  Room canonicalisation is idempotent on every input that a
    rule other than the fallback resolves, the stripping of the key prefix,
    of parentheses, of room words and of blanks included, provided the text
    that has one of the shapes does not end with white space and does not
    hold the placeholder TBD. *)
Theorem norm_room_idempotent_resolved (x : str) :
  resolved_plainly x -> norm_room (norm_room x) = norm_room x.
Proof.
  intros [-> | Hg]%norm_room_resolved;
    [apply norm_room_nil | by apply norm_room_good].
Qed.

Lemma norm_room_idempotent_resolved_witness :
  resolved_plainly (py "01: ５３-１０３教室（仮）")
  /\ norm_room (py "01: ５３-１０３教室（仮）") = py "53-103"
  /\ norm_room (norm_room (py "01: ５３-１０３教室（仮）"))
     = norm_room (py "01: ５３-１０３教室（仮）").
Proof.
  assert (H : resolved_plainly (py "01: ５３-１０３教室（仮）")).
  { unfold resolved_plainly. cbv zeta. do 3 right. split; [|split; by vm_compute].
    do 7 right. left. eexists. vm_compute. reflexivity. }
  split; [exact H|]. split; [by vm_compute|].
  exact (norm_room_idempotent_resolved _ H).
Defined.

(** ** Room canonicaliser: the characters of a canonical code *)

(** X23.  On the inputs that a rule other than the fallback resolves
    (without final white space and without placeholder), every character
    of the canonical code is a decimal digit, an ASCII letter or a hyphen,
    and none is a character that the translation table moves: the code
    holds no blank, no kanji and no full-width digit, letter or dash. *)
Theorem norm_room_room_chars (x : str) :
  resolved_plainly x ->
  Forall (fun c => room_char c = true /\ fixed_char c) (norm_room x).
Proof.
  intros [-> | ([Hr Hf] & _)]%norm_room_resolved; [by apply Forall_nil|].
  by apply Forall_and.
Qed.

Lemma norm_room_room_chars_witness :
  resolved_plainly (py "６３号館３階末端室Ｆルーム")
  /\ norm_room (py "６３号館３階末端室Ｆルーム") = py "63PC-F"
  /\ Forall (fun c => room_char c = true /\ fixed_char c)
       (norm_room (py "６３号館３階末端室Ｆルーム")).
Proof.
  assert (H : resolved_plainly (py "６３号館３階末端室Ｆルーム")).
  { unfold resolved_plainly. cbv zeta. right. left. eexists. vm_compute. reflexivity. }
  split; [exact H|]. split; [by vm_compute|].
  exact (norm_room_room_chars _ H).
Defined.

(** * The pager on a page that does not move *)

Lemma go_to_next_page_frozen_count k :
  go_to_next_page (frozen_pager (py "１０件")) k tt = (true, tt).
Proof. by vm_compute. Qed.

Lemma harvest_loop_frozen (fuel : nat) : forall page_no acc log,
  harvest_loop (frozen_pager (py "１０件")) count_page fuel page_no acc log tt
  = None.
Proof.
  induction fuel as [|fuel IH]; intros page_no acc log; [done|].
  cbn [harvest_loop]. cbn [find_table frozen_pager count_page].
  rewrite go_to_next_page_frozen_count. apply IH.
Qed.

(** C4 at a failing input.  The range indicator reads １～１０／３０, in
    full-width digits, and no strategy changes it.  [go_to_next_page]
    compares the text of the document with the normalised text it read
    before, 1～10／30, takes the difference for an advance and answers
    [True]; the harvest scans the same page three times, until the page
    count of the indicator stops it.  With an indicator that does not
    parse, １０件, nothing stops it: whatever the fuel, the loop has not
    returned. *)
Theorem go_to_next_page_frozen :
  (forall w, _range_text (frozen_pager (py "１～１０／３０")) w = py "1～10／30")
  /\ go_to_next_page (frozen_pager (py "１～１０／３０")) 1 tt = (true, tt)
  /\ harvest_result_pages (frozen_pager (py "１～１０／３０")) count_page 5 0%nat tt
     = Some (Ok {| reached_last_page := 3; harvested := 3%nat;
                   answers := [true; true; false]; final := tt |})
  /\ (forall fuel,
        harvest_result_pages (frozen_pager (py "１０件")) count_page fuel 0%nat tt
        = None).
Proof.
  split; [intros []; by vm_compute|].
  split; [by vm_compute|]. split; [by vm_compute|].
  intros fuel. apply harvest_loop_frozen.
Qed.

(** * A full harvest *)

Section FullHarvest.

Context {W : Type} (page : Browser W (list row)).
Variable is_word : char -> bool.
Variable room_set : gset str.

(** [shown k w]: the browser state [w] shows page [k] of the result list. *)
Variable shown : Z -> W -> Prop.
Variables size total N : Z.

Hypothesis size_positive : (1 <= size)%Z.
Hypothesis some_results : (0 < total)%Z.
(** [N] is the ceiling of [total / size]. *)
Hypothesis N_ceiling : ((N - 1) * size < total <= N * size)%Z.
(** On every page the indicator parses, with the same total and page size. *)
Hypothesis indicator_parses : forall k w, shown k w ->
  exists s e, _parse_range_indicator (_range_text page w) = Some (s, e, total)
              /\ (e - s + 1 = size)%Z.
(** Every page shows the result table. *)
Hypothesis table_shown : forall k w, shown k w -> is_Some (find_table page w).
(** The site's pager works: before the last page the function
    [page_turning] is there to be called, and after the call the range text
    changes within the wait, the browser showing the next page. *)
Hypothesis pager_works : forall k w, shown k w -> (1 <= k < N)%Z ->
  exists w1 w2,
    call_page_turning page (k + 1) w = (true, w1)
    /\ wait_range_change page (_range_text page w) w1 = (true, w2)
    /\ shown (k + 1) w2.
(** The tables are well formed, and no room is called period. *)
Hypothesis period_no_room : py "period" ∉ room_set.






End FullHarvest.

